(** * A shallow embedding of the LLM resilience layer

    Embedded sources:
    - [src/app/services/llm.py]   : [LLMRegistry], [LLMService]
    - [src/app/api/v1/chatbot.py] : the two streaming generators
    - [src/app/schemas/chat.py]   : [Message] and its content validator

    Python objects with mutable fields become explicit state; a method is a
    function from the state to a result and the next state.  Everything the
    service does to the outside (backend invocations, back-off sleeps, log
    records) is appended to a trace, so that "how many attempts" and "which
    model" are statements about that trace. *)

From Stdlib Require Import ZArith List String Ascii Bool Lia Arith PeanoNat.
From Stdlib Require Import DecimalString Decimal Permutation.
From Stdlib Require QArith.
Import ListNotations.

Local Open Scope string_scope.
Local Open Scope list_scope.

(* ================================================================== *)
(** * Python values used by the three files *)
(* ================================================================== *)

Module Py.

(** The exception classes that occur in the sources.  Every class here
    derives from Python's [Exception]; signals that derive from
    [BaseException] only (cancellation, interpreter exit) are not failures
    of a backend and are not modelled. *)
Inductive exc_class : Type :=
| Exception
| ValueError
| RuntimeError
| IndexError
| ZeroDivisionError
| AttributeError
| ImportError
| TypeError
| KeyError
| ClientError         (* botocore.exceptions *)
| BotoCoreError       (* botocore.exceptions *)
| APIError            (* openai *)
| APITimeoutError     (* openai, derives from APIError *)
| RateLimitError.     (* openai, derives from APIError *)

Definition exc_class_eqb (a b : exc_class) : bool :=
  match a, b with
  | Exception, Exception | ValueError, ValueError
  | RuntimeError, RuntimeError | IndexError, IndexError
  | ZeroDivisionError, ZeroDivisionError
  | AttributeError, AttributeError | ImportError, ImportError
  | TypeError, TypeError | KeyError, KeyError
  | ClientError, ClientError | BotoCoreError, BotoCoreError
  | APIError, APIError | APITimeoutError, APITimeoutError
  | RateLimitError, RateLimitError => true
  | _, _ => false
  end.

(** [issubclass c d]: the class hierarchy of the libraries involved. *)
Definition issubclass (c d : exc_class) : bool :=
  match d with
  | Exception => true
  | APIError =>
      match c with
      | APIError | APITimeoutError | RateLimitError => true
      | _ => false
      end
  | _ => exc_class_eqb c d
  end.

(** An exception instance: its class and [str(e)]. *)
Record exc : Type := mk_exc { exc_type : exc_class; exc_str : string }.

(** [isinstance(e, (C1, ..., Cn))] *)
Definition isinstance (e : exc) (classes : list exc_class) : bool :=
  existsb (issubclass (exc_type e)) classes.

(** Outcome of a call: a value, or a raised exception. *)
Inductive res (A : Type) : Type :=
| Ok (a : A)
| Raise (e : exc).
Arguments Ok {A} a.
Arguments Raise {A} e.

(** [l[i]] on a list, with Python's negative indices; [None] stands for
    [IndexError]. *)
Definition getitem {A : Type} (l : list A) (i : Z) : option A :=
  let n := Z.of_nat (List.length l) in
  if ((0 <=? i) && (i <? n))%Z then nth_error l (Z.to_nat i)
  else if ((- n <=? i) && (i <? 0))%Z then nth_error l (Z.to_nat (n + i))
  else None.

(** [l.index(x)]: position of the first occurrence; [None] stands for
    [ValueError]. *)
Fixpoint index (x : string) (l : list string) : option Z :=
  match l with
  | [] => None
  | y :: l' =>
      if String.eqb y x then Some 0%Z
      else match index x l' with
           | Some i => Some (i + 1)%Z
           | None => None
           end
  end.

(** [x in l] for a list of strings. *)
Definition contains (x : string) (l : list string) : bool :=
  existsb (String.eqb x) l.

(** [sep.join(l)] *)
Fixpoint join (sep : string) (l : list string) : string :=
  match l with
  | [] => ""
  | [x] => x
  | x :: l' => x ++ sep ++ join sep l'
  end.

(** [str(n)] for a non-negative integer. *)
Definition str_of_nat (n : nat) : string :=
  NilZero.string_of_uint (Nat.to_uint n).

(** [str(e)] for an optional exception ([None] prints as "None"). *)
Definition str_of_opt_exc (e : option exc) : string :=
  match e with
  | Some e => exc_str e
  | None => "None"
  end.

(** [needle in haystack] for strings. *)
Fixpoint is_prefix (p s : string) : bool :=
  match p, s with
  | EmptyString, _ => true
  | String a p', String b s' => Ascii.eqb a b && is_prefix p' s'
  | String _ _, EmptyString => false
  end.

Fixpoint str_in (needle haystack : string) : bool :=
  is_prefix needle haystack
  || match haystack with
     | EmptyString => false
     | String _ rest => str_in needle rest
     end.

(** [x in s] for a character and a string. *)
Fixpoint char_in (x : ascii) (s : string) : bool :=
  match s with
  | EmptyString => false
  | String c s' => Ascii.eqb x c || char_in x s'
  end.

End Py.

Import Py.

(* ================================================================== *)
(** * src/app/services/llm.py *)
(* ================================================================== *)

Module Llm.

(** Keyword arguments handed to a model constructor. *)
Definition kwargs : Type := list (string * string).

(** A chat-model object.  [Bound h tools] is what [h.bind_tools(tools)]
    returns. *)
Inductive handle : Type :=
| ChatBedrock (model_id : string) (args : kwargs)
| ChatOpenAI (model : string) (args : kwargs)
| Bound (h : handle) (tools : list string).

(** The chat model underneath a binding. *)
Fixpoint unbound (h : handle) : handle :=
  match h with
  | Bound h' _ => unbound h'
  | _ => h
  end.

(** langchain's [BaseMessage], as far as the service looks at it. *)
Record BaseMessage : Type := { msg_type : string; msg_content : string }.

(** One dictionary of [LLMRegistry.LLMS]: [{"name": ..., "llm": ...}]. *)
Record entry : Type := { name : string; llm : handle }.

(** What the service does to the outside world. *)
Inductive event : Type :=
| Invoke (h : handle) (messages : list BaseMessage) (r : res BaseMessage)
| Sleep (seconds : Z)
| Log (level : string) (ev : string) (fields : list (string * string)).

(** The fields of [app.core.config.settings] that the file reads. *)
Record settings_t : Type := {
  LLM_PROVIDER : string;
  AVAILABLE_LLM_MODELS : list string;
  DEFAULT_LLM_MODEL : string;
  MAX_LLM_CALL_RETRIES : nat
}.

(** The collaborators of the file: the configuration, whether building a
    model object fails, what a backend answers, whether binding tools to a
    model fails, and what the logger raises when it is handed a level by
    name.  The answer of a backend may depend on everything that happened
    before (the trace, newest event first).

    [before_sleep_error]: the retry decorator is given
    [before_sleep_log(logger, "WARNING")], which calls
    [logger.log("WARNING", ...)].  The logger of [app.core.logging] is the
    structured logger that every other call of the file addresses by
    keyword fields; its [log], like [logging.Logger.log], wants the level
    as an integer and raises on a string ([TypeError] or [KeyError],
    depending on the wrapper class in use). *)
Record env : Type := {
  settings : settings_t;
  ctor_error : handle -> option exc;
  backend : list event -> handle -> list BaseMessage -> res BaseMessage;
  bind_error : handle -> list string -> option exc;
  before_sleep_error : exc
}.

(** The mutable state: the class attribute [LLMRegistry.LLMS], the two
    fields of the [LLMService] instance, and the trace (newest first). *)
Record state : Type := {
  LLMS : list entry;
  _llm : option handle;
  _current_model_index : Z;
  trace : list event
}.

(** ** State and exceptions *)

Definition M (A : Type) : Type := state -> res A * state.

Definition ret {A : Type} (a : A) : M A := fun s => (Ok a, s).

Definition raise {A : Type} (e : exc) : M A := fun s => (Raise e, s).

Definition bind {A B : Type} (m : M A) (k : A -> M B) : M B :=
  fun s =>
    match m s with
    | (Ok a, s') => k a s'
    | (Raise e, s') => (Raise e, s')
    end.

(** [try: m  except Exception as e: h e] *)
Definition try_except {A : Type} (m : M A) (h : exc -> M A) : M A :=
  fun s =>
    match m s with
    | (Ok a, s') => (Ok a, s')
    | (Raise e, s') => h e s'
    end.

(** [try: m  except C as e: h e], other exceptions pass through. *)
Definition try_except_class {A : Type}
    (classes : list exc_class) (m : M A) (h : exc -> M A) : M A :=
  try_except m (fun e => if isinstance e classes then h e else raise e).

Definition get_state : M state := fun s => (Ok s, s).

Definition set_LLMS (l : list entry) : M unit :=
  fun s => (Ok tt, {| LLMS := l; _llm := _llm s;
                      _current_model_index := _current_model_index s;
                      trace := trace s |}).

Definition set__llm (h : option handle) : M unit :=
  fun s => (Ok tt, {| LLMS := LLMS s; _llm := h;
                      _current_model_index := _current_model_index s;
                      trace := trace s |}).

Definition set__current_model_index (i : Z) : M unit :=
  fun s => (Ok tt, {| LLMS := LLMS s; _llm := _llm s;
                      _current_model_index := i;
                      trace := trace s |}).

Definition emit (ev : event) : M unit :=
  fun s => (Ok tt, {| LLMS := LLMS s; _llm := _llm s;
                      _current_model_index := _current_model_index s;
                      trace := ev :: trace s |}).

Definition log (level ev : string) (fields : list (string * string))
  : M unit :=
  emit (Log level ev fields).

Declare Scope llm_scope.
Delimit Scope llm_scope with llm.
Notation "x <- m ;; k" := (bind m (fun x => k))
  (at level 61, m at next level, right associativity) : llm_scope.
Notation "m ;; k" := (bind m (fun _ => k))
  (at level 61, right associativity) : llm_scope.
Local Open Scope llm_scope.

(** [entry = l[i]] or [IndexError]. *)
Definition list_getitem (l : list entry) (i : Z) : M entry :=
  match getitem l i with
  | Some e => ret e
  | None => raise (mk_exc IndexError "list index out of range")
  end.

(** ** tenacity *)

(** [wait_exponential(multiplier, min, max)] after attempt number
    [attempt_number] (counted from 1). *)
Definition wait_exponential (multiplier min max : Z) (attempt_number : nat)
  : Z :=
  Z.max (Z.max 0 min)
        (Z.min (multiplier * 2 ^ (Z.of_nat attempt_number - 1)) max).

(** [retry_if_exception_type(classes)] *)
Definition retry_if_exception_type (classes : list exc_class) (e : exc)
  : bool :=
  isinstance e classes.

(** The loop of tenacity's [retry] decorator with [reraise=True].
    [remaining] is [max_attempt_number - attempt_number], so that
    [stop_after_attempt]'s test [attempt_number >= max_attempt_number] is
    [remaining = 0].  An outcome that the retry predicate rejects, and the
    last outcome when the stop test fires, is handed to the caller as it
    is.  Otherwise the [before_sleep] hook runs, then the sleep, then the
    next attempt; an exception of the hook leaves the loop and reaches the
    caller. *)
Fixpoint retrying {A : Type} (retry_on : exc -> bool) (wait : nat -> Z)
    (before_sleep : exc -> M unit)
    (remaining attempt_number : nat) (fn : M A) : M A :=
  try_except fn (fun e =>
    if negb (retry_on e) then raise e
    else
      match remaining with
      | O => raise e
      | S remaining' =>
          before_sleep e ;;
          emit (Sleep (wait attempt_number)) ;;
          retrying retry_on wait before_sleep remaining'
                   (S attempt_number) fn
      end).

Definition retry {A : Type} (stop_after_attempt : nat)
    (wait : nat -> Z) (retry_on : exc -> bool)
    (before_sleep : exc -> M unit) (fn : M A) : M A :=
  retrying retry_on wait before_sleep (stop_after_attempt - 1) 1 fn.

Section WithEnv.

Variable E : env.

Definition provider_is_bedrock : bool :=
  String.eqb (LLM_PROVIDER (settings E)) "bedrock".

(** Building a model object; the constructor may raise. *)
Definition construct (h : handle) : M handle :=
  match ctor_error E h with
  | Some e => raise e
  | None => ret h
  end.

(** ** LLMRegistry *)

Definition _create_bedrock_model (model_id : string) : M entry :=
  h <- construct (ChatBedrock model_id []) ;;
  ret {| name := model_id; llm := h |}.

Definition _create_openai_model (model_name : string) : M entry :=
  h <- construct (ChatOpenAI model_name []) ;;
  ret {| name := model_name; llm := h |}.

(** The [for model_id in available_models] loop of [_get_llms]. *)
Fixpoint _get_llms_loop (available_models : list string)
    (models : list entry) : M (list entry) :=
  match available_models with
  | [] => ret models
  | model_id :: rest =>
      models' <-
        try_except
          (e <- (if provider_is_bedrock
                 then _create_bedrock_model model_id
                 else _create_openai_model model_id) ;;
           log "info" "llm_model_initialized" [("model", model_id)] ;;
           ret (models ++ [e]))
          (fun ex =>
             log "error" "failed_to_initialize_model"
                 [("model", model_id); ("error", exc_str ex)] ;;
             ret models) ;;
      _get_llms_loop rest models'
  end.

Definition _get_llms : M (list entry) :=
  available_models <-
    match AVAILABLE_LLM_MODELS (settings E) with
    | [] =>
        log "warning" "No available models configured, using defaults" [] ;;
        if provider_is_bedrock
        then ret ["anthropic.claude-3-sonnet-20240229-v1:0"]
        else ret ["gpt-4o-mini"]
    | l => ret l
    end ;;
  models <- _get_llms_loop available_models [] ;;
  match models with
  | [] =>
      raise (mk_exc RuntimeError
               ("No LLM models could be initialized for provider '"
                ++ LLM_PROVIDER (settings E) ++ "'"))
  | _ => ret models
  end.

Definition initialize : M unit :=
  models <- _get_llms ;;
  set_LLMS models.

(** [if not cls.LLMS: cls.initialize()] *)
Definition ensure_initialized : M unit :=
  s <- get_state ;;
  match LLMS s with
  | [] => initialize
  | _ => ret tt
  end.

Definition get (model_name : string) (args : kwargs) : M handle :=
  ensure_initialized ;;
  s <- get_state ;;
  match find (fun e => String.eqb (name e) model_name) (LLMS s) with
  | None =>
      raise (mk_exc ValueError
               ("model '" ++ model_name
                ++ "' not found in registry. available models: "
                ++ join ", " (map name (LLMS s))))
  | Some model_entry =>
      match args with
      | _ :: _ =>
          log "debug" "creating_llm_with_custom_args"
              [("model_name", model_name)] ;;
          if provider_is_bedrock
          then construct (ChatBedrock model_name args)
          else construct (ChatOpenAI model_name args)
      | [] =>
          log "debug" "using_default_llm_instance"
              [("model_name", model_name)] ;;
          ret (llm model_entry)
      end
  end.

Definition get_all_names : M (list string) :=
  ensure_initialized ;;
  s <- get_state ;;
  ret (map name (LLMS s)).

Definition get_model_at_index (index : Z) : M entry :=
  ensure_initialized ;;
  s <- get_state ;;
  if ((0 <=? index) && (index <? Z.of_nat (List.length (LLMS s))))%Z
  then list_getitem (LLMS s) index
  else list_getitem (LLMS s) 0.

(** ** LLMService *)

Definition __init__ : M unit :=
  set__llm None ;;
  set__current_model_index 0 ;;
  initialize ;;
  let available_models := AVAILABLE_LLM_MODELS (settings E) in
  (if negb (contains (DEFAULT_LLM_MODEL (settings E)) available_models)
   then log "warning" "default_model_not_in_available_models"
            [("default_model", DEFAULT_LLM_MODEL (settings E))]
   else ret tt) ;;
  all_names <- get_all_names ;;
  try_except
    (match index (DEFAULT_LLM_MODEL (settings E)) all_names with
     | None =>
         raise (mk_exc ValueError
                  ("'" ++ DEFAULT_LLM_MODEL (settings E)
                   ++ "' is not in list"))
     | Some i =>
         set__current_model_index i ;;
         h <- get (DEFAULT_LLM_MODEL (settings E)) [] ;;
         set__llm (Some h) ;;
         log "info" "llm_service_initialized"
             [("default_model", DEFAULT_LLM_MODEL (settings E))]
     end)
    (fun e =>
       s <- get_state ;;
       match LLMS s with
       | _ :: _ =>
           set__current_model_index 0 ;;
           first <- list_getitem (LLMS s) 0 ;;
           set__llm (Some (llm first)) ;;
           log "warning" "default_model_not_found_using_first"
               [("requested", DEFAULT_LLM_MODEL (settings E));
                ("error", exc_str e)]
       | [] =>
           log "error" "no_llm_models_available"
               [("error", exc_str e)] ;;
           raise (mk_exc RuntimeError
                    ("No LLM models available for provider '"
                     ++ LLM_PROVIDER (settings E) ++ "'"))
       end).

(** [(self._current_model_index + 1) % total_models]; Python raises
    [ZeroDivisionError] on an empty registry, and for a positive modulus
    its [%] is [Z.modulo]. *)
Definition _get_next_model_index : M Z :=
  s <- get_state ;;
  let total_models := Z.of_nat (List.length (LLMS s)) in
  if (total_models =? 0)%Z
  then raise (mk_exc ZeroDivisionError
                "integer division or modulo by zero")
  else ret ((_current_model_index s + 1) mod total_models)%Z.

Definition _switch_to_next_model : M bool :=
  try_except
    (next_index <- _get_next_model_index ;;
     next_model_entry <- get_model_at_index next_index ;;
     log "warning" "switching_to_next_model"
         [("to_model", name next_model_entry)] ;;
     set__current_model_index next_index ;;
     set__llm (Some (llm next_model_entry)) ;;
     log "info" "model_switched"
         [("new_model", name next_model_entry)] ;;
     ret true)
    (fun e =>
       log "error" "model_switch_failed" [("error", exc_str e)] ;;
       ret false).

(** The classes are those of the provider's SDK, which is importable
    whenever a model of that provider could be built. *)
Definition _get_retry_exceptions : list exc_class :=
  if provider_is_bedrock
  then [ClientError; BotoCoreError]
  else [RateLimitError; APITimeoutError; APIError].

(** [await self._llm.ainvoke(messages)]: the backend answers, and the
    invocation is recorded. *)
Definition ainvoke (h : handle) (messages : list BaseMessage)
  : M BaseMessage :=
  fun s =>
    let r := backend E (trace s) h messages in
    (r, {| LLMS := LLMS s; _llm := _llm s;
           _current_model_index := _current_model_index s;
           trace := Invoke h messages r :: trace s |}).

(** The body of [_call_llm_with_retry], without its decorator. *)
Definition _call_llm_with_retry_body (messages : list BaseMessage)
  : M BaseMessage :=
  s <- get_state ;;
  match _llm s with
  | None => raise (mk_exc RuntimeError "llm not initialized")
  | Some h =>
      try_except
        (response <- ainvoke h messages ;;
         log "debug" "llm_call_successful" [] ;;
         ret response)
        (fun e =>
           let retry_errors := _get_retry_exceptions in
           if isinstance e retry_errors
           then
             log "warning" "llm_call_failed_retrying"
                 [("error", exc_str e)] ;;
             raise e
           else
             log "error" "llm_call_failed" [("error", exc_str e)] ;;
             raise e)
  end.

(** [before_sleep_log(logger, "WARNING")]: the hook hands the level
    name to [logger.log], which raises. *)
Definition before_sleep_log (log_level : string) (e : exc) : M unit :=
  raise (before_sleep_error E).

(** [_call_llm_with_retry] under
    [@retry(stop=stop_after_attempt(settings.MAX_LLM_CALL_RETRIES),
            wait=wait_exponential(multiplier=1, min=2, max=10),
            retry=retry_if_exception_type((Exception,)),
            before_sleep=before_sleep_log(logger, "WARNING"),
            reraise=True)]. *)
Definition _call_llm_with_retry (messages : list BaseMessage)
  : M BaseMessage :=
  retry (MAX_LLM_CALL_RETRIES (settings E))
        (wait_exponential 1 2 10)
        (retry_if_exception_type [Exception])
        (before_sleep_log "WARNING")
        (_call_llm_with_retry_body messages).

(** What the retry unit raises when its first attempt raised [e]: with
    one attempt allowed [e] itself, otherwise the exception of the
    [before_sleep] hook. *)
Definition reported (e : exc) : exc :=
  if (2 <=? MAX_LLM_CALL_RETRIES (settings E))%nat
  then before_sleep_error E
  else e.

(** What the retry unit makes of the outcome of its first attempt. *)
Definition reported_outcome (r : res BaseMessage) : res BaseMessage :=
  match r with
  | Ok a => Ok a
  | Raise e => Raise (reported e)
  end.

(** The [raise RuntimeError(...)] after the loop of [call]. *)
Definition all_models_failed_error (models_tried : nat)
    (last_error : option exc) : exc :=
  mk_exc RuntimeError
    ("failed to get response from llm after trying "
     ++ str_of_nat models_tried ++ " models. last error: "
     ++ str_of_opt_exc last_error).

(** The [while models_tried < total_models] loop of [call] followed by
    the final [raise].  [remaining] is [total_models - models_tried]:
    the loop test is [remaining <> 0]. *)
Fixpoint call_loop (messages : list BaseMessage)
    (total_models : nat) (starting_index : Z)
    (remaining models_tried : nat) (last_error : option exc)
  : M BaseMessage :=
  match remaining with
  | O => raise (all_models_failed_error models_tried last_error)
  | S remaining' =>
      try_except (_call_llm_with_retry messages)
        (fun e =>
           let last_error := Some e in
           let models_tried := S models_tried in
           s <- get_state ;;
           current <- list_getitem (LLMS s) (_current_model_index s) ;;
           log "error" "llm_call_failed_after_retries"
               [("model", name current);
                ("models_tried", str_of_nat models_tried);
                ("error", exc_str e)] ;;
           if (total_models <=? models_tried)%nat
           then
             start <- list_getitem (LLMS s) starting_index ;;
             log "error" "all_models_failed"
                 [("models_tried", str_of_nat models_tried);
                  ("starting_model", name start)] ;;
             raise (all_models_failed_error models_tried last_error)
           else
             switched <- _switch_to_next_model ;;
             if negb switched
             then
               log "error" "failed_to_switch_to_next_model" [] ;;
               raise (all_models_failed_error models_tried last_error)
             else
               call_loop messages total_models starting_index
                         remaining' models_tried last_error)
  end.

(** [if model_name:] is false for [None] and for the empty string. *)
Definition model_name_given (model_name : option string)
  : option string :=
  match model_name with
  | Some n => if String.eqb n "" then None else Some n
  | None => None
  end.

(** The [if model_name:] block at the head of [call]. *)
Definition use_requested_model (model_name : option string)
    (model_kwargs : kwargs) : M unit :=
  match model_name_given model_name with
  | Some model_name =>
      try_except_class [ValueError]
        (h <- get model_name model_kwargs ;;
         set__llm (Some h) ;;
         all_names <- get_all_names ;;
         (match index model_name all_names with
          | Some i => set__current_model_index i
          | None => ret tt
          end) ;;
         log "info" "using_requested_model"
             [("model_name", model_name)])
        (fun e =>
           log "error" "requested_model_not_found"
               [("model_name", model_name); ("error", exc_str e)] ;;
           raise e)
  | None => ret tt
  end.

Definition call (messages : list BaseMessage)
    (model_name : option string) (model_kwargs : kwargs)
  : M BaseMessage :=
  use_requested_model model_name model_kwargs ;;
  s <- get_state ;;
  let total_models := List.length (LLMS s) in
  let starting_index := _current_model_index s in
  call_loop messages total_models starting_index total_models 0 None.

Definition get_llm : M (option handle) :=
  s <- get_state ;;
  ret (_llm s).

(** [self._llm.bind_tools(tools)]: the method of the chat model.  A
    binding has no such method of its own and forwards the call to the
    model it wraps, so that tools bound earlier are dropped.  The method
    may raise. *)
Definition llm_bind_tools (h : handle) (tools : list string) : M handle :=
  match bind_error E (unbound h) tools with
  | Some e => raise e
  | None => ret (Bound (unbound h) tools)
  end.

(** [bind_tools] returns [self]: the reference it was called on. *)
Definition bind_tools {ref : Type} (self : ref) (tools : list string)
  : M ref :=
  s <- get_state ;;
  (match _llm s with
   | Some h =>
       bound <- llm_bind_tools h tools ;;
       set__llm (Some bound) ;;
       log "debug" "tools_bound_to_llm"
           [("tool_count", str_of_nat (List.length tools))]
   | None => ret tt
   end) ;;
  ret self.

End WithEnv.

(** ** Reading the trace

    The trace is kept newest first; the observers below return what they
    collect in the order in which it happened. *)

(** The handles that were invoked. *)
Fixpoint invoked (tr : list event) : list handle :=
  match tr with
  | [] => []
  | Invoke h _ _ :: tr' => invoked tr' ++ [h]
  | _ :: tr' => invoked tr'
  end.

(** The back-off sleeps, in seconds. *)
Fixpoint sleeps (tr : list event) : list Z :=
  match tr with
  | [] => []
  | Sleep n :: tr' => sleeps tr' ++ [n]
  | _ :: tr' => sleeps tr'
  end.

(** The models [call] gave up on: the [model] field of each
    [llm_call_failed_after_retries] record. *)
Fixpoint models_failed (tr : list event) : list string :=
  match tr with
  | [] => []
  | Log _ ev (("model", m) :: _) :: tr' =>
      if String.eqb ev "llm_call_failed_after_retries"
      then models_failed tr' ++ [m]
      else models_failed tr'
  | _ :: tr' => models_failed tr'
  end.

(** How many times the cursor was rotated ([model_switched] records). *)
Fixpoint switches (tr : list event) : nat :=
  match tr with
  | [] => 0
  | Log _ ev _ :: tr' =>
      if String.eqb ev "model_switched" then S (switches tr')
      else switches tr'
  | _ :: tr' => switches tr'
  end.

(** The outcome of the most recent backend invocation. *)
Fixpoint last_outcome (tr : list event) : option (res BaseMessage) :=
  match tr with
  | [] => None
  | Invoke _ _ r :: _ => Some r
  | _ :: tr' => last_outcome tr'
  end.

(** ** Sequences of operations on one service *)

Inductive op : Type :=
| OpCall (messages : list BaseMessage) (model_name : option string)
         (model_kwargs : kwargs)
| OpSwitch
| OpBindTools (tools : list string).

Definition run_op (E : env) (o : op) (s : state) : state :=
  match o with
  | OpCall messages model_name model_kwargs =>
      snd (call E messages model_name model_kwargs s)
  | OpSwitch => snd (_switch_to_next_model E s)
  | OpBindTools tools => snd (bind_tools E tt tools s)
  end.

Definition run_ops (E : env) (ops : list op) (s : state) : state :=
  fold_left (fun s o => run_op E o s) ops s.

(** Several [call]s in a row, none naming a model. *)
Fixpoint call_each (E : env) (requests : list (list BaseMessage))
    (s : state) : list (res BaseMessage) * state :=
  match requests with
  | [] => ([], s)
  | messages :: rest =>
      let (r, s') := call E messages None [] s in
      let (rs, s'') := call_each E rest s' in
      (r :: rs, s'')
  end.

(** ** Behaviours of a backend *)

Definition always_fails_nonretryably (E : env) (h : handle) : Prop :=
  forall tr messages, exists e,
    backend E tr h messages = Raise e
    /\ isinstance e (_get_retry_exceptions E) = false.

Definition always_fails (E : env) (h : handle) : Prop :=
  forall tr messages, exists e, backend E tr h messages = Raise e.

Definition always_succeeds (E : env) (h : handle) : Prop :=
  forall tr messages, exists r, backend E tr h messages = Ok r.

(** The registry read cyclically from position [c]: the order in which
    [call] walks it. *)
Definition rotation (l : list entry) (c : nat) : list entry :=
  skipn c l ++ firstn c l.

(** [self._llm] is the registry's object at the cursor. *)
Definition at_cursor (s : state) (e : entry) : Prop :=
  (0 <= _current_model_index s)%Z
  /\ nth_error (LLMS s) (Z.to_nat (_current_model_index s)) = Some e
  /\ _llm s = Some (llm e).

(** The registry and the two fields of the service are the same in
    both states (the trace may differ). *)
Definition same_service (s s' : state) : Prop :=
  LLMS s' = LLMS s /\ _llm s' = _llm s
  /\ _current_model_index s' = _current_model_index s.

(** Nothing was invoked, rotated or given up on between the two states. *)
Definition quiet (s s' : state) : Prop :=
  invoked (trace s') = invoked (trace s)
  /\ switches (trace s') = switches (trace s)
  /\ models_failed (trace s') = models_failed (trace s).

(** The message of the [ValueError] raised by [get]. *)
Definition not_found_message (model_name : string) (s : state) : string :=
  ("model '" ++ model_name
   ++ "' not found in registry. available models: "
   ++ join ", " (map name (LLMS s)))%string.

(** The state after one more record in the trace. *)
Definition logged (ev : event) (s : state) : state :=
  {| LLMS := LLMS s; _llm := _llm s;
     _current_model_index := _current_model_index s;
     trace := ev :: trace s |}.

(** What [LLMService()] establishes: a non-empty registry, the cursor
    inside it, and a current model. *)
Definition ready (s : state) : Prop :=
  LLMS s <> []
  /\ (0 <= _current_model_index s < Z.of_nat (List.length (LLMS s)))%Z
  /\ exists h, _llm s = Some h.

(** ** The configuration as [_get_llms] reads it *)

(** The outcomes of the backend invocations. *)
Fixpoint outcomes (tr : list event) : list (res BaseMessage) :=
  match tr with
  | [] => []
  | Invoke _ _ r :: tr' => outcomes tr' ++ [r]
  | _ :: tr' => outcomes tr'
  end.

(** The model identifiers [_get_llms] works through: the configured
    ones, or the provider's default when none is configured. *)
Definition configured_models (E : env) : list string :=
  match AVAILABLE_LLM_MODELS (settings E) with
  | [] =>
      if provider_is_bedrock E
      then ["anthropic.claude-3-sonnet-20240229-v1:0"]
      else ["gpt-4o-mini"]
  | l => l
  end.

(** The object the provider's factory builds for a model identifier. *)
Definition default_handle (E : env) (model_id : string) : handle :=
  if provider_is_bedrock E
  then ChatBedrock model_id []
  else ChatOpenAI model_id [].

Definition constructible (E : env) (model_id : string) : bool :=
  match ctor_error E (default_handle E model_id) with
  | None => true
  | Some _ => false
  end.

Definition default_entry (E : env) (model_id : string) : entry :=
  {| name := model_id; llm := default_handle E model_id |}.

(** The registry a successful initialization leaves. *)
Definition expected_registry (E : env) : list entry :=
  map (default_entry E) (filter (constructible E) (configured_models E)).

(** The object [get] builds when keyword arguments are given. *)
Definition custom_handle (E : env) (model_name : string) (args : kwargs)
  : handle :=
  if provider_is_bedrock E
  then ChatBedrock model_name args
  else ChatOpenAI model_name args.

(** What [_get_llms] raises when no model could be built. *)
Definition no_models_error (E : env) : exc :=
  mk_exc RuntimeError
    ("No LLM models could be initialized for provider '"
     ++ LLM_PROVIDER (settings E) ++ "'").

End Llm.

(* ================================================================== *)
(** * src/app/api/v1/chatbot.py : the streaming generators *)
(* ================================================================== *)

Module Chatbot.

Import Llm.

(** One finite run of an asynchronous iterator: the increments it yields,
    then either normal exhaustion or a raised exception. *)
Inductive feed (A : Type) : Type :=
| Exhausted
| Raises (e : exc)
| Yields (a : A) (rest : feed A).
Arguments Exhausted {A}.
Arguments Raises {A} e.
Arguments Yields {A} a rest.

(** [schemas.chat.StreamResponse] *)
Record StreamResponse : Type := { content : string; done : bool }.

(** [schemas.chat.CopilotEvent] *)
Inductive event_type_t : Type :=
| assistant_token
| tool_call_start
| tool_call_end
| final
| error.

(** A value of the [Dict[str, Any]] of an event: a string, or any other
    object, of which it only matters whether [json.dumps] writes it
    ([None]) or raises on it ([Some e], a [TypeError] for an object that is
    not JSON serialisable). *)
Inductive any : Type :=
| Str (s : string)
| Object (dumps_error : option exc).

Record CopilotEvent : Type := {
  event_type : event_type_t;
  event_content : option string;
  metadata : option (list (string * any))
}.

(** [json.dumps] on a dictionary: the values are written in the order of
    the dictionary, and the first one that cannot be written raises. *)
Fixpoint dumps_error_of (d : list (string * any)) : option exc :=
  match d with
  | [] => None
  | (_, Object (Some e)) :: _ => Some e
  | _ :: d' => dumps_error_of d'
  end.

(** [json.dumps(event.model_dump())]: the exception it raises, if any.
    The type and the content of an event are strings or [None]. *)
Definition json_dumps_error (event : CopilotEvent) : option exc :=
  match metadata event with
  | Some d => dumps_error_of d
  | None => None
  end.

(** [runnable.get_name()] *)
Fixpoint get_name (h : handle) : string :=
  match h with
  | ChatBedrock _ _ => "ChatBedrock"
  | ChatOpenAI _ _ => "ChatOpenAI"
  | Bound h' _ => get_name h'
  end.

(** [agent.llm_service.get_llm().get_name()], evaluated when the [with]
    statement is entered; on [None] the attribute access raises. *)
Definition stream_label (current_llm : option handle) : res string :=
  match current_llm with
  | Some h => Ok (get_name h)
  | None =>
      Raise (mk_exc AttributeError
               "'NoneType' object has no attribute 'get_name'")
  end.

(** The [async for chunk in ...] loop of [event_generator]: the events
    yielded by the loop, and how the loop ended. *)
Fixpoint event_generator_loop (chunks : feed string)
    (full_response : string) : list StreamResponse * option exc :=
  match chunks with
  | Exhausted => ([], None)
  | Raises e => ([], Some e)
  | Yields chunk rest =>
      let full_response := (full_response ++ chunk)%string in
      let response := {| content := chunk; done := false |} in
      let (out, ending) := event_generator_loop rest full_response in
      (response :: out, ending)
  end.

(** [chat_stream.event_generator]: everything the generator yields, in
    order.  An event stands for its frame ["data: " + json + "\n\n"]. *)
Definition event_generator (current_llm : option handle)
    (chunks : feed string) : list StreamResponse :=
  match stream_label current_llm with
  | Raise e => [ {| content := exc_str e; done := true |} ]
  | Ok _ =>
      let (out, ending) := event_generator_loop chunks "" in
      match ending with
      | None => out ++ [ {| content := ""; done := true |} ]
      | Some e => out ++ [ {| content := exc_str e; done := true |} ]
      end
  end.

(** The [async for event in ...] loop of [copilot_event_generator]: the
    events whose frames were yielded, and how the loop ended.  The frame
    of an event is built by [json.dumps] inside the [try]; when that
    raises, nothing is yielded for the event and the loop is left. *)
Fixpoint copilot_event_generator_loop (events : feed CopilotEvent)
    (event_count : nat) : list CopilotEvent * option exc :=
  match events with
  | Exhausted => ([], None)
  | Raises e => ([], Some e)
  | Yields event rest =>
      let event_count := S event_count in
      match json_dumps_error event with
      | Some e => ([], Some e)
      | None =>
          let (out, ending) :=
            copilot_event_generator_loop rest event_count in
          (event :: out, ending)
      end
  end.

(** [chat_copilot_stream.copilot_event_generator]; the events the
    generator builds itself carry the session identifier, a string, and
    can always be written. *)
Definition copilot_event_generator (session_id : string)
    (current_llm : option handle) (events : feed CopilotEvent)
  : list CopilotEvent :=
  let error_event e :=
    {| event_type := error; event_content := Some (exc_str e);
       metadata := Some [("session_id", Str session_id)] |} in
  match stream_label current_llm with
  | Raise e => [ error_event e ]
  | Ok _ =>
      let (out, ending) := copilot_event_generator_loop events 0 in
      match ending with
      | None =>
          out ++ [ {| event_type := final; event_content := Some "";
                      metadata := Some [("session_id", Str session_id)] |} ]
      | Some e => out ++ [ error_event e ]
      end
  end.

(** The events of a feed that reach the client of the structured stream:
    those before the first one that cannot be written. *)
Fixpoint forwarded (events : feed CopilotEvent) : list CopilotEvent :=
  match events with
  | Yields event rest =>
      match json_dumps_error event with
      | Some _ => []
      | None => event :: forwarded rest
      end
  | _ => []
  end.

(** What ends the loop of the structured stream: an event that cannot be
    written, or the end of the feed. *)
Fixpoint copilot_ending (events : feed CopilotEvent) : option exc :=
  match events with
  | Exhausted => None
  | Raises e => Some e
  | Yields event rest =>
      match json_dumps_error event with
      | Some e => Some e
      | None => copilot_ending rest
      end
  end.

(** Every event of the list can be written. *)
Definition writable (events : list CopilotEvent) : bool :=
  forallb (fun event => match json_dumps_error event with
                        | None => true
                        | Some _ => false
                        end) events.

(** The increments of a feed, in arrival order, and its ending. *)
Fixpoint increments {A : Type} (f : feed A) : list A :=
  match f with
  | Yields a rest => a :: increments rest
  | _ => []
  end.

Fixpoint ending {A : Type} (f : feed A) : option exc :=
  match f with
  | Exhausted => None
  | Raises e => Some e
  | Yields _ rest => ending rest
  end.

(** An event that closes a stream. *)
Definition is_terminal (r : StreamResponse) : bool := done r.

Definition copilot_is_terminal (ev : CopilotEvent) : bool :=
  match event_type ev with
  | final | error => true
  | _ => false
  end.

(** A feed that yields the given increments and then goes on as [f]. *)
Fixpoint after {A : Type} (l : list A) (f : feed A) : feed A :=
  match l with
  | [] => f
  | a :: l' => Yields a (after l' f)
  end.

(** The event the plain stream emits for a chunk. *)
Definition token_response (chunk : string) : StreamResponse :=
  {| content := chunk; done := false |}.

(** The last event of the plain stream, by how the feed ended. *)
Definition closing_response (e : option exc) : StreamResponse :=
  {| content := match e with
                | None => ""
                | Some e => exc_str e
                end;
     done := true |}.

(** The last event of the structured stream, by how the feed ended. *)
Definition closing_event (session_id : string) (e : option exc)
  : CopilotEvent :=
  {| event_type := match e with
                   | None => final
                   | Some _ => error
                   end;
     event_content := Some (match e with
                            | None => ""
                            | Some e => exc_str e
                            end);
     metadata := Some [("session_id", Str session_id)] |}.

(** The text a client puts together from a plain stream: the contents of
    the events that do not close it. *)
Definition assembled (out : list StreamResponse) : string :=
  fold_right String.append ""
    (map content (filter (fun r => negb (done r)) out)).

End Chatbot.

(* ================================================================== *)
(** * src/app/schemas/chat.py : Message *)
(* ================================================================== *)

Module Chat.

(** ** Text

    A Python [str] is a sequence of Unicode code points; [len] counts
    them. *)

Definition code_point : Type := N.

Definition text : Type := list code_point.

(** [ord(c)] for a character of an ASCII literal. *)
Definition ord (c : ascii) : code_point := N_of_ascii c.

(** The text of an ASCII literal. *)
Definition of_string (s : string) : text :=
  map ord (list_ascii_of_string s).

(** ** The part of Python's [re] that the validator uses

    Patterns are ASCII literals, as the one of the source is; the text
    they are matched against is any text. *)

Record flags : Type := { IGNORECASE : bool; DOTALL : bool }.

Inductive regex : Type :=
| Empty                           (* matches nothing *)
| Eps                             (* the empty pattern *)
| Chr (c : code_point)            (* a literal character *)
| Dot                             (* [.] *)
| Cat (r1 r2 : regex)
| Alt (r1 r2 : regex)
| Star (greedy : bool) (r : regex). (* [r*] and [r*?] *)

Definition is_ascii_upper (c : code_point) : bool :=
  ((65 <=? c) && (c <=? 90))%N.

Definition is_ascii_lower (c : code_point) : bool :=
  ((97 <=? c) && (c <=? 122))%N.

Definition is_ascii_letter (c : code_point) : bool :=
  is_ascii_upper c || is_ascii_lower c.

(** The lower-case form of an ASCII capital; other code points are left
    as they are. *)
Definition ascii_tolower (c : code_point) : code_point :=
  if is_ascii_upper c then (c + 32)%N else c.

(** The code points beyond ASCII that [re.IGNORECASE] lets an ASCII
    letter match on a [str]: those whose lower-case mapping is the letter,
    or is a code point that has the letter as a case variant.  They are
    LATIN SMALL LETTER LONG S (U+017F) for [s], LATIN CAPITAL LETTER I WITH
    DOT ABOVE (U+0130) and LATIN SMALL LETTER DOTLESS I (U+0131) for [i],
    and KELVIN SIGN (U+212A) for [k]. *)
Definition beyond_ascii (lo : code_point) : list code_point :=
  if (lo =? 115)%N then [383%N]
  else if (lo =? 105)%N then [304%N; 305%N]
  else if (lo =? 107)%N then [8490%N]
  else [].

(** All code points that match the lower-case ASCII letter [lo] when
    case is ignored. *)
Definition case_variants (lo : code_point) : list code_point :=
  lo :: (lo - 32)%N :: beyond_ascii lo.

(** A literal of the pattern against a code point of the text.  A
    literal that is not a letter matches itself only. *)
Definition chr_matches (fl : flags) (pattern_c c : code_point) : bool :=
  if IGNORECASE fl && is_ascii_letter pattern_c
  then existsb (N.eqb c) (case_variants (ascii_tolower pattern_c))
  else N.eqb pattern_c c.

Definition newline : code_point := 10%N.

Definition dot_matches (fl : flags) (c : code_point) : bool :=
  DOTALL fl || negb (N.eqb c newline).

Fixpoint nullable (r : regex) : bool :=
  match r with
  | Empty => false
  | Eps => true
  | Chr _ => false
  | Dot => false
  | Cat r1 r2 => nullable r1 && nullable r2
  | Alt r1 r2 => nullable r1 || nullable r2
  | Star _ _ => true
  end.

(** What remains to be matched after reading [c]. *)
Fixpoint deriv (fl : flags) (c : code_point) (r : regex) : regex :=
  match r with
  | Empty => Empty
  | Eps => Empty
  | Chr p => if chr_matches fl p c then Eps else Empty
  | Dot => if dot_matches fl c then Eps else Empty
  | Cat r1 r2 =>
      if nullable r1
      then Alt (Cat (deriv fl c r1) r2) (deriv fl c r2)
      else Cat (deriv fl c r1) r2
  | Alt r1 r2 => Alt (deriv fl c r1) (deriv fl c r2)
  | Star g r1 => Cat (deriv fl c r1) (Star g r1)
  end.

(** [re.match(r, s, fl) is not None]: some prefix of [s] matches. *)
Fixpoint re_match (fl : flags) (r : regex) (s : text) : bool :=
  nullable r
  || match s with
     | [] => false
     | c :: s' => re_match fl (deriv fl c r) s'
     end.

(** [re.search(r, s, fl) is not None]: a match starts somewhere in [s]. *)
Fixpoint re_search (fl : flags) (r : regex) (s : text) : bool :=
  re_match fl r s
  || match s with
     | [] => false
     | _ :: s' => re_search fl r s'
     end.

(** A literal word as a pattern. *)
Fixpoint word (w : text) : regex :=
  match w with
  | [] => Eps
  | c :: w' => Cat (Chr c) (word w')
  end.

(** [r"<script.*?>.*?</script>"] *)
Definition script_pattern : regex :=
  Cat (word (of_string "<script"))
      (Cat (Star false Dot)
           (Cat (Chr (ord ">"))
                (Cat (Star false Dot) (word (of_string "</script>"))))).

(** [x in s] for a character. *)
Fixpoint code_in (x : code_point) (s : text) : bool :=
  match s with
  | [] => false
  | c :: s' => N.eqb x c || code_in x s'
  end.

(** The texts a pattern matches in full, as a relation. *)
Inductive lang (fl : flags) : regex -> text -> Prop :=
| lang_eps : lang fl Eps []
| lang_chr (p c : code_point) :
    chr_matches fl p c = true -> lang fl (Chr p) [c]
| lang_dot (c : code_point) :
    dot_matches fl c = true -> lang fl Dot [c]
| lang_cat (r1 r2 : regex) (s1 s2 : text) :
    lang fl r1 s1 -> lang fl r2 s2 -> lang fl (Cat r1 r2) (s1 ++ s2)
| lang_alt_l (r1 r2 : regex) (s : text) :
    lang fl r1 s -> lang fl (Alt r1 r2) s
| lang_alt_r (r1 r2 : regex) (s : text) :
    lang fl r2 s -> lang fl (Alt r1 r2) s
| lang_star_nil (g : bool) (r : regex) : lang fl (Star g r) []
| lang_star_app (g : bool) (r : regex) (s1 s2 : text) :
    lang fl r s1 -> lang fl (Star g r) s2 -> lang fl (Star g r) (s1 ++ s2).

(** The flags the validator passes: [re.IGNORECASE | re.DOTALL]. *)
Definition validator_flags : flags :=
  {| IGNORECASE := true; DOTALL := true |}.

(** ** Message *)

Inductive Role : Type := user | assistant | system.

Record Message : Type := { role : Role; content : text }.

(** The validation errors pydantic reports for the [content] field. *)
Inductive ValidationError : Type :=
| string_too_short
| string_too_long
| value_error (message : string).

(** The [@field_validator("content")] function. *)
Definition validate_content (v : text) : res text :=
  if re_search validator_flags script_pattern v
  then Raise (mk_exc ValueError
                "Content contains potentially harmful script tags")
  else if code_in 0%N v
  then Raise (mk_exc ValueError "Content contains null bytes")
  else Ok v.

(** [Message(role=role, content=content)].  The constraints of
    [Field(min_length=1, max_length=3000)] are checked on the string
    first, the field validator runs on what passed them. *)
Definition new_Message (role : Role) (content : text)
  : ValidationError + Message :=
  if (List.length content <? 1)%nat then inl string_too_short
  else if (3000 <? List.length content)%nat then inl string_too_long
  else match validate_content content with
       | Raise e => inl (value_error (exc_str e))
       | Ok v => inr {| role := role; content := v |}
       end.

(** ** The validator's words, stated without the matcher *)

(** [t] spells the word [w] as [re.IGNORECASE] reads it. *)
Definition spells (w t : text) : Prop :=
  Forall2 (fun p c => chr_matches validator_flags p c = true) w t.

(** The text contains an opening [<script ...>] and, after it, a closing
    [</script>], spelled as [re.IGNORECASE] reads them and with anything
    (newlines too) in between. *)
Definition contains_script_tag (v : text) : Prop :=
  exists before opening attrs body closing rest,
    v = before ++ opening ++ attrs ++ [ord ">"] ++ body ++ closing ++ rest
    /\ spells (of_string "<script") opening
    /\ spells (of_string "</script>") closing.

Definition contains_null_byte (v : text) : Prop :=
  exists before rest, v = before ++ 0%N :: rest.

(** The four grounds for rejecting a content. *)
Definition rejected (v : text) : Prop :=
  v = []
  \/ (3000 < List.length v)%nat
  \/ contains_script_tag v
  \/ contains_null_byte v.

(** ** The same in the plain sense of letter case *)





(** ** ChatRequest *)

Record ChatRequest : Type := { messages : list Message }.

(** What pydantic reports for the [messages] field: the list is too
    short, or the item at a position is refused. *)
Inductive RequestError : Type :=
| too_short
| item_error (position : nat) (err : ValidationError).

(** Validation of the items of [messages], the first of them being at
    position [position]: the messages that were built and the errors that
    were found, both in list order. *)
Fixpoint validate_items (position : nat) (raw : list (Role * text))
  : list Message * list RequestError :=
  match raw with
  | [] => ([], [])
  | (r, c) :: rest =>
      let (ms, errs) := validate_items (S position) rest in
      match new_Message r c with
      | inl err => (ms, item_error position err :: errs)
      | inr m => (m :: ms, errs)
      end
  end.

(** [ChatRequest(messages=raw)]: the items are validated one by one, then
    [Field(..., min_length=1)] is checked on the list. *)
Definition new_ChatRequest (raw : list (Role * text))
  : list RequestError + ChatRequest :=
  let (ms, errs) := validate_items 0 raw in
  match errs with
  | _ :: _ => inl errs
  | [] =>
      if (List.length ms <? 1)%nat then inl [too_short]
      else inr {| messages := ms |}
  end.


End Chat.

(* ================================================================== *)
(** * src/app/services/llm.py : how the model objects are configured *)
(* ================================================================== *)

Module Factory.

(** A value of a keyword-argument dictionary.  A float is the decimal
    literal of the source, kept as the rational it denotes; the code only
    copies these values, it never computes with them. *)
Inductive value : Type :=
| VStr (s : string)
| VInt (n : Z)
| VFloat (q : QArith_base.Q).

(** A Python [dict] with string keys, in insertion order. *)
Definition dict : Type := list (string * value).

(** [d[k] = v]: the value of an existing key is replaced in place, a new
    key goes to the end. *)
Fixpoint setitem (k : string) (v : value) (d : dict) : dict :=
  match d with
  | [] => [(k, v)]
  | (k', v') :: d' =>
      if String.eqb k' k then (k, v) :: d'
      else (k', v') :: setitem k v d'
  end.

(** [d.update(items)] *)
Definition update (d : dict) (items : dict) : dict :=
  fold_left (fun d kv => setitem (fst kv) (snd kv) d) items d.

(** [d.get(k)] *)
Fixpoint lookup (k : string) (d : dict) : option value :=
  match d with
  | [] => None
  | (k', v) :: d' => if String.eqb k' k then Some v else lookup k d'
  end.

(** The settings the two factories read. *)
Record config : Type := {
  production : bool;   (* settings.ENVIRONMENT == Environment.PRODUCTION *)
  DEFAULT_LLM_TEMPERATURE : QArith_base.Q;
  MAX_TOKENS : Z;
  OPENAI_API_KEY : string
}.

(** The [model_kwargs] that [_create_openai_model] passes to
    [ChatOpenAI]. *)
Definition openai_model_kwargs (c : config) (model_name : string) : dict :=
  let model_kwargs :=
    [("model", VStr model_name);
     ("temperature", VFloat (DEFAULT_LLM_TEMPERATURE c));
     ("api_key", VStr (OPENAI_API_KEY c));
     ("max_tokens", VInt (MAX_TOKENS c))] in
  if str_in "gpt-4o" model_name && negb (String.eqb model_name "gpt-4o-mini")
  then
    update model_kwargs
      [("top_p", VFloat (if production c then QArith_base.Qmake 95 100
                         else QArith_base.Qmake 8 10));
       ("presence_penalty",
        VFloat (if production c then QArith_base.Qmake 1 10
                else QArith_base.Qmake 0 10));
       ("frequency_penalty",
        VFloat (if production c then QArith_base.Qmake 1 10
                else QArith_base.Qmake 0 10))]
  else
    setitem "top_p"
      (VFloat (if production c then QArith_base.Qmake 9 10
               else QArith_base.Qmake 8 10))
      model_kwargs.

(** ** _get_bedrock_credentials *)

(** [os.environ] *)
Definition environ : Type := string -> option string.

(** [os.environ[k] = v]; a value with a null byte is refused. *)
Definition environ_set (k v : string) (env : environ) : res environ :=
  if char_in Ascii.zero v
  then Raise (mk_exc ValueError "embedded null byte")
  else Ok (fun k' => if String.eqb k' k then Some v else env k').

(** [boto3.Session(...)], by the arguments it was given. *)
Record Session : Type := {
  aws_access_key_id : option string;
  aws_secret_access_key : option string;
  region_name : string
}.

(** The settings [_get_bedrock_credentials] reads; an unset setting is the
    empty string (or [None], which is as false). *)
Record aws_settings : Type := {
  BEDROCK_AVAILABLE : bool;
  AWS_REGION : string;
  AWS_BEARER_TOKEN_BEDROCK : string;
  AWS_ACCESS_KEY_ID : string;
  AWS_SECRET_ACCESS_KEY : string
}.

Definition truthy (s : string) : bool := negb (String.eqb s "").

(** [s.split(':', 1)] on a string that contains a colon: what is before
    the first colon and what is after it. *)
Fixpoint split_first_colon (s : string) : string * string :=
  match s with
  | EmptyString => (EmptyString, EmptyString)
  | String c s' =>
      if Ascii.eqb c ":" then (EmptyString, s')
      else let (a, b) := split_first_colon s' in (String c a, b)
  end.

(** [s.replace(old, '')]: the occurrences of [old] are removed from left
    to right, without overlap.  [skip] counts the characters of a match
    that are still to be dropped. *)
Fixpoint remove_all (old : string) (skip : nat) (s : string) : string :=
  match s with
  | EmptyString => EmptyString
  | String c s' =>
      match skip with
      | S k => remove_all old k s'
      | O =>
          if negb (String.eqb old "") && is_prefix old s
          then remove_all old (String.length old - 1) s'
          else String c (remove_all old 0 s')
      end
  end.

(** [c.isspace()] for a code point below 256. *)
Definition isspace (c : ascii) : bool :=
  let n := nat_of_ascii c in
  ((9 <=? n) && (n <=? 13) || (28 <=? n) && (n <=? 32)
   || (n =? 133) || (n =? 160))%nat.

Fixpoint lstrip (s : string) : string :=
  match s with
  | EmptyString => EmptyString
  | String c s' => if isspace c then lstrip s' else s
  end.

Fixpoint rstrip (s : string) : string :=
  match s with
  | EmptyString => EmptyString
  | String c s' =>
      match rstrip s' with
      | EmptyString => if isspace c then EmptyString else String c EmptyString
      | t => String c t
      end
  end.

(** [s.strip()] *)
Definition strip (s : string) : string := rstrip (lstrip s).

(** What [_get_bedrock_credentials] gets from outside: what
    [base64.b64decode] followed by [.decode('latin-1')] makes of a text,
    and the exception, if any, that [boto3.Session] raises on given
    arguments. *)
Record world : Type := {
  b64decode : string -> res string;
  session_error : Session -> option exc
}.

(** [boto3.Session(...)] inside the [try] of the bearer-token branch:
    [except Exception] turns a failure into [None]. *)
Definition guarded_session (W : world) (sess : Session) (env : environ)
  : res (option Session) * environ :=
  match session_error W sess with
  | Some _ => (Ok None, env)
  | None => (Ok (Some sess), env)
  end.

(** [boto3.Session(...)] outside a [try]. *)
Definition new_session (W : world) (sess : Session) (env : environ)
  : res (option Session) * environ :=
  match session_error W sess with
  | Some e => (Raise e, env)
  | None => (Ok (Some sess), env)
  end.

(** The access key id of the bearer-token branch, from the text before
    the first colon. *)
Definition without_prefix (access_key_id : string) : string :=
  if str_in "BedrockAPIKey-" access_key_id
  then strip (remove_all "BedrockAPIKey-" 0 access_key_id)
  else access_key_id.

(** [_get_bedrock_credentials]: the session, or [None], and the
    environment as the function leaves it.  Log records are left out. *)
Definition _get_bedrock_credentials
    (S : aws_settings) (W : world) (env : environ)
  : res (option Session) * environ :=
  if negb (BEDROCK_AVAILABLE S)
  then (Raise (mk_exc ImportError "AWS Bedrock dependencies not available"),
        env)
  else
    match environ_set "AWS_EC2_METADATA_DISABLED" "true" env with
    | Raise e => (Raise e, env)
    | Ok env1 =>
    match environ_set "AWS_REGION" (AWS_REGION S) env1 with
    | Raise e => (Raise e, env1)
    | Ok env2 =>
        if truthy (AWS_BEARER_TOKEN_BEDROCK S) then
          (* try: ... except Exception: return None *)
          match b64decode W (AWS_BEARER_TOKEN_BEDROCK S ++ "==")%string with
          | Raise _ => (Ok None, env2)
          | Ok decoded_text =>
              if char_in ":" decoded_text then
                let access_key_id :=
                  without_prefix (fst (split_first_colon decoded_text)) in
                let secret_access_key :=
                  snd (split_first_colon decoded_text) in
                match environ_set "AWS_ACCESS_KEY_ID" access_key_id env2 with
                | Raise _ => (Ok None, env2)
                | Ok env3 =>
                match environ_set "AWS_SECRET_ACCESS_KEY"
                                  secret_access_key env3 with
                | Raise _ => (Ok None, env3)
                | Ok env4 =>
                    guarded_session W
                      {| aws_access_key_id := Some access_key_id;
                         aws_secret_access_key := Some secret_access_key;
                         region_name := AWS_REGION S |}
                      env4
                end
                end
              else (Ok None, env2)
          end
        else if truthy (AWS_ACCESS_KEY_ID S)
                && truthy (AWS_SECRET_ACCESS_KEY S) then
          match environ_set "AWS_ACCESS_KEY_ID" (AWS_ACCESS_KEY_ID S) env2 with
          | Raise e => (Raise e, env2)
          | Ok env3 =>
          match environ_set "AWS_SECRET_ACCESS_KEY"
                            (AWS_SECRET_ACCESS_KEY S) env3 with
          | Raise e => (Raise e, env3)
          | Ok env4 =>
          match environ_set "AWS_REGION" (AWS_REGION S) env4 with
          | Raise e => (Raise e, env4)
          | Ok env5 =>
          match environ_set "AWS_EC2_METADATA_DISABLED" "true" env5 with
          | Raise e => (Raise e, env5)
          | Ok env6 =>
              new_session W
                {| aws_access_key_id := Some (AWS_ACCESS_KEY_ID S);
                   aws_secret_access_key := Some (AWS_SECRET_ACCESS_KEY S);
                   region_name := AWS_REGION S |}
                env6
          end end end end
        else
          new_session W
            {| aws_access_key_id := None;
               aws_secret_access_key := None;
               region_name := AWS_REGION S |}
            env2
    end
    end.

(** The four variables the function writes. *)
Definition written (k : string) : Prop :=
k = "AWS_EC2_METADATA_DISABLED"%string \/ k = "AWS_REGION"%string
\/ k = "AWS_ACCESS_KEY_ID"%string \/ k = "AWS_SECRET_ACCESS_KEY"%string.

End Factory.

(* ================================================================== *)
(** * Concrete configurations *)
(* ================================================================== *)

Module Examples.

Import Llm.

Definition openai_settings : settings_t :=
  {| LLM_PROVIDER := "openai";
     AVAILABLE_LLM_MODELS := ["gpt-4o-mini"; "gpt-4o"; "gpt-5"];
     DEFAULT_LLM_MODEL := "gpt-4o";
     MAX_LLM_CALL_RETRIES := 3 |}.

Definition hello : BaseMessage := {| msg_type := "ai"; msg_content := "hi" |}.

Definition question : list BaseMessage :=
  [ {| msg_type := "human"; msg_content := "ping" |} ].

(** What the structured logger raises on [log("WARNING", ...)]: its table
    of levels is keyed by number. *)
Definition level_by_name : exc := mk_exc KeyError "'WARNING'".

(** Not one of openai's transient errors. *)
Definition bad_request : exc := mk_exc ValueError "bad request".

Fixpoint is_model (n : string) (h : handle) : bool :=
  match h with
  | ChatOpenAI m _ => String.eqb m n
  | ChatBedrock m _ => String.eqb m n
  | Bound h' _ => is_model n h'
  end.

(** Every model answers. *)
Definition all_up : env :=
  {| settings := openai_settings;
     ctor_error := fun _ => None;
     backend := fun _ _ _ => Ok hello;
     bind_error := fun _ _ => None;
     before_sleep_error := level_by_name |}.

(** [gpt-4o] rejects every request, the other models answer. *)
Definition one_down : env :=
  {| settings := openai_settings;
     ctor_error := fun _ => None;
     backend := fun _ h _ =>
                  if is_model "gpt-4o" h then Raise bad_request
                  else Ok hello;
     bind_error := fun _ _ => None;
     before_sleep_error := level_by_name |}.

(** Every model answers, but none accepts the tools. *)
Definition no_tools : env :=
  {| settings := openai_settings;
     ctor_error := fun _ => None;
     backend := fun _ _ _ => Ok hello;
     bind_error := fun _ _ =>
                     Some (mk_exc ValueError "Unsupported function");
     before_sleep_error := level_by_name |}.

(** Every model rejects every request. *)
Definition all_down : env :=
  {| settings := openai_settings;
     ctor_error := fun _ => None;
     backend := fun _ _ _ => Raise bad_request;
     bind_error := fun _ _ => None;
     before_sleep_error := level_by_name |}.

(** What [call] raises when all three models are down. *)
Definition gave_up : exc :=
  mk_exc RuntimeError
    "failed to get response from llm after trying 3 models. last error: 'WARNING'".

(** Before [LLMService()] has run. *)
Definition fresh : state :=
  {| LLMS := []; _llm := None; _current_model_index := 0; trace := [] |}.

(** The service just after construction: three models, cursor on
    [gpt-4o] (position 1), nothing in the trace. *)
Definition started : state :=
  {| LLMS := [ {| name := "gpt-4o-mini"; llm := ChatOpenAI "gpt-4o-mini" [] |};
               {| name := "gpt-4o"; llm := ChatOpenAI "gpt-4o" [] |};
               {| name := "gpt-5"; llm := ChatOpenAI "gpt-5" [] |} ];
     _llm := Some (ChatOpenAI "gpt-4o" []);
     _current_model_index := 1;
     trace := [] |}.

(** The service as [LLMService()] leaves it when [gpt-4o] is down. *)
Definition constructed : state := snd (__init__ one_down fresh).

(** A mixed sequence of operations. *)
Definition busy_day : list op :=
  [OpCall question None [];
   OpSwitch;
   OpCall question (Some "gpt-4o") [];
   OpBindTools ["search"];
   OpCall question (Some "llama") []].

(** A configuration in which [gpt-4o] cannot be built. *)
Definition partly_built : env :=
  {| settings := openai_settings;
     ctor_error := fun h => if is_model "gpt-4o" h
                            then Some (mk_exc ImportError "no sdk")
                            else None;
     backend := fun _ _ _ => Ok hello;
     bind_error := fun _ _ => None;
     before_sleep_error := level_by_name |}.

(** A configuration in which no model can be built. *)
Definition unbuildable : env :=
  {| settings := openai_settings;
     ctor_error := fun _ => Some (mk_exc ImportError "no sdk");
     backend := fun _ _ _ => Ok hello;
     bind_error := fun _ _ => None;
     before_sleep_error := level_by_name |}.

(** Settings with a bearer token (the base64 text of
    "BedrockAPIKey-ab12:s3:cr3t", padding removed) and with access keys. *)
Definition bearer_settings : Factory.aws_settings :=
  {| Factory.BEDROCK_AVAILABLE := true;
     Factory.AWS_REGION := "us-east-1";
     Factory.AWS_BEARER_TOKEN_BEDROCK := "QmVkcm9ja0FQSUtleS1hYjEyOnMzOmNyM3Q";
     Factory.AWS_ACCESS_KEY_ID := "AKIAEXAMPLE";
     Factory.AWS_SECRET_ACCESS_KEY := "static-secret" |}.

(** The same without the bearer token. *)
Definition key_settings : Factory.aws_settings :=
  {| Factory.BEDROCK_AVAILABLE := true;
     Factory.AWS_REGION := "us-east-1";
     Factory.AWS_BEARER_TOKEN_BEDROCK := "";
     Factory.AWS_ACCESS_KEY_ID := "AKIAEXAMPLE";
     Factory.AWS_SECRET_ACCESS_KEY := "static-secret" |}.

(** Only the access key id is set. *)
Definition half_settings : Factory.aws_settings :=
  {| Factory.BEDROCK_AVAILABLE := true;
     Factory.AWS_REGION := "us-east-1";
     Factory.AWS_BEARER_TOKEN_BEDROCK := "";
     Factory.AWS_ACCESS_KEY_ID := "AKIAEXAMPLE";
     Factory.AWS_SECRET_ACCESS_KEY := "" |}.

(** A decoder that knows the token above, and sessions that are always
    built. *)
Definition decoding : Factory.world :=
  {| Factory.b64decode := fun text =>
       if String.eqb text "QmVkcm9ja0FQSUtleS1hYjEyOnMzOmNyM3Q=="
       then Ok "BedrockAPIKey-ab12:s3:cr3t"
       else Raise (mk_exc ValueError "Incorrect padding");
     Factory.session_error := fun _ => None |}.

(** A decoder that refuses every text. *)
Definition undecodable : Factory.world :=
  {| Factory.b64decode := fun _ =>
       Raise (mk_exc ValueError "Incorrect padding");
     Factory.session_error := fun _ => None |}.

Definition no_environ : Factory.environ := fun _ => None.

Definition dev_config : Factory.config :=
  {| Factory.production := false;
     Factory.DEFAULT_LLM_TEMPERATURE := QArith_base.Qmake 2 10;
     Factory.MAX_TOKENS := 2000;
     Factory.OPENAI_API_KEY := "sk-example" |}.

End Examples.

(* ================================================================== *)
(** * Facts about src/app/services/llm.py *)
(* ================================================================== *)

Module LlmFacts.

Import Llm.
Local Open Scope Z_scope.

(** ** Python lists *)

Lemma getitem_in_range {A : Type} (l : list A) (i : Z) :
  0 <= i < Z.of_nat (List.length l) ->
  getitem l i = nth_error l (Z.to_nat i).
Proof.
  intros H. unfold getitem.
  replace ((0 <=? i) && (i <? Z.of_nat (List.length l)))%bool with true;
    [reflexivity|].
  symmetry. apply andb_true_iff. split; [apply Z.leb_le | apply Z.ltb_lt]; lia.
Qed.

Lemma getitem_defined {A : Type} (l : list A) (i : Z) :
  0 <= i < Z.of_nat (List.length l) ->
  exists a, getitem l i = Some a /\ nth_error l (Z.to_nat i) = Some a.
Proof.
  intros H. rewrite (getitem_in_range l i H).
  destruct (nth_error l (Z.to_nat i)) eqn:Hn; [eauto|].
  apply nth_error_None in Hn. lia.
Qed.

Lemma index_in_range (x : string) (l : list string) (i : Z) :
  index x l = Some i -> 0 <= i < Z.of_nat (List.length l).
Proof.
  revert i. induction l as [|y l IH]; intros i; simpl; [discriminate|].
  destruct (String.eqb y x).
  - intros [= <-]. lia.
  - destruct (index x l) as [j|]; [|discriminate].
    intros [= <-]. specialize (IH j eq_refl). lia.
Qed.

Lemma nonempty_length {A : Type} (l : list A) :
  l <> [] -> 0 < Z.of_nat (List.length l).
Proof. destruct l; [congruence | simpl; lia]. Qed.

(** ** The registry *)

Section Registry.

Variable E : env.

Lemma ensure_initialized_noop (s : state) :
  LLMS s <> [] -> ensure_initialized E s = (Ok tt, s).
Proof.
  intros H. unfold ensure_initialized, bind, get_state, ret.
  destruct (LLMS s); [congruence | reflexivity].
Qed.

Lemma get_model_at_index_cases (s : state) (i : Z) :
  LLMS s <> [] ->
  exists e,
    get_model_at_index E i s = (Ok e, s)
    /\ nth_error (LLMS s)
         (if ((0 <=? i) && (i <? Z.of_nat (List.length (LLMS s))))%bool
          then Z.to_nat i else 0%nat) = Some e.
Proof.
  intros H. unfold get_model_at_index, bind.
  rewrite (ensure_initialized_noop s H). cbn [get_state].
  pose proof (nonempty_length _ H) as Hlen.
  destruct ((0 <=? i) && (i <? Z.of_nat (List.length (LLMS s))))%bool eqn:Hb.
  - apply andb_true_iff in Hb. destruct Hb as [H1 H2].
    apply Z.leb_le in H1. apply Z.ltb_lt in H2.
    destruct (getitem_defined (LLMS s) i (conj H1 H2)) as [e [He Hn]].
    exists e. unfold list_getitem. rewrite He. split; [reflexivity | exact Hn].
  - destruct (getitem_defined (LLMS s) 0 (conj (Z.le_refl 0) Hlen))
      as [e [He Hn]].
    exists e. unfold list_getitem. rewrite He. split; [reflexivity | exact Hn].
Qed.

End Registry.

(** C1, as the code has it: [get_model_at_index(i)] on a registry of
    [N >= 1] entries returns the entry at position [i] when
    [0 <= i < N], and the entry at position [0] for every other integer
    [i]; the registry and the service are left as they were. *)
Theorem get_model_at_index_in_range_or_first
    (E : env) (s : state) (i : Z) :
  LLMS s <> [] ->
  exists e,
    get_model_at_index E i s = (Ok e, s)
    /\ (0 <= i < Z.of_nat (List.length (LLMS s)) ->
        nth_error (LLMS s) (Z.to_nat i) = Some e)
    /\ (~ 0 <= i < Z.of_nat (List.length (LLMS s)) ->
        nth_error (LLMS s) 0 = Some e).
Proof.
  intros H. destruct (get_model_at_index_cases E s i H) as [e [He Hn]].
  exists e. split; [exact He|].
  destruct ((0 <=? i) && (i <? Z.of_nat (List.length (LLMS s))))%bool eqn:Hb.
  - split; [intros _; exact Hn|].
    apply andb_true_iff in Hb. destruct Hb as [H1 H2].
    apply Z.leb_le in H1. apply Z.ltb_lt in H2. intros Hc. lia.
  - split; [|intros _; exact Hn].
    intros [H1 H2]. apply Z.leb_le in H1. apply Z.ltb_lt in H2.
    rewrite H1, H2 in Hb. discriminate.
Qed.

Lemma get_model_at_index_in_range_or_first_witness :
  exists e,
    get_model_at_index Examples.all_up 4 Examples.started
      = (Ok e, Examples.started)
    /\ name e = "gpt-4o-mini"%string.
Proof.
  destruct (get_model_at_index_in_range_or_first
              Examples.all_up Examples.started 4) as [e [He [_ Hout]]].
  - simpl. discriminate.
  - exists e. split; [exact He|].
    assert (Hn : nth_error (LLMS Examples.started) 0 = Some e).
    { apply Hout. simpl. lia. }
    simpl in Hn. injection Hn as <-. reflexivity.
Defined.

(** C1, as the claim states it, fails: on three entries, index [4 = N+1]
    yields the entry at position 0, not the one at position
    [4 mod 3 = 1]. *)
Lemma get_model_at_index_is_not_modular :
  exists e0 e1,
    fst (get_model_at_index Examples.all_up 4 Examples.started) = Ok e0
    /\ nth_error (LLMS Examples.started) (Z.to_nat (4 mod 3)) = Some e1
    /\ e0 <> e1.
Proof.
  eexists. eexists. split; [reflexivity|]. split; [reflexivity|].
  discriminate.
Qed.

(** ** The retry unit *)

Section RetryUnit.

Variable E : env.
Variable messages : list BaseMessage.

Lemma same_service_refl (s : state) : same_service s s.
Proof. repeat split. Qed.

Lemma same_service_trans (s1 s2 s3 : state) :
  same_service s1 s2 -> same_service s2 s3 -> same_service s1 s3.
Proof.
  unfold same_service. intros (A1 & A2 & A3) (B1 & B2 & B3).
  repeat split; congruence.
Qed.

(** One execution of the decorated body: the backend is invoked once,
    and its outcome is the outcome of the body. *)
Lemma body_once (s : state) (h : handle) :
  _llm s = Some h ->
  exists s',
    _call_llm_with_retry_body E messages s
      = (backend E (trace s) h messages, s')
    /\ same_service s s'
    /\ invoked (trace s') = invoked (trace s) ++ [h]
    /\ sleeps (trace s') = sleeps (trace s)
    /\ switches (trace s') = switches (trace s)
    /\ models_failed (trace s') = models_failed (trace s)
    /\ last_outcome (trace s') = Some (backend E (trace s) h messages).
Proof.
  intros Hh.
  unfold _call_llm_with_retry_body, bind, get_state, try_except, ainvoke.
  rewrite Hh. cbn.
  destruct (backend E (trace s) h messages) as [a|e] eqn:Hb; cbn.
  - eexists. split; [reflexivity|]. cbn.
    repeat split; reflexivity.
  - destruct (isinstance e (_get_retry_exceptions E)); cbn;
      (eexists; split; [reflexivity|]; cbn;
       repeat split; reflexivity).
Qed.

Lemma body_without_llm (s : state) :
  _llm s = None ->
  _call_llm_with_retry_body E messages s
  = (Raise (mk_exc RuntimeError "llm not initialized"), s).
Proof.
  intros Hh. unfold _call_llm_with_retry_body, bind, get_state.
  rewrite Hh. reflexivity.
Qed.

(** The decorated function: whatever the number of attempts allowed, the
    body runs once.  A failure of the body is handed on as it is when no
    attempt is left; otherwise the [before_sleep] hook raises before the
    first sleep, and its exception is what the caller gets. *)
Lemma retrying_once (fn : M BaseMessage) (r : res BaseMessage)
    (s s1 : state) (remaining attempt_number : nat) :
  fn s = (r, s1) ->
  retrying (retry_if_exception_type [Exception])
           (wait_exponential 1 2 10) (before_sleep_log E "WARNING")
           remaining attempt_number fn s
  = (match r with
     | Ok a => Ok a
     | Raise e =>
         Raise (match remaining with
                | O => e
                | S _ => before_sleep_error E
                end)
     end, s1).
Proof.
  intros Hfn.
  destruct remaining; cbn [retrying]; unfold try_except; rewrite Hfn;
    destruct r as [a|e]; reflexivity.
Qed.

Lemma reported_eq (e : exc) :
  match (MAX_LLM_CALL_RETRIES (settings E) - 1)%nat with
  | O => e
  | S _ => before_sleep_error E
  end = reported E e.
Proof.
  unfold reported.
  destruct (MAX_LLM_CALL_RETRIES (settings E)) as [|[|n]]; reflexivity.
Qed.

(** [_call_llm_with_retry] on a service with a current model: one
    invocation, no sleep. *)
Lemma call_llm_with_retry_once (s : state) (h : handle) :
  _llm s = Some h ->
  exists s',
    _call_llm_with_retry E messages s
    = (reported_outcome E (backend E (trace s) h messages), s')
    /\ same_service s s'
    /\ invoked (trace s') = invoked (trace s) ++ [h]
    /\ sleeps (trace s') = sleeps (trace s)
    /\ switches (trace s') = switches (trace s)
    /\ models_failed (trace s') = models_failed (trace s)
    /\ last_outcome (trace s') = Some (backend E (trace s) h messages).
Proof.
  intros Hh.
  destruct (body_once s h Hh)
    as (s1 & Hbody & Hsame & Hinv & Hsl & Hsw & Hmf & Hlast).
  exists s1. unfold _call_llm_with_retry, retry.
  rewrite (retrying_once _ _ _ _ _ _ Hbody).
  split; [|auto 10].
  unfold reported_outcome.
  destruct (backend E (trace s) h messages); [reflexivity|].
  rewrite reported_eq. reflexivity.
Qed.

(** Without a current model nothing is invoked and nothing recorded. *)
Lemma call_llm_with_retry_without_llm (s : state) :
  _llm s = None ->
  _call_llm_with_retry E messages s
  = (Raise (reported E (mk_exc RuntimeError "llm not initialized")), s).
Proof.
  intros Hh. unfold _call_llm_with_retry, retry.
  rewrite (retrying_once _ _ _ _ _ _ (body_without_llm s Hh)).
  rewrite reported_eq. reflexivity.
Qed.

End RetryUnit.

(** The waits of [wait_exponential(multiplier=1, min=2, max=10)] after the
    first five attempts. *)
Example wait_exponential_values :
map (wait_exponential 1 2 10) [1; 2; 3; 4; 5]%nat = [2; 2; 4; 8; 10].
Proof. reflexivity. Qed.

(** A model that is down once and would answer the second time is not
    asked a second time: with three attempts allowed, the hook that runs
    before the first sleep raises, and its exception is the outcome. *)
Example second_attempt_is_not_made :
let flaky :=
  {| settings := Examples.openai_settings;
     ctor_error := fun _ => None;
     backend := fun tr _ _ =>
                  if (List.length (invoked tr) <? 1)%nat
                  then Raise (mk_exc RateLimitError "slow down")
                  else Ok Examples.hello;
     bind_error := fun _ _ => None;
     before_sleep_error := Examples.level_by_name |} in
fst (_call_llm_with_retry flaky Examples.question Examples.started)
= Raise Examples.level_by_name
/\ List.length
     (invoked (trace (snd (_call_llm_with_retry flaky Examples.question
                             Examples.started)))) = 1%nat.
Proof. split; vm_compute; reflexivity. Qed.

(** C2: when the first attempt of the retry unit raises an exception that
    is not of the provider's retryable classes, the unit fails at once:
    the backend has been invoked exactly once, no back-off sleep has taken
    place, and the service is as it was.  What it raises is the exception
    itself when one attempt is allowed, and the exception of the
    [before_sleep] hook otherwise. *)
Theorem nonretryable_failure_fails_at_once
    (E : env) (messages : list BaseMessage) (s : state) (h : handle)
    (e : exc) :
  _llm s = Some h ->
  backend E (trace s) h messages = Raise e ->
  isinstance e (_get_retry_exceptions E) = false ->
  exists s',
    _call_llm_with_retry E messages s = (Raise (reported E e), s')
    /\ same_service s s'
    /\ invoked (trace s') = invoked (trace s) ++ [h]
    /\ sleeps (trace s') = sleeps (trace s)
    /\ last_outcome (trace s') = Some (Raise e).
Proof.
  intros Hh Hb _.
  destruct (call_llm_with_retry_once E messages s h Hh)
    as (s' & Hrun & Hsame & Hinv & Hsl & _ & _ & Hlast).
  rewrite Hb in Hrun, Hlast. exists s'.
  split; [exact Hrun|]. split; [exact Hsame|].
  split; [exact Hinv|]. split; [exact Hsl | exact Hlast].
Qed.

Lemma nonretryable_failure_fails_at_once_witness :
  exists s',
    _call_llm_with_retry Examples.all_down Examples.question
                         Examples.started
    = (Raise Examples.level_by_name, s')
    /\ invoked (trace s') = [ChatOpenAI "gpt-4o" []]
    /\ sleeps (trace s') = [].
Proof.
  destruct (nonretryable_failure_fails_at_once Examples.all_down
              Examples.question Examples.started (ChatOpenAI "gpt-4o" [])
              Examples.bad_request eq_refl eq_refl eq_refl)
    as (s' & Hrun & _ & Hinv & Hsl & _).
  exists s'. split; [exact Hrun|]. split; [exact Hinv | exact Hsl].
Defined.

(** A model that always fails makes the retry unit fail after one
    invocation. *)
Lemma retry_unit_fails
    (E : env) (messages : list BaseMessage) (s : state) (h : handle) :
  _llm s = Some h ->
  always_fails E h ->
  exists e s',
    _call_llm_with_retry E messages s = (Raise e, s')
    /\ same_service s s'
    /\ invoked (trace s') = invoked (trace s) ++ [h]
    /\ sleeps (trace s') = sleeps (trace s)
    /\ switches (trace s') = switches (trace s)
    /\ models_failed (trace s') = models_failed (trace s)
    /\ exists e0,
         last_outcome (trace s') = Some (Raise e0) /\ e = reported E e0.
Proof.
  intros Hh Hfail.
  destruct (call_llm_with_retry_once E messages s h Hh)
    as (s' & Hrun & Hsame & Hinv & Hsl & Hsw & Hmf & Hlast).
  destruct (Hfail (trace s) messages) as [e0 He0].
  rewrite He0 in Hrun, Hlast. cbn [reported_outcome] in Hrun.
  exists (reported E e0), s'. eauto 12.
Qed.

(** ** Rotating the cursor *)

Section Fallback.

Variable E : env.

Lemma next_index_in_range (s : state) :
  LLMS s <> [] ->
  0 <= (_current_model_index s + 1) mod Z.of_nat (List.length (LLMS s))
    < Z.of_nat (List.length (LLMS s)).
Proof.
  intros H. apply Z.mod_pos_bound. apply nonempty_length. exact H.
Qed.

Lemma get_next_model_index_eq (s : state) :
  LLMS s <> [] ->
  _get_next_model_index s
    = (Ok ((_current_model_index s + 1)
           mod Z.of_nat (List.length (LLMS s))), s).
Proof.
  intros H. pose proof (nonempty_length _ H) as Hlen.
  unfold _get_next_model_index, bind, get_state.
  replace (Z.of_nat (List.length (LLMS s)) =? 0) with false
    by (symmetry; apply Z.eqb_neq; lia).
  reflexivity.
Qed.

Lemma switch_rotates (s : state) :
  LLMS s <> [] ->
  exists e s',
    _switch_to_next_model E s = (Ok true, s')
    /\ LLMS s' = LLMS s
    /\ _current_model_index s'
       = (_current_model_index s + 1) mod Z.of_nat (List.length (LLMS s))
    /\ nth_error (LLMS s) (Z.to_nat (_current_model_index s')) = Some e
    /\ _llm s' = Some (llm e)
    /\ switches (trace s') = S (switches (trace s))
    /\ invoked (trace s') = invoked (trace s)
    /\ models_failed (trace s') = models_failed (trace s)
    /\ last_outcome (trace s') = last_outcome (trace s).
Proof.
  intros H. pose proof (next_index_in_range s H) as Hr.
  pose proof (nonempty_length _ H) as Hlen.
  set (next := (_current_model_index s + 1)
               mod Z.of_nat (List.length (LLMS s))) in *.
  destruct (get_model_at_index_cases E s next H) as [e [He Hn]].
  replace ((0 <=? next) && (next <? Z.of_nat (List.length (LLMS s))))%bool
    with true in Hn
    by (symmetry; apply andb_true_iff;
        split; [apply Z.leb_le | apply Z.ltb_lt]; lia).
  unfold _switch_to_next_model, try_except, bind.
  rewrite (get_next_model_index_eq s H). fold next. rewrite He. cbn.
  exists e. eexists. split; [reflexivity|]. cbn.
  repeat split; try reflexivity. exact Hn.
Qed.

Lemma ready_same_service (s s' : state) :
  ready s -> same_service s s' -> ready s'.
Proof.
  unfold ready, same_service. intros (H1 & H2 & H3) (A1 & A2 & A3).
  rewrite A1, A2, A3. auto.
Qed.

Variable messages : list BaseMessage.

(** The loop of [call], entered with at least one model left to try:
    it returns an answer, or raises the aggregate error that counts
    every registered model and quotes what the retry unit reported for
    the last invocation; the starting model is named in the log record
    [all_models_failed]. *)
Lemma call_loop_outcome (total : nat) (starting_index : Z)
    (start : entry) :
  forall (remaining models_tried : nat) (last_error : option exc)
         (s : state),
    ready s ->
    total = List.length (LLMS s) ->
    (models_tried + remaining = total)%nat ->
    (1 <= remaining)%nat ->
    getitem (LLMS s) starting_index = Some start ->
    exists r s',
      call_loop E messages total starting_index remaining models_tried
                last_error s = (r, s')
      /\ LLMS s' = LLMS s
      /\ ready s'
      /\ match r with
         | Ok a => last_outcome (trace s') = Some (Ok a)
         | Raise e =>
             exists last,
               e = all_models_failed_error total (Some (reported E last))
               /\ last_outcome (trace s') = Some (Raise last)
               /\ In (Log "error" "all_models_failed"
                          [("models_tried", str_of_nat total);
                           ("starting_model", name start)])
                     (trace s')
         end.
Proof.
  induction remaining as [|remaining IH];
    intros tried last s Hready Htotal Hsum Hrem Hstart; [lia|].
  destruct Hready as (Hne & Hidx & h & Hh).
  destruct (call_llm_with_retry_once E messages s h Hh)
    as (s1 & Hrun & Hsame & _ & _ & _ & _ & Hlast).
  assert (Hready1 : ready s1).
  { apply (ready_same_service s); [|exact Hsame].
    exact (conj Hne (conj Hidx (ex_intro _ h Hh))). }
  destruct Hsame as (HL & Hl & Hi).
  cbn [call_loop]. unfold try_except. rewrite Hrun.
  destruct (backend E (trace s) h messages) as [a|e0];
    cbn [reported_outcome].
  { exists (Ok a), s1. auto. }
  set (e := reported E e0) in *.
  unfold bind at 1. cbn [get_state].
  destruct (getitem_defined (LLMS s1) (_current_model_index s1))
    as (current & Hcur & _); [rewrite HL, Hi; exact Hidx|].
  unfold bind at 1. unfold list_getitem at 1. rewrite Hcur. cbn [ret].
  unfold bind at 1. cbn [log emit].
  destruct (total <=? S tried)%nat eqn:Hleb.
  - apply Nat.leb_le in Hleb. assert (S tried = total) as -> by lia.
    unfold bind at 1. unfold list_getitem. cbn [LLMS].
    rewrite HL, Hstart. cbn.
    eexists. eexists. split; [reflexivity|]. cbn.
    split; [congruence|]. split.
    { unfold ready. cbn. rewrite ?HL, ?Hi, ?Hl. eauto. }
    exists e0. repeat split; auto.
  - apply Nat.leb_gt in Hleb. unfold bind at 1.
    match goal with
    | |- context [_switch_to_next_model E ?s2] =>
        assert (Hne2 : LLMS s2 <> []) by (cbn; rewrite HL; exact Hne);
        destruct (switch_rotates s2 Hne2)
          as (e' & s3 & Hsw & HL3 & Hi3 & Hn3 & Hl3 & _ & _ & _ & Hlo3);
        pose proof (next_index_in_range s2 Hne2) as Hr3
    end.
    rewrite Hsw. cbn [negb].
    cbn [LLMS _current_model_index trace] in HL3, Hi3, Hr3, Hlo3.
    destruct (IH (S tried) (Some e) s3) as (r & s' & Hrun' & HL' & Hr' & Hres).
    + unfold ready. rewrite HL3, Hi3, Hl3. rewrite HL.
      rewrite HL in Hr3.
      split; [exact Hne|]. split; [exact Hr3 | eauto].
    + rewrite HL3, HL. exact Htotal.
    + lia.
    + lia.
    + rewrite HL3, HL. exact Hstart.
    + exists r, s'. rewrite Hrun'. split; [reflexivity|].
      split; [congruence|]. split; [exact Hr'|]. exact Hres.
Qed.

(** ** Choosing the requested model *)

Lemma get_cases (model_name : string) (args : kwargs) (s : state) :
  LLMS s <> [] ->
  exists r s1,
    get E model_name args s = (r, s1)
    /\ same_service s s1
    /\ quiet s s1
    /\ (find (fun e => String.eqb (name e) model_name) (LLMS s) = None ->
        r = Raise (mk_exc ValueError (not_found_message model_name s))
        /\ s1 = s).
Proof.
  intros Hne. unfold get, bind. rewrite (ensure_initialized_noop E s Hne).
  cbn [get_state].
  destruct (find (fun e => String.eqb (name e) model_name) (LLMS s))
    as [me|] eqn:Hfind.
  - destruct args as [|kv args].
    + cbn. eexists. eexists. split; [reflexivity|].
      repeat split; try reflexivity; discriminate.
    + cbn [log emit]. unfold construct.
      destruct provider_is_bedrock;
        match goal with
        | |- context [ctor_error E ?h] => destruct (ctor_error E h)
        end; cbn;
        (eexists; eexists; split; [reflexivity|];
         repeat split; try reflexivity; discriminate).
  - cbn. eexists. eexists. split; [reflexivity|].
    repeat split; reflexivity.
Qed.

Lemma get_all_names_eq (s : state) :
  LLMS s <> [] -> get_all_names E s = (Ok (map name (LLMS s)), s).
Proof.
  intros Hne. unfold get_all_names, bind.
  rewrite (ensure_initialized_noop E s Hne). reflexivity.
Qed.

Lemma use_requested_model_frame
    (model_name : option string) (model_kwargs : kwargs) (s : state) :
  ready s ->
  exists r s0,
    use_requested_model E model_name model_kwargs s = (r, s0)
    /\ LLMS s0 = LLMS s
    /\ ready s0
    /\ quiet s s0
    /\ (forall e, r = Raise e -> same_service s s0)
    /\ (model_name = None -> s0 = s).
Proof.
  intros Hready. pose proof Hready as (Hne & Hidx & h0 & Hh0).
  unfold use_requested_model.
  destruct (model_name_given model_name) as [n|] eqn:Hgiven.
  2:{ exists (Ok tt), s.
      split; [reflexivity|]. split; [reflexivity|].
      split; [exact Hready|]. split; [repeat split|].
      split; [discriminate | reflexivity]. }
  assert (Hnone : model_name = None -> False).
  { intros ->. discriminate. }
  unfold try_except_class, try_except. unfold bind at 1.
  destruct (get_cases n model_kwargs s Hne)
    as (r & s1 & Hget & Hsame & Hquiet & _).
  rewrite Hget.
  pose proof (ready_same_service s s1 Hready Hsame) as Hready1.
  destruct Hsame as (HL & Hl & Hi). destruct Hquiet as (Q1 & Q2 & Q3).
  destruct r as [h|e].
  - unfold bind at 1. cbn [set__llm]. unfold bind at 1.
    rewrite get_all_names_eq by (cbn; rewrite HL; exact Hne).
    cbn [LLMS]. unfold bind at 1.
    destruct (index n (map name (LLMS s1))) as [i|] eqn:Hindex.
    + apply index_in_range in Hindex. rewrite length_map in Hindex.
      cbn. eexists. eexists. split; [reflexivity|]. cbn.
      split; [exact HL|]. split.
      { unfold ready. cbn. rewrite HL in *. eauto. }
      split; [repeat split; assumption|].
      split; [discriminate | intros Hn; destruct (Hnone Hn)].
    + cbn. eexists. eexists. split; [reflexivity|]. cbn.
      split; [exact HL|]. split.
      { unfold ready. cbn. rewrite HL, Hi. eauto. }
      split; [repeat split; assumption|].
      split; [discriminate | intros Hn; destruct (Hnone Hn)].
  - destruct (isinstance e [ValueError]); cbn;
      (eexists; eexists; split; [reflexivity|]; cbn;
       split; [exact HL|]; split;
       [ unfold ready; cbn; rewrite ?HL, ?Hi, ?Hl; eauto |];
       split; [repeat split; assumption|];
       split; [intros _ _; repeat split; assumption
              | intros Hn; destruct (Hnone Hn)]).
Qed.

(** ** [call] as a whole *)

Lemma call_unfold (model_name : option string) (model_kwargs : kwargs)
    (s s0 : state) :
  use_requested_model E model_name model_kwargs s = (Ok tt, s0) ->
  call E messages model_name model_kwargs s
    = call_loop E messages (List.length (LLMS s0))
                (_current_model_index s0) (List.length (LLMS s0))
                0 None s0.
Proof. intros H. unfold call, bind. rewrite H. reflexivity. Qed.

Lemma call_outcome (model_name : option string) (model_kwargs : kwargs)
    (s s0 : state) :
  ready s ->
  use_requested_model E model_name model_kwargs s = (Ok tt, s0) ->
  exists start r s',
    nth_error (LLMS s0) (Z.to_nat (_current_model_index s0)) = Some start
    /\ call E messages model_name model_kwargs s = (r, s')
    /\ LLMS s' = LLMS s
    /\ ready s'
    /\ match r with
       | Ok a => last_outcome (trace s') = Some (Ok a)
       | Raise e =>
           exists last,
             e = all_models_failed_error (List.length (LLMS s))
                                         (Some (reported E last))
             /\ last_outcome (trace s') = Some (Raise last)
             /\ In (Log "error" "all_models_failed"
                        [("models_tried",
                          str_of_nat (List.length (LLMS s)));
                         ("starting_model", name start)])
                   (trace s')
       end.
Proof.
  intros Hready Hpre.
  destruct (use_requested_model_frame model_name model_kwargs s Hready)
    as (r0 & s0' & Hpre' & HL0 & Hready0 & _).
  rewrite Hpre in Hpre'. injection Hpre' as <- <-.
  pose proof Hready0 as (Hne0 & Hidx0 & _).
  destruct (getitem_defined (LLMS s0) (_current_model_index s0) Hidx0)
    as (start & Hstart & Hnth).
  assert (Hlen : (1 <= List.length (LLMS s0))%nat).
  { destruct (LLMS s0); [congruence | cbn; lia]. }
  destruct (call_loop_outcome (List.length (LLMS s0))
              (_current_model_index s0) start
              (List.length (LLMS s0)) 0%nat None s0
              Hready0 eq_refl eq_refl Hlen Hstart)
    as (r & s' & Hrun & HL & Hready' & Hres).
  exists start, r, s'. split; [exact Hnth|].
  rewrite (call_unfold _ _ _ _ Hpre), Hrun. split; [reflexivity|].
  split; [congruence|]. split; [exact Hready'|].
  rewrite <- HL0. exact Hres.
Qed.

(** Whatever its arguments and whatever the backends do, [call] leaves
    the registry as it is and the cursor inside it. *)
Lemma call_ready (model_name : option string) (model_kwargs : kwargs)
    (s : state) :
  ready s ->
  ready (snd (call E messages model_name model_kwargs s))
  /\ LLMS (snd (call E messages model_name model_kwargs s)) = LLMS s.
Proof.
  intros Hready.
  destruct (use_requested_model_frame model_name model_kwargs s Hready)
    as (r0 & s0 & Hpre & HL0 & Hready0 & _).
  destruct r0 as [[]|e].
  - destruct (call_outcome model_name model_kwargs s s0 Hready Hpre)
      as (start & r & s' & _ & Hrun & HL & Hready' & _).
    rewrite Hrun. cbn. auto.
  - unfold call, bind. rewrite Hpre. cbn. auto.
Qed.

End Fallback.

(** C3, as the code has it: when [call] gives up after the fallback
    cycle, it raises a [RuntimeError] whose message is the text "failed to
    get response from llm after trying N models. last error: " followed by
    the message of the error that the retry unit raised for the last model
    tried, [N] being the number of registered models.  That error is
    [reported E last], where [last] is the outcome of the last backend
    invocation.  The name of the starting model, the one under the cursor
    when the cycle began, is written to the log record
    [all_models_failed]. *)
Theorem call_failure_message
    (E : env) (messages : list BaseMessage) (model_name : option string)
    (model_kwargs : kwargs) (s s0 s' : state) (e : exc) :
  ready s ->
  use_requested_model E model_name model_kwargs s = (Ok tt, s0) ->
  call E messages model_name model_kwargs s = (Raise e, s') ->
  exists last start,
    nth_error (LLMS s0) (Z.to_nat (_current_model_index s0)) = Some start
    /\ e = mk_exc RuntimeError
             ("failed to get response from llm after trying "
              ++ str_of_nat (List.length (LLMS s))
              ++ " models. last error: " ++ exc_str (reported E last))
    /\ last_outcome (trace s') = Some (Raise last)
    /\ In (Log "error" "all_models_failed"
               [("models_tried", str_of_nat (List.length (LLMS s)));
                ("starting_model", name start)])
          (trace s').
Proof.
  intros Hready Hpre Hcall.
  destruct (call_outcome E messages model_name model_kwargs s s0 Hready Hpre)
    as (start & r & s1 & Hstart & Hrun & _ & _ & Hres).
  rewrite Hcall in Hrun. injection Hrun as <- <-.
  destruct Hres as (last & He & Hlast & Hlog).
  exists last, start. repeat split; assumption.
Qed.

Lemma call_failure_message_witness :
  exists s',
    call Examples.all_down Examples.question None [] Examples.started
      = (Raise Examples.gave_up, s')
    /\ In (Log "error" "all_models_failed"
               [("models_tried", "3"%string);
                ("starting_model", "gpt-4o"%string)])
          (trace s').
Proof.
  destruct (call Examples.all_down Examples.question None []
                 Examples.started) as [r s'] eqn:Hcall.
  assert (Hr : r = Raise Examples.gave_up).
  { apply (f_equal fst) in Hcall. cbn [fst] in Hcall. rewrite <- Hcall.
    vm_compute. reflexivity. }
  subst r. exists s'. split; [reflexivity|].
  destruct (call_failure_message Examples.all_down Examples.question
              None [] Examples.started Examples.started s'
              Examples.gave_up)
    as (last & start & Hstart & _ & _ & Hlog).
  - unfold ready. cbn. repeat split; try lia; [discriminate | eauto].
  - reflexivity.
  - exact Hcall.
  - cbn in Hstart. injection Hstart as <-. exact Hlog.
Defined.

(** C3, as the claim states it, fails: with the cursor on [gpt-4o] and
    every model down, the message of the raised error does not contain the
    name of the starting model. *)
Lemma aggregate_error_omits_starting_model :
  exists e start,
    fst (call Examples.all_down Examples.question None [] Examples.started)
      = Raise e
    /\ nth_error (LLMS Examples.started)
         (Z.to_nat (_current_model_index Examples.started)) = Some start
    /\ name start = "gpt-4o"%string
    /\ str_in (name start) (exc_str e) = false.
Proof.
  eexists. eexists. split; [vm_compute; reflexivity|].
  split; [reflexivity|]. split; [reflexivity|]. vm_compute. reflexivity.
Qed.

(** ** An unknown model name *)

Lemma find_unregistered (model_name : string) (l : list entry) :
~ In model_name (map name l) ->
find (fun e => String.eqb (name e) model_name) l = None.
Proof.
induction l as [|e l IH]; intros Hnot; [reflexivity|].
cbn. destruct (String.eqb (name e) model_name) eqn:Heq.
- apply String.eqb_eq in Heq. exfalso. apply Hnot. left. exact Heq.
- apply IH. intros Hin. apply Hnot. right. exact Hin.
Qed.

Lemma use_requested_model_unknown
  (E : env) (model_name : string) (model_kwargs : kwargs) (s : state) :
LLMS s <> [] ->
model_name <> ""%string ->
~ In model_name (map name (LLMS s)) ->
use_requested_model E (Some model_name) model_kwargs s
= (Raise (mk_exc ValueError (not_found_message model_name s)),
   logged (Log "error" "requested_model_not_found"
               [("model_name", model_name);
                ("error", not_found_message model_name s)]) s).
Proof.
intros Hne Hname Hnot.
unfold use_requested_model, model_name_given.
destruct (String.eqb model_name "") eqn:Hempty;
  [apply String.eqb_eq in Hempty; congruence|].
unfold try_except_class, try_except. unfold bind at 1.
destruct (get_cases E model_name model_kwargs s Hne)
  as (r & s1 & Hget & _ & _ & Hmissing).
destruct (Hmissing (find_unregistered model_name (LLMS s) Hnot))
  as [-> ->].
rewrite Hget. reflexivity.
Qed.

(** C6, as the code has it: [call] with a non-empty model name that is
    not registered raises the registry's [ValueError] at once; no backend
    is invoked, the cursor is not rotated, and the registry, the current
    model and the cursor are what they were before.  (An empty model name
    is treated as no model name.) *)
Theorem call_unknown_model
  (E : env) (messages : list BaseMessage) (model_name : string)
  (model_kwargs : kwargs) (s : state) :
LLMS s <> [] ->
model_name <> ""%string ->
~ In model_name (map name (LLMS s)) ->
exists s',
  call E messages (Some model_name) model_kwargs s
  = (Raise (mk_exc ValueError (not_found_message model_name s)), s')
  /\ invoked (trace s') = invoked (trace s)
  /\ switches (trace s') = switches (trace s)
  /\ models_failed (trace s') = models_failed (trace s)
  /\ LLMS s' = LLMS s
  /\ _llm s' = _llm s
  /\ _current_model_index s' = _current_model_index s.
Proof.
intros Hne Hname Hnot. unfold call, bind.
rewrite (use_requested_model_unknown E model_name model_kwargs s
           Hne Hname Hnot).
eexists. split; [reflexivity|]. cbn. repeat split; reflexivity.
Qed.

Lemma call_unknown_model_witness :
exists s',
  call Examples.all_up Examples.question (Some "llama"%string) []
       Examples.started
  = (Raise (mk_exc ValueError
       "model 'llama' not found in registry. available models: gpt-4o-mini, gpt-4o, gpt-5"),
     s')
  /\ invoked (trace s') = []
  /\ _current_model_index s' = 1.
Proof.
destruct (call_unknown_model Examples.all_up Examples.question
            "llama"%string [] Examples.started)
  as (s' & Hcall & Hinv & _ & _ & _ & _ & Hidx).
- cbn. discriminate.
- discriminate.
- cbn. intros [H|[H|[H|[]]]]; discriminate.
- exists s'. split; [exact Hcall|]. split; [exact Hinv | exact Hidx].
Defined.

(** C6, as the claim states it, fails: the empty string is an explicit
    model name that is not registered, and [call] with it does not fail;
    it invokes the current model and returns its answer. *)
Lemma call_with_empty_model_name_proceeds :
~ In ""%string (map name (LLMS Examples.started))
/\ exists s',
     call Examples.all_up Examples.question (Some ""%string) []
          Examples.started
     = (Ok Examples.hello, s')
     /\ invoked (trace s') = [ChatOpenAI "gpt-4o" []].
Proof.
split.
- cbn. intros [H|[H|[H|[]]]]; discriminate.
- eexists. split; [vm_compute; reflexivity | reflexivity].
Qed.

(** ** Construction of the service *)

Lemma get_llms_loop_frame (E : env) (available_models : list string) :
forall (models : list entry) (s : state),
  exists models' s',
    _get_llms_loop E available_models models s = (Ok models', s')
    /\ same_service s s'.
Proof.
induction available_models as [|model_id rest IH]; intros models s.
- exists models, s. split; [reflexivity | apply same_service_refl].
- cbn [_get_llms_loop]. unfold bind at 1. unfold try_except.
  unfold _create_bedrock_model, _create_openai_model, construct.
  assert (Hstep : exists models1 s1,
    (let (r, s') :=
       (e <- (if provider_is_bedrock E
              then h <- match ctor_error E (ChatBedrock model_id []) with
                        | Some e => raise e
                        | None => ret (ChatBedrock model_id [])
                        end ;; ret {| name := model_id; llm := h |}
              else h <- match ctor_error E (ChatOpenAI model_id []) with
                        | Some e => raise e
                        | None => ret (ChatOpenAI model_id [])
                        end ;; ret {| name := model_id; llm := h |}) ;;
        log "info" "llm_model_initialized" [("model", model_id)] ;;
        ret (models ++ [e]))%llm s in
     match r with
     | Ok a => (Ok a, s')
     | Raise e =>
         (log "error" "failed_to_initialize_model"
              [("model", model_id); ("error", exc_str e)] ;;
          ret models)%llm s'
     end) = (Ok models1, s1) /\ same_service s s1).
  { destruct (provider_is_bedrock E);
      [destruct (ctor_error E (ChatBedrock model_id []))
      |destruct (ctor_error E (ChatOpenAI model_id []))];
      cbn; eexists; eexists; (split; [reflexivity|]);
      repeat split. }
  destruct Hstep as (models1 & s1 & Hstep & Hsame1). rewrite Hstep.
  destruct (IH models1 s1) as (models' & s' & Hrun & Hsame).
  exists models', s'. split; [exact Hrun|].
  apply (same_service_trans s s1 s'); assumption.
Qed.

Lemma initialize_nonempty (E : env) (s s' : state) :
initialize E s = (Ok tt, s') ->
LLMS s' <> []
/\ _llm s' = _llm s
/\ _current_model_index s' = _current_model_index s.
Proof.
unfold initialize, _get_llms. unfold bind at 1. unfold bind at 1.
assert (Havail : exists l s1,
  (match AVAILABLE_LLM_MODELS (settings E) with
   | [] =>
       (log "warning" "No available models configured, using defaults" [] ;;
        (if provider_is_bedrock E
         then ret ["anthropic.claude-3-sonnet-20240229-v1:0"%string]
         else ret ["gpt-4o-mini"%string]))%llm
   | l => ret l
   end) s = (Ok l, s1) /\ same_service s s1).
{ destruct (AVAILABLE_LLM_MODELS (settings E)).
  - destruct (provider_is_bedrock E); cbn; eexists; eexists;
      (split; [reflexivity|]); repeat split.
  - cbn. eexists. eexists. split; [reflexivity|]. repeat split. }
destruct Havail as (l & s1 & Havail & Hsame1). rewrite Havail.
unfold bind at 1.
destruct (get_llms_loop_frame E l [] s1) as (models & s2 & Hloop & Hsame2).
rewrite Hloop.
pose proof (same_service_trans s s1 s2 Hsame1 Hsame2) as (_ & Hl & Hi).
destruct models as [|m models]; cbn.
- discriminate.
- intros [= <-]. cbn. repeat split; [discriminate | exact Hl | exact Hi].
Qed.

(** [LLMService()] either raises or leaves the service ready. *)
Lemma init_ready (E : env) (s0 s : state) :
__init__ E s0 = (Ok tt, s) -> ready s.
Proof.
unfold __init__. unfold bind at 1. cbn [set__llm].
unfold bind at 1. cbn [set__current_model_index].
unfold bind at 1.
match goal with
| |- context [initialize E ?s1] =>
    destruct (initialize E s1) as [[[]|e] s2] eqn:Hinit; [|discriminate];
    apply initialize_nonempty in Hinit; destruct Hinit as (Hne & _ & _)
end.
unfold bind at 1.
assert (Hwarn : exists s3,
  (if negb (contains (DEFAULT_LLM_MODEL (settings E))
                     (AVAILABLE_LLM_MODELS (settings E)))
   then log "warning" "default_model_not_in_available_models"
            [("default_model", DEFAULT_LLM_MODEL (settings E))]
   else ret tt) s2 = (Ok tt, s3) /\ LLMS s3 = LLMS s2).
{ destruct (negb _); cbn; eexists; split; reflexivity. }
destruct Hwarn as (s3 & -> & HL3).
assert (Hne3 : LLMS s3 <> []) by (rewrite HL3; exact Hne).
unfold bind at 1. rewrite (get_all_names_eq E s3 Hne3).
unfold try_except.
assert (Hhandler : forall e s4 r s5,
  LLMS s4 <> [] ->
  (s <- get_state ;;
   match LLMS s with
   | _ :: _ =>
       set__current_model_index 0 ;;
       first <- list_getitem (LLMS s) 0 ;;
       set__llm (Some (llm first)) ;;
       log "warning" "default_model_not_found_using_first"
           [("requested", DEFAULT_LLM_MODEL (settings E));
            ("error", exc_str e)]
   | [] =>
       log "error" "no_llm_models_available" [("error", exc_str e)] ;;
       raise (mk_exc RuntimeError
                ("No LLM models available for provider '"
                 ++ LLM_PROVIDER (settings E) ++ "'"))
   end)%llm s4 = (r, s5) ->
  r = Ok tt -> ready s5).
{ intros e s4 r s5 Hne4. unfold bind at 1. cbn [get_state].
  destruct (LLMS s4) as [|first rest] eqn:HL4; [congruence|].
  cbn. intros [= <- <-] _. unfold ready. cbn. rewrite HL4.
  split; [discriminate|]. split; [cbn; lia | eauto]. }
destruct (index (DEFAULT_LLM_MODEL (settings E)) (map name (LLMS s3)))
  as [i|] eqn:Hindex.
- apply index_in_range in Hindex. rewrite length_map in Hindex.
  unfold bind at 1. cbn [set__current_model_index]. unfold bind at 1.
  match goal with
  | |- context [get E ?n ?a ?s4] =>
      assert (Hne4 : LLMS s4 <> []) by (cbn; exact Hne3);
      destruct (get_cases E n a s4 Hne4)
        as (r & s5 & Hget & (HL5 & Hl5 & Hi5) & _); rewrite Hget
  end.
  cbn [LLMS _current_model_index] in HL5, Hi5.
  destruct r as [h|e].
  + cbn. intros [= <-]. unfold ready. cbn. rewrite HL5, Hi5.
    split; [exact Hne3|]. split; [exact Hindex | eauto].
  + cbv beta iota. intros Hrun.
    eapply (Hhandler e s5); [|exact Hrun|reflexivity].
    rewrite HL5. exact Hne3.
- cbv beta iota delta [raise]. intros Hrun.
  eapply (Hhandler _ s3); [|exact Hrun|reflexivity]. exact Hne3.
Qed.

(** ** Any sequence of operations *)

Lemma bind_tools_ready (E : env) {ref : Type} (self : ref)
  (tools : list string) (s : state) :
ready s ->
ready (snd (bind_tools E self tools s))
/\ LLMS (snd (bind_tools E self tools s)) = LLMS s.
Proof.
intros (Hne & Hidx & h & Hh).
unfold bind_tools, llm_bind_tools, bind. cbn [get_state].
rewrite Hh. destruct (bind_error E (unbound h) tools); cbn;
  unfold ready; cbn; eauto 6.
Qed.

Lemma run_op_ready (E : env) (o : op) (s : state) :
ready s -> ready (run_op E o s) /\ LLMS (run_op E o s) = LLMS s.
Proof.
intros Hready. destruct o as [messages model_name model_kwargs| |tools];
  cbn [run_op].
- apply call_ready. exact Hready.
- pose proof Hready as (Hne & _ & _).
  destruct (switch_rotates E s Hne)
    as (e & s' & Hsw & HL & Hi & _ & Hl & _).
  rewrite Hsw. cbn [snd]. split; [|exact HL].
  unfold ready. rewrite HL, Hi, Hl.
  split; [exact Hne|]. split; [apply next_index_in_range; exact Hne|eauto].
- apply bind_tools_ready. exact Hready.
Qed.

Lemma run_ops_ready (E : env) (ops : list op) :
forall s, ready s ->
  ready (run_ops E ops s) /\ LLMS (run_ops E ops s) = LLMS s.
Proof.
induction ops as [|o ops IH]; intros s Hready; [split; auto|].
cbn [run_ops fold_left].
destruct (run_op_ready E o s Hready) as [Hready1 HL1].
destruct (IH _ Hready1) as [Hready2 HL2].
split; [exact Hready2|]. unfold run_ops in HL2. congruence.
Qed.

(** C7: once [LLMService()] has returned, after any sequence of calls
    (with or without a model name, registered or not), cursor rotations
    and tool bindings, and whatever the backends answer, the registry still
    has its [N >= 1] entries and the cursor is in [[0, N)]. *)
Theorem cursor_always_in_range
  (E : env) (s0 s : state) (ops : list op) :
__init__ E s0 = (Ok tt, s) ->
LLMS (run_ops E ops s) = LLMS s
/\ (1 <= List.length (LLMS s))%nat
/\ 0 <= _current_model_index (run_ops E ops s)
     < Z.of_nat (List.length (LLMS s)).
Proof.
intros Hinit. pose proof (init_ready E s0 s Hinit) as Hready.
destruct (run_ops_ready E ops s Hready) as [(Hne & Hidx & _) HL].
rewrite HL in Hidx, Hne. split; [exact HL|]. split; [|exact Hidx].
destruct (LLMS s); [congruence | cbn; lia].
Qed.

Lemma cursor_always_in_range_witness :
0 <= _current_model_index
       (run_ops Examples.one_down Examples.busy_day Examples.constructed)
  < 3.
Proof.
destruct (cursor_always_in_range Examples.one_down Examples.fresh
            Examples.constructed Examples.busy_day)
  as (_ & _ & H).
- vm_compute. reflexivity.
- exact H.
Defined.

(** ** One model down *)

Lemma always_fails_nonretryably_fails (E : env) (h : handle) :
always_fails_nonretryably E h -> always_fails E h.
Proof.
intros H tr messages. destruct (H tr messages) as (e & He & _). eauto.
Qed.

Lemma next_index_differs (c n : Z) :
2 <= n -> 0 <= c < n -> Z.to_nat ((c + 1) mod n) <> Z.to_nat c.
Proof.
intros Hn Hc.
assert (Hm : 0 <= (c + 1) mod n < n) by (apply Z.mod_pos_bound; lia).
destruct (Z.eq_dec (c + 1) n) as [Heq|Hneq].
- rewrite Heq, Z.mod_same by lia. lia.
- rewrite Z.mod_small by lia. lia.
Qed.

(** The loop of [call] when the current model answers: one invocation,
    no rotation. *)
Lemma call_loop_first_succeeds
  (E : env) (messages : list BaseMessage) (total : nat)
  (starting_index : Z) (remaining models_tried : nat)
  (last_error : option exc) (s : state) (h : handle) :
_llm s = Some h ->
always_succeeds E h ->
exists a s',
  call_loop E messages total starting_index (S remaining) models_tried
            last_error s = (Ok a, s')
  /\ same_service s s'
  /\ switches (trace s') = switches (trace s)
  /\ invoked (trace s') = invoked (trace s) ++ [h].
Proof.
intros Hh Hup.
destruct (call_llm_with_retry_once E messages s h Hh)
  as (s' & Hrun & Hsame & Hinv & _ & Hsw & _).
destruct (Hup (trace s) messages) as [a Ha].
rewrite Ha in Hrun. cbn [reported_outcome] in Hrun.
exists a, s'. cbn [call_loop]. unfold try_except. rewrite Hrun.
repeat split; try apply Hsame; assumption.
Qed.

Lemma at_cursor_ready (s : state) (e : entry) : at_cursor s e -> ready s.
Proof.
intros (H0 & Hn & Hl). unfold ready.
assert (Hlt : (Z.to_nat (_current_model_index s) < List.length (LLMS s))%nat).
{ apply nth_error_Some. rewrite Hn. discriminate. }
split; [|split; [lia | eauto]].
intros Hnil. rewrite Hnil in Hlt. cbn in Hlt. lia.
Qed.

(** A service whose current model answers keeps answering, and its cursor
    stays where it is. *)
Lemma call_each_sticky
  (E : env) (requests : list (list BaseMessage)) (e : entry) :
always_succeeds E (llm e) ->
forall s, at_cursor s e ->
  Forall (fun r => exists a, r = Ok a) (fst (call_each E requests s))
  /\ same_service s (snd (call_each E requests s))
  /\ switches (trace (snd (call_each E requests s))) = switches (trace s).
Proof.
intros Hup. induction requests as [|messages rest IH]; intros s Hat.
- cbn. split; [constructor|]. split; [apply same_service_refl | reflexivity].
- pose proof Hat as (H0 & Hn & Hl).
  pose proof (at_cursor_ready s e Hat) as (Hne & _ & _).
  cbn [call_each].
  rewrite (call_unfold E messages None [] s s eq_refl).
  destruct (LLMS s) as [|first others] eqn:HL; [congruence|].
  cbn [List.length].
  destruct (call_loop_first_succeeds E messages (S (List.length others))
              (_current_model_index s) (List.length others) 0%nat None s
              (llm e) Hl Hup)
    as (a & s1 & Hrun & Hsame & Hsw & _).
  rewrite Hrun.
  assert (Hat1 : at_cursor s1 e).
  { destruct Hsame as (A1 & A2 & A3). unfold at_cursor.
    rewrite A1, A2, A3, HL. auto. }
  destruct (IH s1 Hat1) as (Hall & Hsame' & Hsw').
  destruct (call_each E rest s1) as [rs s2]. cbn [fst snd] in *.
  split; [constructor; eauto|].
  split; [apply (same_service_trans s s1 s2); assumption | congruence].
Qed.

(** C4: in a registry of [N >= 2] models where the model under the
    cursor [c] always fails with a non-retryable error and every other
    model always answers, [call] returns an answer after exactly one
    rotation of the cursor, which then is [(c+1) mod N]; every later call
    is answered too and leaves the cursor at [(c+1) mod N], without any
    further rotation. *)
Theorem one_failing_model_one_rotation
  (E : env) (messages : list BaseMessage)
  (later : list (list BaseMessage)) (s : state) (failing : entry) :
(2 <= List.length (LLMS s))%nat ->
at_cursor s failing ->
always_fails_nonretryably E (llm failing) ->
(forall j e, j <> Z.to_nat (_current_model_index s) ->
             nth_error (LLMS s) j = Some e -> always_succeeds E (llm e)) ->
exists a s',
  call E messages None [] s = (Ok a, s')
  /\ switches (trace s') = S (switches (trace s))
  /\ _current_model_index s'
     = (_current_model_index s + 1) mod Z.of_nat (List.length (LLMS s))
  /\ Forall (fun r => exists a', r = Ok a') (fst (call_each E later s'))
  /\ _current_model_index (snd (call_each E later s'))
     = (_current_model_index s + 1) mod Z.of_nat (List.length (LLMS s))
  /\ switches (trace (snd (call_each E later s'))) = switches (trace s').
Proof.
intros HN Hat Hdown Hothers.
pose proof Hat as (H0 & Hnth & Hl).
pose proof (at_cursor_ready s failing Hat) as (Hne & Hidx & _).
rewrite (call_unfold E messages None [] s s eq_refl).
destruct (List.length (LLMS s)) as [|[|n]] eqn:Hlen; try lia.
cbn [call_loop]. unfold try_except.
destruct (retry_unit_fails E messages s (llm failing) Hl
            (always_fails_nonretryably_fails E _ Hdown))
  as (e & s1 & Hrun & (HL1 & Hl1 & Hi1) & _ & _ & Hsw1 & _).
rewrite Hrun.
unfold bind at 1. cbn [get_state].
destruct (getitem_defined (LLMS s1) (_current_model_index s1))
  as (current & Hcur & _); [rewrite HL1, Hi1, Hlen; exact Hidx|].
unfold bind at 1. unfold list_getitem at 1. rewrite Hcur. cbn [ret].
unfold bind at 1. cbn [log emit Nat.leb]. unfold bind at 1.
match goal with
| |- context [_switch_to_next_model E ?s2] =>
    assert (Hne2 : LLMS s2 <> []) by (cbn; rewrite HL1; exact Hne);
    destruct (switch_rotates E s2 Hne2)
      as (e' & s3 & Hsw & HL3 & Hi3 & Hn3 & Hl3 & Hsw3 & _)
end.
rewrite Hsw. cbn [negb].
cbn [LLMS _current_model_index trace switches String.eqb Ascii.eqb
     Bool.eqb] in HL3, Hi3, Hn3, Hsw3.
rewrite HL1, Hi1 in Hi3. rewrite HL1 in Hn3. rewrite Hlen in Hi3.
assert (Hup : always_succeeds E (llm e')).
{ apply (Hothers (Z.to_nat (_current_model_index s3))); [|exact Hn3].
  rewrite Hi3. apply next_index_differs; lia. }
destruct (call_loop_first_succeeds E messages (S (S n))
            (_current_model_index s) n 1%nat (Some e) s3 (llm e') Hl3 Hup)
  as (a & s4 & Hrun4 & (HL4 & Hl4 & Hi4) & Hsw4 & _).
exists a, s4. split; [exact Hrun4|].
split; [rewrite Hsw4, Hsw3, Hsw1; reflexivity|].
split; [rewrite Hi4; exact Hi3|].
assert (Hat4 : at_cursor s4 e').
{ unfold at_cursor. rewrite HL4, Hl4, Hi4, HL3, HL1.
  split; [|split; [exact Hn3 | exact Hl3]].
  rewrite Hi3. apply Z.mod_pos_bound. lia. }
destruct (call_each_sticky E later e' Hup s4 Hat4)
  as (Hall & (_ & _ & Hi5) & Hsw5).
split; [exact Hall|]. split; [rewrite Hi5, Hi4; exact Hi3 | exact Hsw5].
Qed.

Lemma one_failing_model_one_rotation_witness :
exists a s',
  call Examples.one_down Examples.question None [] Examples.started
  = (Ok a, s')
  /\ _current_model_index s' = 2
  /\ _current_model_index
       (snd (call_each Examples.one_down
               [Examples.question; Examples.question] s')) = 2.
Proof.
destruct (one_failing_model_one_rotation Examples.one_down
            Examples.question [Examples.question; Examples.question]
            Examples.started
            {| name := "gpt-4o"; llm := ChatOpenAI "gpt-4o" [] |})
  as (a & s' & Hcall & _ & Hidx & _ & Hlater & _).
- cbn. lia.
- unfold at_cursor. cbn. repeat split. lia.
- intros tr messages. exists Examples.bad_request. split; reflexivity.
- intros [|[|[|j]]] e Hj; cbn in Hj |- *; intros Hn; try congruence;
    try (injection Hn as <-; intros tr messages;
         exists Examples.hello; reflexivity);
    try (exfalso; apply Hj; reflexivity).
  destruct j; discriminate.
- exists a, s'. split; [exact Hcall|]. split; [exact Hidx | exact Hlater].
Defined.

(** ** Every model down *)

Lemma skipn_nth_error {A : Type} (l : list A) :
forall c e, nth_error l c = Some e -> skipn c l = e :: skipn (S c) l.
Proof.
induction l as [|x l IH]; intros [|c] e H; cbn in *; try discriminate.
- injection H as ->. reflexivity.
- rewrite (IH c e H). destruct l; reflexivity.
Qed.

Lemma firstn_nth_error {A : Type} (l : list A) :
forall c e, nth_error l c = Some e -> firstn (S c) l = firstn c l ++ [e].
Proof.
induction l as [|x l IH]; intros [|c] e H; cbn in *; try discriminate.
- injection H as ->. reflexivity.
- f_equal. apply (IH c e H).
Qed.

Lemma rotation_head (l : list entry) (c : nat) (e : entry) :
nth_error l c = Some e ->
rotation l c = e :: (skipn (S c) l ++ firstn c l).
Proof.
intros H. unfold rotation. rewrite (skipn_nth_error l c e H). reflexivity.
Qed.

Lemma rotation_next (l : list entry) (c : nat) (e : entry) :
nth_error l c = Some e ->
rotation l (Z.to_nat ((Z.of_nat c + 1) mod Z.of_nat (List.length l)))
= (skipn (S c) l ++ firstn c l) ++ [e].
Proof.
intros H.
assert (Hlt : (c < List.length l)%nat)
  by (apply nth_error_Some; rewrite H; discriminate).
unfold rotation.
destruct (Nat.eq_dec (S c) (List.length l)) as [Heq|Hneq].
- replace (Z.of_nat c + 1) with (Z.of_nat (List.length l)) by lia.
  rewrite Z.mod_same by lia.
  change (Z.to_nat 0) with 0%nat. rewrite skipn_O, firstn_O, app_nil_r.
  rewrite Heq, skipn_all, app_nil_l.
  rewrite <- (firstn_nth_error l c e H), Heq. symmetry. apply firstn_all.
- rewrite Z.mod_small by lia.
  replace (Z.to_nat (Z.of_nat c + 1)) with (S c) by lia.
  rewrite (firstn_nth_error l c e H). apply app_assoc.
Qed.

Lemma rotation_step (l : list entry) (c remaining : nat) (e : entry) :
nth_error l c = Some e ->
(remaining < List.length l)%nat ->
firstn (S remaining) (rotation l c)
= e :: firstn remaining
         (rotation l (Z.to_nat ((Z.of_nat c + 1)
                                mod Z.of_nat (List.length l)))).
Proof.
intros H Hrem.
assert (Hlt : (c < List.length l)%nat)
  by (apply nth_error_Some; rewrite H; discriminate).
rewrite (rotation_head l c e H), (rotation_next l c e H). cbn [firstn].
f_equal. rewrite (firstn_app remaining (skipn (S c) l ++ firstn c l) [e]).
replace (remaining - List.length (skipn (S c) l ++ firstn c l))%nat
  with 0%nat.
- cbn [firstn]. rewrite app_nil_r. reflexivity.
- rewrite length_app, length_skipn, length_firstn. lia.
Qed.

Lemma rotation_permutation (l : list entry) (c : nat) :
Permutation (rotation l c) l.
Proof.
unfold rotation. rewrite Permutation_app_comm, firstn_skipn. reflexivity.
Qed.

Lemma rotation_length (l : list entry) (c : nat) :
List.length (rotation l c) = List.length l.
Proof.
apply Permutation_length, rotation_permutation.
Qed.

(** The loop of [call] when no registered model ever answers: entered at
    cursor [c] with [remaining] models left, it gives up on the next
    [remaining] entries of the registry read cyclically from [c], one after
    the other, invoking each once. *)
Lemma call_loop_all_fail
  (E : env) (messages : list BaseMessage) (total : nat)
  (starting_index : Z) (start : entry) :
forall (remaining models_tried : nat) (last_error : option exc)
       (s : state) (current : entry),
  at_cursor s current ->
  (forall e, In e (LLMS s) -> always_fails E (llm e)) ->
  total = List.length (LLMS s) ->
  (models_tried + remaining = total)%nat ->
  (1 <= remaining)%nat ->
  getitem (LLMS s) starting_index = Some start ->
  exists e s',
    call_loop E messages total starting_index remaining models_tried
              last_error s = (Raise e, s')
    /\ models_failed (trace s')
       = models_failed (trace s)
         ++ map name
              (firstn remaining
                 (rotation (LLMS s) (Z.to_nat (_current_model_index s))))
    /\ invoked (trace s')
       = invoked (trace s)
         ++ map llm
              (firstn remaining
                 (rotation (LLMS s) (Z.to_nat (_current_model_index s)))).
Proof.
induction remaining as [|remaining IH];
  intros tried last s cur Hat Hdown Htotal Hsum Hrem Hstart; [lia|].
pose proof Hat as (H0 & Hnth & Hl).
pose proof (at_cursor_ready s cur Hat) as (Hne & Hidx & _).
assert (Hin : In cur (LLMS s)) by (eapply nth_error_In; exact Hnth).
destruct (retry_unit_fails E messages s (llm cur) Hl
            (Hdown cur Hin))
  as (e & s1 & Hrun & (HL1 & Hl1 & Hi1) & Hinv1 & _ & _ & Hmf1 & _).
cbn [call_loop]. unfold try_except. rewrite Hrun.
unfold bind at 1. cbn [get_state].
assert (Hcur : getitem (LLMS s1) (_current_model_index s1) = Some cur).
{ rewrite HL1, Hi1, getitem_in_range by exact Hidx. exact Hnth. }
unfold bind at 1. unfold list_getitem at 1. rewrite Hcur. cbn [ret].
unfold bind at 1. cbn [log emit].
destruct (total <=? S tried)%nat eqn:Hleb.
- apply Nat.leb_le in Hleb. assert (remaining = 0%nat) as -> by lia.
  unfold bind at 1. unfold list_getitem. cbn [LLMS].
  rewrite HL1, Hstart. cbn.
  eexists. eexists. split; [reflexivity|]. cbn.
  rewrite (rotation_head _ _ _ Hnth). cbn.
  rewrite Hmf1, Hinv1. split; reflexivity.
- apply Nat.leb_gt in Hleb. unfold bind at 1.
  match goal with
  | |- context [_switch_to_next_model E ?s2] =>
      assert (Hne2 : LLMS s2 <> []) by (cbn; rewrite HL1; exact Hne);
      destruct (switch_rotates E s2 Hne2)
        as (e' & s3 & Hsw & HL3 & Hi3 & Hn3 & Hl3 & _ & Hinv3 & Hmf3 & _)
  end.
  rewrite Hsw. cbn [negb].
  cbn in HL3, Hi3, Hn3, Hinv3, Hmf3.
  rewrite HL1, Hi1 in Hi3. rewrite HL1 in Hn3, HL3.
  assert (Hat3 : at_cursor s3 e').
  { unfold at_cursor. rewrite HL3. split; [|split; [exact Hn3|exact Hl3]].
    rewrite Hi3. apply Z.mod_pos_bound. lia. }
  destruct (IH (S tried) (Some e) s3 e' Hat3) as (e2 & s' & Hrun' & Hmf' & Hinv').
  + rewrite HL3. exact Hdown.
  + rewrite HL3. exact Htotal.
  + lia.
  + lia.
  + rewrite HL3. exact Hstart.
  + exists e2, s'. split; [exact Hrun'|].
    rewrite Hmf', Hinv', Hmf3, Hinv3, Hmf1, Hinv1, HL3, Hi3.
    rewrite (rotation_step (LLMS s) (Z.to_nat (_current_model_index s))
               remaining cur Hnth) by lia.
    rewrite Z2Nat.id by lia.
    cbn [map]. rewrite <- !app_assoc. split; reflexivity.
Qed.

(** C5: when no registered model ever answers, [call] raises the
    aggregate error after having given up on the models [rotation LLMS c],
    that is on every registered model exactly once, in registry order
    starting at the cursor [c]; each of the [N] models is invoked once,
    one after the other in that order, and the error counts [N] models. *)
Theorem all_models_down
  (E : env) (messages : list BaseMessage) (s : state) (current : entry) :
at_cursor s current ->
(forall e, In e (LLMS s) -> always_fails E (llm e)) ->
exists last s',
  call E messages None [] s
  = (Raise (all_models_failed_error (List.length (LLMS s)) (Some last)), s')
  /\ models_failed (trace s')
     = models_failed (trace s)
       ++ map name (rotation (LLMS s) (Z.to_nat (_current_model_index s)))
  /\ invoked (trace s')
     = invoked (trace s)
       ++ map llm (rotation (LLMS s) (Z.to_nat (_current_model_index s)))
  /\ Permutation (rotation (LLMS s) (Z.to_nat (_current_model_index s)))
                 (LLMS s)
  /\ List.length
       (rotation (LLMS s) (Z.to_nat (_current_model_index s)))
     = List.length (LLMS s).
Proof.
intros Hat Hdown.
pose proof (at_cursor_ready s current Hat) as Hready.
pose proof Hready as (Hne & Hidx & _).
destruct (getitem_defined (LLMS s) (_current_model_index s) Hidx)
  as (start & Hstart & _).
assert (Hlen : (1 <= List.length (LLMS s))%nat).
{ destruct (LLMS s); [congruence | cbn; lia]. }
destruct (call_loop_all_fail E messages (List.length (LLMS s))
            (_current_model_index s) start (List.length (LLMS s)) 0%nat
            None s current Hat Hdown eq_refl eq_refl Hlen Hstart)
  as (e & s' & Hrun & Hmf & Hinv).
rewrite firstn_all2 in Hmf, Hinv by (rewrite rotation_length; lia).
assert (Hcall : call E messages None [] s = (Raise e, s')).
{ rewrite (call_unfold E messages None [] s s eq_refl). exact Hrun. }
destruct (call_outcome E messages None [] s s Hready eq_refl)
  as (start' & r & s1 & _ & Hrun1 & _ & _ & Hres).
rewrite Hcall in Hrun1. injection Hrun1 as <- <-.
destruct Hres as (last & He & _).
exists (reported E last), s'. split; [rewrite Hcall, He; reflexivity|].
split; [exact Hmf|]. split; [exact Hinv|].
split; [apply rotation_permutation | apply rotation_length].
Qed.

Lemma all_models_down_witness :
exists s',
  call Examples.all_down Examples.question None [] Examples.started
  = (Raise Examples.gave_up, s')
  /\ models_failed (trace s') = ["gpt-4o"; "gpt-5"; "gpt-4o-mini"]%string.
Proof.
destruct (all_models_down Examples.all_down Examples.question
            Examples.started
            {| name := "gpt-4o"; llm := ChatOpenAI "gpt-4o" [] |})
  as (last & s' & Hcall & Hmf & _).
- unfold at_cursor. cbn. repeat split. lia.
- intros e _ tr messages. exists Examples.bad_request. reflexivity.
- exists s'. split; [|exact Hmf].
  assert (Hfst : fst (call Examples.all_down Examples.question None []
                           Examples.started) = Raise Examples.gave_up)
    by (vm_compute; reflexivity).
  rewrite Hcall in Hfst. cbn [fst] in Hfst.
  rewrite Hcall, Hfst. reflexivity.
Defined.

(** ** Binding tools *)

(** The loop of [call] when the first invocation of the current model
    answers. *)
Lemma call_loop_first_answer
  (E : env) (messages : list BaseMessage) (total : nat)
  (starting_index : Z) (remaining models_tried : nat)
  (last_error : option exc) (s : state) (h : handle) (a : BaseMessage) :
_llm s = Some h ->
backend E (trace s) h messages = Ok a ->
exists s',
  call_loop E messages total starting_index (S remaining) models_tried
            last_error s = (Ok a, s')
  /\ same_service s s'
  /\ invoked (trace s') = invoked (trace s) ++ [h].
Proof.
intros Hh Ha.
destruct (call_llm_with_retry_once E messages s h Hh)
  as (s' & Hrun & Hsame & Hinv & _).
rewrite Ha in Hrun. cbn [reported_outcome] in Hrun.
exists s'. cbn [call_loop]. unfold try_except. rewrite Hrun.
split; [reflexivity|]. split; [exact Hsame | exact Hinv].
Qed.

End LlmFacts.

(* ================================================================== *)
(** * Facts about the streaming generators *)
(* ================================================================== *)

Module ChatbotFacts.

Import Llm Chatbot.

(** What closes a plain stream and a structured stream. *)
Lemma event_generator_loop_spec (chunks : feed string) :
forall full_response,
  event_generator_loop chunks full_response
  = (map (fun chunk => {| content := chunk; done := false |})
         (increments chunks),
     ending chunks).
Proof.
induction chunks as [| e | chunk rest IH]; intros full; cbn;
  try reflexivity.
rewrite IH. reflexivity.
Qed.

Lemma copilot_event_generator_loop_spec (events : feed CopilotEvent) :
forall event_count,
  copilot_event_generator_loop events event_count
  = (forwarded events, copilot_ending events).
Proof.
induction events as [| e | event rest IH]; intros n; cbn; try reflexivity.
destruct (json_dumps_error event); [reflexivity|].
rewrite IH. reflexivity.
Qed.

Lemma copilot_event_generator_eq
  (session_id : string) (h : handle) (events : feed CopilotEvent) :
copilot_event_generator session_id (Some h) events
= forwarded events ++ [closing_event session_id (copilot_ending events)].
Proof.
unfold copilot_event_generator. cbn [stream_label].
rewrite copilot_event_generator_loop_spec.
destruct (copilot_ending events); reflexivity.
Qed.

Lemma filter_tokens (l : list string) :
filter is_terminal
  (map (fun chunk => {| content := chunk; done := false |}) l) = [].
Proof. induction l as [|c l IH]; cbn; [reflexivity | exact IH]. Qed.

Lemma filter_none {A : Type} (f : A -> bool) (l : list A) :
forallb (fun a => negb (f a)) l = true -> filter f l = [].
Proof.
induction l as [|a l IH]; cbn; [reflexivity|].
intros H. apply andb_true_iff in H. destruct H as [Ha Hl].
destruct (f a); [discriminate | apply IH; exact Hl].
Qed.

(** The forwarded events are the first increments of the feed. *)
Lemma forwarded_prefix (events : feed CopilotEvent) :
exists dropped, increments events = forwarded events ++ dropped.
Proof.
induction events as [| e | event rest [dropped IH]]; cbn.
- exists []. reflexivity.
- exists []. reflexivity.
- destruct (json_dumps_error event).
  + eexists. reflexivity.
  + exists dropped. rewrite IH. reflexivity.
Qed.

(** When every increment can be written, all are forwarded and the
    stream ends as the feed does. *)
Lemma forwarded_writable (events : feed CopilotEvent) :
writable (increments events) = true ->
forwarded events = increments events
/\ copilot_ending events = ending events.
Proof.
unfold writable.
induction events as [| e | event rest IH]; cbn; try (split; reflexivity).
destruct (json_dumps_error event); [discriminate|].
intros H. destruct (IH H) as [-> ->]. split; reflexivity.
Qed.

(** C8, as the code has it, with a current model in place.  The plain
    stream emits one event per chunk of the feed, in arrival order, and
    then exactly one closing event, the only one with [done = true]: empty
    on completion, carrying [str(e)] when the feed raised [e].  The
    structured stream passes the events of the feed on unchanged, in
    arrival order, up to the first one that cannot be written as JSON, and
    then emits exactly one closing event of its own, after which nothing
    is emitted: [final] when the feed is exhausted, [error] with [str(e)]
    when the feed raised [e] or writing an event raised [e].  When every
    event of the feed can be written, there is one event per increment.
    The closing event is the only one of type [final] or [error] provided
    the feed itself yields none. *)
Theorem streams_close_exactly_once
  (h : handle) (session_id : string)
  (chunks : feed string) (events : feed CopilotEvent) :
event_generator (Some h) chunks
= map (fun chunk => {| content := chunk; done := false |})
      (increments chunks) ++ [closing_response (ending chunks)]
/\ filter is_terminal (event_generator (Some h) chunks)
   = [closing_response (ending chunks)]
/\ copilot_event_generator session_id (Some h) events
   = forwarded events ++ [closing_event session_id (copilot_ending events)]
/\ (exists dropped, increments events = forwarded events ++ dropped)
/\ (writable (increments events) = true ->
    copilot_event_generator session_id (Some h) events
    = increments events ++ [closing_event session_id (ending events)])
/\ (forallb (fun ev => negb (copilot_is_terminal ev)) (forwarded events)
    = true ->
    filter copilot_is_terminal
      (copilot_event_generator session_id (Some h) events)
    = [closing_event session_id (copilot_ending events)]).
Proof.
assert (Hplain :
  event_generator (Some h) chunks
  = map (fun chunk => {| content := chunk; done := false |})
        (increments chunks)
    ++ [closing_response (ending chunks)]).
{ unfold event_generator. cbn [stream_label].
  rewrite event_generator_loop_spec.
  destruct (ending chunks); reflexivity. }
pose proof (copilot_event_generator_eq session_id h events) as Hcopilot.
split; [exact Hplain|]. split.
{ rewrite Hplain, filter_app, filter_tokens. reflexivity. }
split; [exact Hcopilot|]. split; [apply forwarded_prefix|]. split.
- intros Hw. destruct (forwarded_writable events Hw) as [Hf He].
  rewrite Hcopilot, Hf, He. reflexivity.
- intros Hclean. rewrite Hcopilot, filter_app, (filter_none _ _ Hclean).
  destruct (copilot_ending events); reflexivity.
Qed.

Lemma streams_close_exactly_once_witness :
event_generator (Some (ChatOpenAI "gpt-4o" []))
  (Yields "Hel" (Yields "lo" (Raises (mk_exc RuntimeError "boom"))))
= [ {| content := "Hel"; done := false |};
    {| content := "lo"; done := false |};
    {| content := "boom"; done := true |} ]
/\ filter copilot_is_terminal
     (copilot_event_generator "s1" (Some (ChatOpenAI "gpt-4o" []))
        (Yields {| event_type := assistant_token;
                   event_content := Some "Hi"; metadata := None |}
                Exhausted))
   = [ {| event_type := final; event_content := Some "";
          metadata := Some [("session_id", Str "s1")] |} ].
Proof.
split.
- exact (proj1 (streams_close_exactly_once
                  (ChatOpenAI "gpt-4o" []) "s1"
                  (Yields "Hel" (Yields "lo"
                     (Raises (mk_exc RuntimeError "boom"))))
                  Exhausted)).
- apply (streams_close_exactly_once
           (ChatOpenAI "gpt-4o" []) "s1" Exhausted
           (Yields {| event_type := assistant_token;
                      event_content := Some "Hi"; metadata := None |}
                   Exhausted)).
  reflexivity.
Defined.

(** C8, as the claim states it, fails for the structured stream.  A feed
    that itself yields a [final] event gives a stream with two events of
    terminal type and an event after the first of them.  And a feed whose
    first event carries an object that [json.dumps] refuses gives a stream
    without any event for its two increments: the error event is all the
    client gets. *)
Lemma structured_stream_may_not_close_once :
copilot_event_generator "s1" (Some (ChatOpenAI "gpt-4o" []))
  (Yields {| event_type := final; event_content := Some "";
             metadata := None |}
     (Yields {| event_type := assistant_token; event_content := Some "Hi";
                metadata := None |}
        Exhausted))
= [ {| event_type := final; event_content := Some ""; metadata := None |};
    {| event_type := assistant_token; event_content := Some "Hi";
       metadata := None |};
    {| event_type := final; event_content := Some "";
       metadata := Some [("session_id", Str "s1")] |} ]
/\ copilot_event_generator "s1" (Some (ChatOpenAI "gpt-4o" []))
     (Yields {| event_type := tool_call_end; event_content := Some "";
                metadata :=
                  Some [("tool_output",
                         Object (Some (mk_exc TypeError
                           "Object of type datetime is not JSON serializable")))] |}
        (Yields {| event_type := assistant_token;
                   event_content := Some "Hi"; metadata := None |}
           Exhausted))
   = [ {| event_type := error;
          event_content :=
            Some "Object of type datetime is not JSON serializable";
          metadata := Some [("session_id", Str "s1")] |} ].
Proof. split; reflexivity. Qed.

End ChatbotFacts.

(* ================================================================== *)
(** * Facts about Message validation *)
(* ================================================================== *)

Module ChatFacts.

Import Chat.

(** ** Lists *)

Lemma app_eq_cons {A : Type} (a b : list A) (c : A) (s : list A) :
a ++ b = c :: s ->
(a = [] /\ b = c :: s) \/ (exists a', a = c :: a' /\ s = a' ++ b).
Proof.
destruct a as [|x a]; cbn; [auto|].
intros [= -> <-]. right. eauto.
Qed.

(** ** The matcher against the relation *)

Section Matcher.

Variable fl : flags.

Lemma nullable_lang (r : regex) : nullable r = true <-> lang fl r [].
Proof.
split.
- induction r; cbn; intros H; try discriminate.
  + constructor.
  + apply andb_true_iff in H. destruct H as [H1 H2].
    change (@nil code_point) with (@nil code_point ++ []).
    constructor; auto.
  + apply orb_true_iff in H. destruct H as [H|H];
      [apply lang_alt_l | apply lang_alt_r]; auto.
  + constructor.
- intros H. remember (@nil code_point) as w eqn:Hw.
  induction H; cbn; try discriminate; try reflexivity.
  + apply app_eq_nil in Hw. destruct Hw as [-> ->].
    rewrite IHlang1, IHlang2 by reflexivity. reflexivity.
  + rewrite IHlang by exact Hw. reflexivity.
  + rewrite IHlang by exact Hw. apply orb_true_r.
Qed.

Lemma deriv_sound (c : code_point) (r : regex) :
forall s, lang fl (deriv fl c r) s -> lang fl r (c :: s).
Proof.
induction r; cbn; intros s H.
- inversion H.
- inversion H.
- destruct (chr_matches fl c0 c) eqn:Hm; inversion H; subst.
  constructor. exact Hm.
- destruct (dot_matches fl c) eqn:Hm; inversion H; subst.
  constructor. exact Hm.
- destruct (nullable r1) eqn:Hn.
  + inversion H; subst.
    * match goal with
      | Hc : lang fl (Cat _ _) _ |- _ => inversion Hc; subst
      end.
      change (c :: s1 ++ s2) with ((c :: s1) ++ s2).
      constructor; auto.
    * change (c :: s) with ([] ++ c :: s).
      constructor; [apply nullable_lang; exact Hn | auto].
  + inversion H; subst.
    change (c :: s1 ++ s2) with ((c :: s1) ++ s2).
    constructor; auto.
- inversion H; subst; [apply lang_alt_l | apply lang_alt_r]; auto.
- inversion H; subst.
  change (c :: s1 ++ s2) with ((c :: s1) ++ s2).
  constructor; auto.
Qed.

Lemma deriv_complete (c : code_point) (r : regex) (w : text) :
lang fl r w -> forall s, w = c :: s -> lang fl (deriv fl c r) s.
Proof.
induction 1 as [ | p x Hm | x Hm | r1 r2 s1 s2 H1 IH1 H2 IH2
               | r1 r2 s0 H1 IH1 | r1 r2 s0 H2 IH2
               | g r0 | g r0 s1 s2 H1 IH1 H2 IH2 ];
  intros s Hw; cbn.
- discriminate.
- injection Hw as -> <-. rewrite Hm. constructor.
- injection Hw as -> <-. rewrite Hm. constructor.
- apply app_eq_cons in Hw.
  destruct Hw as [[-> Hs2] | (a' & -> & ->)].
  + apply nullable_lang in H1. rewrite H1.
    apply lang_alt_r. apply IH2. exact Hs2.
  + assert (Hcat : lang fl (Cat (deriv fl c r1) r2) (a' ++ s2))
      by (constructor; [apply IH1; reflexivity | exact H2]).
    destruct (nullable r1); [apply lang_alt_l|]; exact Hcat.
- apply lang_alt_l. apply IH1. exact Hw.
- apply lang_alt_r. apply IH2. exact Hw.
- discriminate.
- apply app_eq_cons in Hw.
  destruct Hw as [[-> Hs2] | (a' & -> & ->)].
  + apply (IH2 s Hs2).
  + constructor; [apply IH1; reflexivity | exact H2].
Qed.

Lemma re_match_spec (s : text) :
forall r,
  re_match fl r s = true
  <-> exists matched rest, s = matched ++ rest /\ lang fl r matched.
Proof.
induction s as [|c s IH]; intros r; cbn.
- rewrite orb_false_r. split.
  + intros H. exists [], []. split; [reflexivity | apply nullable_lang; exact H].
  + intros (m & rest & Hs & Hm). symmetry in Hs.
    apply app_eq_nil in Hs. destruct Hs as [-> _].
    apply nullable_lang. exact Hm.
- split.
  + intros H. apply orb_true_iff in H. destruct H as [H|H].
    * exists [], (c :: s). split; [reflexivity | apply nullable_lang; exact H].
    * apply IH in H. destruct H as (m & rest & -> & Hm).
      exists (c :: m), rest. split; [reflexivity|].
      apply deriv_sound. exact Hm.
  + intros (m & rest & Hs & Hm). apply orb_true_iff.
    destruct m as [|x m].
    * left. apply nullable_lang. exact Hm.
    * right. cbn in Hs. injection Hs as <- ->. apply IH.
      exists m, rest. split; [reflexivity|].
      apply (deriv_complete c r (c :: m) Hm m eq_refl).
Qed.

Lemma re_search_spec (r : regex) (s : text) :
re_search fl r s = true
<-> exists before matched rest,
      s = before ++ matched ++ rest /\ lang fl r matched.
Proof.
induction s as [|c s IH]; cbn.
- rewrite !orb_false_r. split.
  + intros H. exists [], [], [].
    split; [reflexivity | apply nullable_lang; exact H].
  + intros (b & m & rest & Hs & Hm). symmetry in Hs.
    apply app_eq_nil in Hs. destruct Hs as [-> Hs].
    apply app_eq_nil in Hs. destruct Hs as [-> _].
    apply nullable_lang. exact Hm.
- split.
  + intros H. apply orb_true_iff in H. destruct H as [H|H].
    * apply (re_match_spec (c :: s) r) in H.
      destruct H as (m & rest & Hs & Hm).
      exists [], m, rest. split; [exact Hs | exact Hm].
    * apply IH in H. destruct H as (b & m & rest & -> & Hm).
      exists (c :: b), m, rest. split; [reflexivity | exact Hm].
  + intros (b & m & rest & Hs & Hm). apply orb_true_iff.
    destruct b as [|x b].
    * left. apply (re_match_spec (c :: s) r).
      exists m, rest. split; [exact Hs | exact Hm].
    * right. cbn in Hs. injection Hs as <- ->. apply IH.
      exists b, m, rest. split; [reflexivity | exact Hm].
Qed.

End Matcher.

(** ** The script pattern *)

Lemma cat_inv (fl : flags) (r1 r2 : regex) (s : text) :
lang fl (Cat r1 r2) s ->
exists s1 s2, s = s1 ++ s2 /\ lang fl r1 s1 /\ lang fl r2 s2.
Proof. intros H. inversion H; subst. eauto. Qed.

Lemma chr_inv (p : code_point) (s : text) :
lang validator_flags (Chr p) s ->
exists c, s = [c] /\ chr_matches validator_flags p c = true.
Proof.
intros H. inversion H as [ | p' c Hm | | | | | | ]; subst.
exists c. split; [reflexivity | exact Hm].
Qed.

Lemma word_lang (w : text) :
forall s, lang validator_flags (word w) s <-> spells w s.
Proof.
unfold spells. induction w as [|a w IH]; intros s; cbn [word].
- split.
  + intros H. inversion H. constructor.
  + intros H. inversion H. constructor.
- split.
  + intros H. apply cat_inv in H. destruct H as (s1 & s2 & -> & H1 & H2).
    apply chr_inv in H1. destruct H1 as (c & -> & Hc).
    cbn. constructor; [exact Hc | apply IH; exact H2].
  + intros H. inversion H as [|p c w' s' Hc Hs]; subst.
    change (c :: s') with ([c] ++ s').
    constructor; [constructor; exact Hc | apply IH; exact Hs].
Qed.

Lemma dot_star_all (g : bool) (s : text) :
lang validator_flags (Star g Dot) s.
Proof.
induction s as [|c s IH]; [constructor|].
change (c :: s) with ([c] ++ s).
constructor; [constructor; reflexivity | exact IH].
Qed.

(** A literal that is not a letter matches itself only. *)
Lemma chr_matches_other (p c : code_point) :
is_ascii_letter p = false ->
chr_matches validator_flags p c = true -> c = p.
Proof.
intros Hp. unfold chr_matches. rewrite Hp. cbn.
intros H. apply N.eqb_eq in H. congruence.
Qed.

Lemma script_pattern_lang (m : text) :
lang validator_flags script_pattern m
<-> exists opening attrs body closing,
      m = opening ++ attrs ++ [ord ">"] ++ body ++ closing
      /\ spells (of_string "<script") opening
      /\ spells (of_string "</script>") closing.
Proof.
unfold script_pattern. split.
- intros H.
  apply cat_inv in H. destruct H as (opening & m1 & -> & Hopen & H).
  apply cat_inv in H. destruct H as (attrs & m2 & -> & _ & H).
  apply cat_inv in H. destruct H as (gt & m3 & -> & Hgt & H).
  apply cat_inv in H. destruct H as (body & closing & -> & _ & Hclose).
  apply chr_inv in Hgt. destruct Hgt as (c & -> & Hc).
  apply chr_matches_other in Hc; [|reflexivity]. subst c.
  exists opening, attrs, body, closing. split; [reflexivity|].
  split; [apply word_lang; exact Hopen | apply word_lang; exact Hclose].
- intros (opening & attrs & body & closing & -> & Hopen & Hclose).
  constructor; [apply word_lang; exact Hopen|].
  constructor; [apply dot_star_all|].
  constructor; [constructor; reflexivity|].
  constructor; [apply dot_star_all|].
  apply word_lang. exact Hclose.
Qed.

(** The matcher finds the pattern exactly in the texts that contain a
    script tag. *)
Lemma re_search_script (v : text) :
re_search validator_flags script_pattern v = true <-> contains_script_tag v.
Proof.
rewrite re_search_spec. unfold contains_script_tag. split.
- intros (before & m & rest & -> & Hm).
  apply script_pattern_lang in Hm.
  destruct Hm as (opening & attrs & body & closing & -> & Ho & Hc).
  exists before, opening, attrs, body, closing, rest.
  split; [|split; assumption].
  rewrite <- !app_assoc. reflexivity.
- intros (before & opening & attrs & body & closing & rest & -> & Ho & Hc).
  exists before, (opening ++ attrs ++ [ord ">"] ++ body ++ closing), rest.
  split; [rewrite <- !app_assoc; reflexivity|].
  apply script_pattern_lang.
  exists opening, attrs, body, closing. auto.
Qed.

Lemma code_in_spec (x : code_point) (s : text) :
code_in x s = true <-> exists before rest, s = before ++ x :: rest.
Proof.
induction s as [|c s IH]; cbn.
- split; [discriminate|].
  intros (b & r & H). destruct b; discriminate.
- split.
  + intros H. apply orb_true_iff in H. destruct H as [H|H].
    * apply N.eqb_eq in H. subst c. exists [], s. reflexivity.
    * apply IH in H. destruct H as (b & r & ->).
      exists (c :: b), r. reflexivity.
  + intros (b & r & H). apply orb_true_iff. destruct b as [|y b]; cbn in H.
    * injection H as -> _. left. apply N.eqb_refl.
    * injection H as _ ->. right. apply IH. eauto.
Qed.

Lemma validate_content_cases (v : text) :
(contains_script_tag v \/ contains_null_byte v ->
 exists e, validate_content v = Py.Raise e)
/\ (~ (contains_script_tag v \/ contains_null_byte v) ->
    validate_content v = Py.Ok v)
/\ (forall e, validate_content v = Py.Raise e ->
    contains_script_tag v \/ contains_null_byte v).
Proof.
unfold validate_content, contains_null_byte.
destruct (re_search validator_flags script_pattern v) eqn:Hs.
- apply re_search_script in Hs. split; [eauto|]. split; [tauto | auto].
- destruct (code_in 0%N v) eqn:Hz.
  + apply code_in_spec in Hz. split; [eauto|]. split; [tauto | auto].
  + split; [|split; [reflexivity | discriminate]].
    intros [H|H].
    * apply re_search_script in H. congruence.
    * apply code_in_spec in H. congruence.
Qed.

(** ** Letter case, as the matcher reads it and in the plain sense *)

Lemma ascii_tolower_cases (c : code_point) :
((65 <= c <= 90)%N /\ ascii_tolower c = (c + 32)%N)
\/ (~ (65 <= c <= 90)%N /\ ascii_tolower c = c).
Proof.
unfold ascii_tolower, is_ascii_upper.
destruct (N.leb_spec 65 c); destruct (N.leb_spec c 90); cbn [andb];
  [left | right | right | right]; split; try reflexivity; lia.
Qed.

Lemma is_ascii_letter_cases (p : code_point) :
(is_ascii_letter p = true
 /\ ((65 <= p <= 90)%N \/ (97 <= p <= 122)%N))
\/ (is_ascii_letter p = false
    /\ ~ (65 <= p <= 90)%N /\ ~ (97 <= p <= 122)%N).
Proof.
unfold is_ascii_letter, is_ascii_upper, is_ascii_lower.
destruct (N.leb_spec 65 p); destruct (N.leb_spec p 90);
  destruct (N.leb_spec 97 p); destruct (N.leb_spec p 122);
  cbn [andb orb]; try (left; split; [reflexivity | lia]);
  right; split; try reflexivity; lia.
Qed.

(** What matches a letter of the pattern. *)
Lemma chr_matches_letter (p c : code_point) :
is_ascii_letter p = true ->
(chr_matches validator_flags p c = true
 <-> c = ascii_tolower p
     \/ c = (ascii_tolower p - 32)%N
     \/ In c (beyond_ascii (ascii_tolower p))).
Proof.
intros Hp. unfold chr_matches, case_variants. rewrite Hp.
cbn [IGNORECASE validator_flags andb existsb].
rewrite !orb_true_iff, !N.eqb_eq, existsb_exists.
split.
- intros [H|[H|(x & Hin & Hx)]]; auto.
  apply N.eqb_eq in Hx. subst x. auto.
- intros [H|[H|H]]; auto.
  right. right. exists c. split; [exact H | apply N.eqb_refl].
Qed.

Lemma beyond_ascii_large (lo c : code_point) :
In c (beyond_ascii lo) -> (128 <= c)%N.
Proof.
unfold beyond_ascii.
destruct (lo =? 115)%N; [|destruct (lo =? 105)%N; [|destruct (lo =? 107)%N]];
  cbn; intros H; repeat (destruct H as [<-|H]; [lia|]); destruct H.
Qed.











(** The validator at work. *)
Example script_is_refused :
new_Message user
  (of_string "hi <SCRIPT src=x>" ++ [newline]
   ++ of_string "alert(1)</ScRiPt> bye")
= inl (value_error "Content contains potentially harmful script tags").
Proof. vm_compute. reflexivity. Qed.

Example long_s_is_refused :
new_Message user
  (of_string "<" ++ [383%N] ++ of_string "cript></"
   ++ [383%N] ++ of_string "cript>")
= inl (value_error "Content contains potentially harmful script tags").
Proof. vm_compute. reflexivity. Qed.

Example null_byte_is_refused :
new_Message user (0%N :: of_string "abc")
= inl (value_error "Content contains null bytes").
Proof. vm_compute. reflexivity. Qed.

Example empty_is_refused : new_Message system [] = inl string_too_short.
Proof. reflexivity. Qed.

Example unclosed_tag_is_accepted :
new_Message assistant (of_string "<script>alert(1)")
= inr {| role := assistant; content := of_string "<script>alert(1)" |}.
Proof. vm_compute. reflexivity. Qed.

End ChatFacts.

(* ================================================================== *)
(** * More facts about the registry *)
(* ================================================================== *)

Module RegistryFacts.

Import Llm LlmFacts.
Local Open Scope Z_scope.

(** The loop of [_get_llms] keeps the models that can be built, in the
    order of the configuration. *)
Lemma get_llms_loop_filter (E : env) (available_models : list string) :
forall (models : list entry) (s : state),
  exists s',
    _get_llms_loop E available_models models s
    = (Ok (models ++ map (default_entry E)
                         (filter (constructible E) available_models)), s')
    /\ same_service s s'.
Proof.
induction available_models as [|model_id rest IH]; intros models s.
- exists s. cbn. rewrite app_nil_r. split; [reflexivity | apply same_service_refl].
- cbn [_get_llms_loop filter]. unfold bind at 1. unfold try_except.
  unfold constructible, default_entry, default_handle,
    _create_bedrock_model, _create_openai_model, construct.
  destruct (provider_is_bedrock E) eqn:Hp.
  + destruct (ctor_error E (ChatBedrock model_id [])) as [e|] eqn:Hc; cbn.
    * match goal with
      | |- context [_get_llms_loop E rest models ?s1] =>
          destruct (IH models s1) as (s' & Hrun & Hsame)
      end.
      exists s'. split; [|exact Hsame].
      rewrite Hrun. unfold constructible, default_entry, default_handle.
      rewrite Hp. reflexivity.
    * match goal with
      | |- context [_get_llms_loop E rest ?ms ?s1] =>
          destruct (IH ms s1) as (s' & Hrun & Hsame)
      end.
      exists s'. split; [|exact Hsame].
      rewrite Hrun, <- app_assoc.
      unfold constructible, default_entry, default_handle.
      rewrite Hp. reflexivity.
  + destruct (ctor_error E (ChatOpenAI model_id [])) as [e|] eqn:Hc; cbn.
    * match goal with
      | |- context [_get_llms_loop E rest models ?s1] =>
          destruct (IH models s1) as (s' & Hrun & Hsame)
      end.
      exists s'. split; [|exact Hsame].
      rewrite Hrun. unfold constructible, default_entry, default_handle.
      rewrite Hp. reflexivity.
    * match goal with
      | |- context [_get_llms_loop E rest ?ms ?s1] =>
          destruct (IH ms s1) as (s' & Hrun & Hsame)
      end.
      exists s'. split; [|exact Hsame].
      rewrite Hrun, <- app_assoc.
      unfold constructible, default_entry, default_handle.
      rewrite Hp. reflexivity.
Qed.

Lemma get_llms_outcome (E : env) (s : state) :
exists s',
  same_service s s'
  /\ _get_llms E s
     = (match expected_registry E with
        | [] => Raise (no_models_error E)
        | models => Ok models
        end, s').
Proof.
unfold _get_llms. unfold bind at 1.
assert (Havail : exists s1,
  (match AVAILABLE_LLM_MODELS (settings E) with
   | [] =>
       (log "warning" "No available models configured, using defaults" [] ;;
        (if provider_is_bedrock E
         then ret ["anthropic.claude-3-sonnet-20240229-v1:0"%string]
         else ret ["gpt-4o-mini"%string]))%llm
   | l => ret l
   end) s = (Ok (configured_models E), s1) /\ same_service s s1).
{ unfold configured_models. destruct (AVAILABLE_LLM_MODELS (settings E)).
  - destruct (provider_is_bedrock E); cbn; eexists;
      (split; [reflexivity|]); repeat split.
  - cbn. eexists. split; [reflexivity|]. repeat split. }
destruct Havail as (s1 & -> & Hsame1). unfold bind at 1.
destruct (get_llms_loop_filter E (configured_models E) [] s1)
  as (s2 & -> & Hsame2).
cbn [app]. fold (expected_registry E).
exists s2. split; [apply (same_service_trans s s1 s2); assumption|].
unfold no_models_error. destruct (expected_registry E); reflexivity.
Qed.

(** What [initialize] does, by whether any configured model can be built. *)
Lemma initialize_outcome (E : env) (s : state) :
(expected_registry E <> [] ->
 exists s',
   initialize E s = (Ok tt, s')
   /\ LLMS s' = expected_registry E
   /\ map name (LLMS s') = filter (constructible E) (configured_models E)
   /\ _llm s' = _llm s
   /\ _current_model_index s' = _current_model_index s)
/\ (expected_registry E = [] ->
    exists s',
      initialize E s = (Raise (no_models_error E), s')
      /\ same_service s s').
Proof.
destruct (get_llms_outcome E s) as (s1 & (HL & Hl & Hi) & Hrun).
assert (Hnames : map name (expected_registry E)
                 = filter (constructible E) (configured_models E)).
{ unfold expected_registry. rewrite map_map. cbn. apply map_id. }
unfold initialize, bind. rewrite Hrun. split.
- intros Hne. rewrite <- Hnames.
  destruct (expected_registry E) as [|m ms]; [congruence|].
  eexists. split; [reflexivity|].
  split; [reflexivity|]. split; [reflexivity|]. split; assumption.
- intros ->. exists s1. split; [reflexivity|]. repeat split; assumption.
Qed.

(** X1: [initialize] registers exactly the configured models that can
    be built, in configuration order, each under its identifier; the
    service fields are not touched.  When none can be built it raises the
    [RuntimeError] of [_get_llms] and leaves the registry as it was. *)
Theorem initialize_registers_buildable_models (E : env) (s : state) :
(expected_registry E <> [] ->
 exists s',
   initialize E s = (Ok tt, s')
   /\ LLMS s' = expected_registry E
   /\ map name (LLMS s') = filter (constructible E) (configured_models E)
   /\ _llm s' = _llm s
   /\ _current_model_index s' = _current_model_index s)
/\ (expected_registry E = [] ->
    exists s',
      initialize E s = (Raise (no_models_error E), s')
      /\ same_service s s').
Proof. exact (initialize_outcome E s). Qed.

Lemma initialize_registers_buildable_models_witness :
exists s',
  initialize Examples.partly_built Examples.fresh = (Ok tt, s')
  /\ map name (LLMS s') = ["gpt-4o-mini"; "gpt-5"]%string.
Proof.
destruct (proj1 (initialize_registers_buildable_models
                   Examples.partly_built Examples.fresh))
  as (s' & Hrun & _ & Hnames & _).
- vm_compute. discriminate.
- exists s'. split; [exact Hrun | exact Hnames].
Defined.

(** ** Looking a model up *)

(** [list.index] and the search loop of [get] agree on the first entry
    with the name. *)
Lemma index_find (n : string) (l : list entry) :
forall i, index n (map name l) = Some i ->
  exists e,
    find (fun e => String.eqb (name e) n) l = Some e
    /\ nth_error l (Z.to_nat i) = Some e
    /\ name e = n.
Proof.
induction l as [|x l IH]; intros i; cbn; [discriminate|].
destruct (String.eqb (name x) n) eqn:Hx.
- intros [= <-]. exists x. apply String.eqb_eq in Hx. auto.
- destruct (index n (map name l)) as [j|] eqn:Hj; [|discriminate].
  intros [= <-]. destruct (IH j eq_refl) as (e & Hf & Hn & He).
  pose proof (index_in_range n (map name l) j Hj) as Hr.
  exists e. split; [exact Hf|]. split; [|exact He].
  replace (Z.to_nat (j + 1)) with (S (Z.to_nat j)) by lia. exact Hn.
Qed.

Lemma index_of_member (n : string) (l : list string) :
In n l -> exists i, index n l = Some i.
Proof.
induction l as [|y l IH]; cbn; [intros []|].
intros [->|Hin].
- rewrite String.eqb_refl. eauto.
- destruct (String.eqb y n); [eauto|].
  destruct (IH Hin) as [i ->]. eauto.
Qed.

Lemma nth_error_nodup {A : Type} (l : list A) (i j : nat) (a : A) :
NoDup l -> nth_error l i = Some a -> nth_error l j = Some a -> i = j.
Proof.
intros Hnd Hi Hj.
assert (Hlt : (i < List.length l)%nat)
  by (apply nth_error_Some; rewrite Hi; discriminate).
apply (proj1 (NoDup_nth_error l) Hnd i j Hlt). congruence.
Qed.

(** [get] without keyword arguments, on a registered name. *)
Lemma get_first_match (E : env) (s : state) (n : string) (i : Z) :
LLMS s <> [] ->
index n (map name (LLMS s)) = Some i ->
exists e,
  nth_error (LLMS s) (Z.to_nat i) = Some e
  /\ name e = n
  /\ get E n [] s
     = (Ok (llm e),
        logged (Log "debug" "using_default_llm_instance"
                    [("model_name", n)]) s).
Proof.
intros Hne Hi. destruct (index_find n (LLMS s) i Hi) as (e & Hf & Hn & He).
exists e. split; [exact Hn|]. split; [exact He|].
unfold get, bind. rewrite (ensure_initialized_noop E s Hne).
cbn [get_state]. rewrite Hf. reflexivity.
Qed.

Lemma index_first (n : string) (l : list string) :
forall i, index n l = Some i ->
  forall j y, (j < Z.to_nat i)%nat -> nth_error l j = Some y -> y <> n.
Proof.
induction l as [|x l IH]; intros i; cbn; [discriminate|].
destruct (String.eqb x n) eqn:Hx.
- intros [= <-] j y Hj. cbn in Hj. lia.
- destruct (index n l) as [i'|] eqn:Hi'; [|discriminate].
  intros [= <-] j y Hj Hnth.
  pose proof (index_in_range n l i' Hi') as Hr.
  destruct j as [|j]; cbn in Hnth.
  + injection Hnth as <-. apply String.eqb_neq. exact Hx.
  + apply (IH i' eq_refl j y); [lia | exact Hnth].
Qed.

(** X2: looking up the name of a registered entry, without keyword
    arguments, returns the object of the first entry with that name (no
    entry before it has the name) and changes nothing but the log; when
    the registered names are distinct it is the object of that very
    entry. *)
Theorem get_by_registered_name
  (E : env) (s : state) (k : nat) (e : entry) :
nth_error (LLMS s) k = Some e ->
exists e0 k0,
  get E (name e) [] s
  = (Ok (llm e0),
     logged (Log "debug" "using_default_llm_instance"
                 [("model_name", name e)]) s)
  /\ nth_error (LLMS s) k0 = Some e0
  /\ name e0 = name e
  /\ (k0 <= k)%nat
  /\ (forall j e', (j < k0)%nat -> nth_error (LLMS s) j = Some e' ->
       name e' <> name e)
  /\ (NoDup (map name (LLMS s)) -> e0 = e).
Proof.
intros Hk.
assert (Hne : LLMS s <> []) by (intros H; rewrite H in Hk; destruct k; discriminate).
assert (Hin : In (name e) (map name (LLMS s)))
  by (apply in_map; eapply nth_error_In; exact Hk).
destruct (index_of_member _ _ Hin) as [i Hi].
destruct (get_first_match E s (name e) i Hne Hi) as (e0 & Hn0 & He0 & Hget).
assert (Hfirst : forall j e', (j < Z.to_nat i)%nat ->
                   nth_error (LLMS s) j = Some e' -> name e' <> name e).
{ intros j e' Hj Hnth.
  apply (index_first (name e) (map name (LLMS s)) i Hi j); [exact Hj|].
  rewrite nth_error_map, Hnth. reflexivity. }
exists e0, (Z.to_nat i). split; [exact Hget|]. split; [exact Hn0|].
split; [exact He0|]. split; [|split; [exact Hfirst|]].
- destruct (Nat.le_gt_cases (Z.to_nat i) k) as [Hle|Hgt]; [exact Hle|].
  exfalso. apply (Hfirst k e Hgt Hk). reflexivity.
- intros Hnd.
  assert (Hsame : Z.to_nat i = k).
  { apply (nth_error_nodup (map name (LLMS s)) _ _ (name e) Hnd).
    - rewrite nth_error_map, Hn0. cbn. congruence.
    - rewrite nth_error_map, Hk. reflexivity. }
  rewrite Hsame in Hn0. congruence.
Qed.

Lemma get_by_registered_name_witness :
exists e0,
  fst (get Examples.all_up "gpt-5" [] Examples.started) = Ok (llm e0)
  /\ e0 = {| name := "gpt-5"; llm := ChatOpenAI "gpt-5" [] |}.
Proof.
destruct (get_by_registered_name Examples.all_up Examples.started 2%nat
            {| name := "gpt-5"; llm := ChatOpenAI "gpt-5" [] |} eq_refl)
  as (e0 & k0 & Hget & _ & _ & _ & _ & Hsame).
exists e0. split.
- cbn [name] in Hget. rewrite Hget. reflexivity.
- apply Hsame. cbn. repeat constructor; cbn; intuition discriminate.
Defined.

(** ** An empty registry *)

Lemma ensure_initialized_empty (E : env) (s : state) :
LLMS s = [] -> ensure_initialized E s = initialize E s.
Proof.
intros H. unfold ensure_initialized, bind. cbn [get_state]. rewrite H.
reflexivity.
Qed.

(** X3: on an empty registry, [get_model_at_index] first builds the
    registry and then answers from it, position [i] when it is in range and
    position 0 otherwise; when no configured model can be built, the
    [RuntimeError] of the initialization is what the caller gets, and the
    registry stays empty. *)
Theorem get_model_at_index_initializes (E : env) (s : state) (i : Z) :
LLMS s = [] ->
(expected_registry E <> [] ->
 exists e s',
   get_model_at_index E i s = (Ok e, s')
   /\ LLMS s' = expected_registry E
   /\ nth_error (expected_registry E)
        (if ((0 <=? i)
             && (i <? Z.of_nat (List.length (expected_registry E))))%bool
         then Z.to_nat i else 0%nat) = Some e)
/\ (expected_registry E = [] ->
    exists s',
      get_model_at_index E i s = (Raise (no_models_error E), s')
      /\ LLMS s' = []).
Proof.
intros Hempty.
destruct (initialize_outcome E s) as [Hok Hfail]. split.
- intros Hne. destruct (Hok Hne) as (s1 & Hinit & HL & _).
  assert (Hne1 : LLMS s1 <> []) by (rewrite HL; exact Hne).
  destruct (get_model_at_index_cases E s1 i Hne1) as (e & Hget & Hnth).
  exists e, s1. rewrite HL in Hnth. split; [|split; [exact HL | exact Hnth]].
  unfold get_model_at_index in *. unfold bind at 1.
  rewrite (ensure_initialized_empty E s Hempty), Hinit.
  unfold bind at 1 in Hget. rewrite (ensure_initialized_noop E s1 Hne1) in Hget.
  exact Hget.
- intros Hnone. destruct (Hfail Hnone) as (s1 & Hinit & (HL & _)).
  exists s1. split; [|rewrite HL; exact Hempty].
  unfold get_model_at_index. unfold bind at 1.
  rewrite (ensure_initialized_empty E s Hempty), Hinit. reflexivity.
Qed.

Lemma get_model_at_index_initializes_witness :
exists e s',
  get_model_at_index Examples.partly_built 7 Examples.fresh = (Ok e, s')
  /\ name e = "gpt-4o-mini"%string
  /\ List.length (LLMS s') = 2%nat.
Proof.
destruct (proj1 (get_model_at_index_initializes
                   Examples.partly_built Examples.fresh 7 eq_refl))
  as (e & s' & Hget & HL & Hnth).
- vm_compute. discriminate.
- exists e, s'. split; [exact Hget|].
  vm_compute in Hnth. injection Hnth as <-.
  split; [reflexivity | rewrite HL; reflexivity].
Defined.

(** ** Construction of the service *)

(** X4: [LLMService()] raises exactly when no configured model can be
    built.  Otherwise the registry holds the models that can be built, the
    cursor is the position of the default model in it, or 0 when the
    default model is not among them, and the current model is the registry
    object under the cursor. *)
Theorem init_outcome (E : env) (s0 : state) :
(expected_registry E = [] ->
 exists s, __init__ E s0 = (Raise (no_models_error E), s))
/\ (expected_registry E <> [] ->
    exists s e,
      __init__ E s0 = (Ok tt, s)
      /\ LLMS s = expected_registry E
      /\ at_cursor s e
      /\ _current_model_index s
         = match index (DEFAULT_LLM_MODEL (settings E))
                       (map name (expected_registry E)) with
           | Some i => i
           | None => 0
           end).
Proof.
split; intros Hreg; unfold __init__; unfold bind at 1; cbn [set__llm];
  unfold bind at 1; cbn [set__current_model_index]; unfold bind at 1;
  match goal with
  | |- context [initialize E ?s1] =>
      destruct (initialize_outcome E s1) as [Hok Hfail]
  end.
- destruct (Hfail Hreg) as (s1 & -> & _). eauto.
- pose proof Hreg as Hne. destruct (Hok Hne) as (s1 & -> & HL & _ & _ & _).
  assert (Hne1 : LLMS s1 <> []) by (rewrite HL; exact Hne).
  unfold bind at 1.
  assert (Hwarn : exists s2,
    (if negb (contains (DEFAULT_LLM_MODEL (settings E))
                       (AVAILABLE_LLM_MODELS (settings E)))
     then log "warning" "default_model_not_in_available_models"
              [("default_model", DEFAULT_LLM_MODEL (settings E))]
     else ret tt) s1 = (Ok tt, s2) /\ LLMS s2 = LLMS s1).
  { destruct (negb _); cbn; eexists; split; reflexivity. }
  destruct Hwarn as (s2 & -> & HL2).
  assert (Hne2 : LLMS s2 <> []) by (rewrite HL2; exact Hne1).
  unfold bind at 1. rewrite (get_all_names_eq E s2 Hne2).
  unfold try_except. rewrite HL2, HL.
  destruct (index (DEFAULT_LLM_MODEL (settings E))
                  (map name (expected_registry E))) as [i|] eqn:Hindex.
  + unfold bind at 1. cbn [set__current_model_index]. unfold bind at 1.
    match goal with
    | |- context [get E ?n [] ?s3] =>
        destruct (get_first_match E s3 n i) as (e & Hnth & _ & ->);
        [cbn; exact Hne2 | cbn; rewrite HL2, HL; exact Hindex |]
    end.
    cbn in Hnth. rewrite HL2, HL in Hnth.
    apply index_in_range in Hindex.
    cbn. eexists. exists e. split; [reflexivity|]. cbn.
    rewrite ?HL2, ?HL. split; [reflexivity|]. split; [|reflexivity].
    unfold at_cursor. cbn. rewrite ?HL2, ?HL.
    split; [lia|]. split; [exact Hnth | reflexivity].
  + cbn [raise]. unfold bind at 1. cbn [get_state].
    rewrite HL2, HL.
    destruct (expected_registry E) as [|first others] eqn:Hexp;
      [congruence|].
    cbn. eexists. exists first. split; [reflexivity|]. cbn.
    rewrite ?HL2, ?HL. split; [reflexivity|]. split; [|reflexivity].
    unfold at_cursor. cbn. rewrite ?HL2, ?HL. repeat split. lia.
Qed.

Lemma init_outcome_witness :
(exists s, __init__ Examples.unbuildable Examples.fresh
           = (Raise (no_models_error Examples.unbuildable), s))
/\ (exists s,
      __init__ Examples.partly_built Examples.fresh = (Ok tt, s)
      /\ _current_model_index s = 0
      /\ _llm s = Some (ChatOpenAI "gpt-4o-mini" [])).
Proof.
split.
- apply (proj1 (init_outcome Examples.unbuildable Examples.fresh)).
  reflexivity.
- destruct (proj2 (init_outcome Examples.partly_built Examples.fresh))
    as (s & e & Hrun & HL & (_ & Hnth & Hl) & Hidx).
  + vm_compute. discriminate.
  + exists s. split; [exact Hrun|]. split; [exact Hidx|].
    rewrite Hidx, HL in Hnth. vm_compute in Hnth. injection Hnth as <-.
    exact Hl.
Defined.

End RegistryFacts.

(* ================================================================== *)
(** * More facts about the service *)
(* ================================================================== *)

Module ServiceFacts.

Import Llm LlmFacts RegistryFacts.
Local Open Scope Z_scope.

(** ** The retry unit *)

Lemma wait_exponential_bounds (attempt_number : nat) :
2 <= wait_exponential 1 2 10 attempt_number <= 10.
Proof.
unfold wait_exponential.
generalize (1 * 2 ^ (Z.of_nat attempt_number - 1)). intros x. lia.
Qed.

Section Attempts.

Variable E : env.
Variable messages : list BaseMessage.

Lemma body_trace (s : state) (h : handle) :
_llm s = Some h ->
exists s',
  _call_llm_with_retry_body E messages s
  = (backend E (trace s) h messages, s')
  /\ same_service s s'
  /\ invoked (trace s') = invoked (trace s) ++ [h]
  /\ outcomes (trace s')
     = outcomes (trace s) ++ [backend E (trace s) h messages]
  /\ sleeps (trace s') = sleeps (trace s)
  /\ switches (trace s') = switches (trace s).
Proof.
intros Hh.
unfold _call_llm_with_retry_body, bind, get_state, try_except, ainvoke.
rewrite Hh. cbn.
destruct (backend E (trace s) h messages) as [a|e] eqn:Hb; cbn.
- eexists. split; [reflexivity|]. cbn. repeat split; reflexivity.
- destruct (isinstance e (_get_retry_exceptions E)); cbn;
    (eexists; split; [reflexivity|]; cbn; repeat split; reflexivity).
Qed.

(** The retry unit with the outcomes of the invocations. *)
Lemma call_llm_with_retry_trace (s : state) (h : handle) :
_llm s = Some h ->
exists s',
  _call_llm_with_retry E messages s
  = (reported_outcome E (backend E (trace s) h messages), s')
  /\ same_service s s'
  /\ invoked (trace s') = invoked (trace s) ++ [h]
  /\ outcomes (trace s')
     = outcomes (trace s) ++ [backend E (trace s) h messages]
  /\ sleeps (trace s') = sleeps (trace s)
  /\ switches (trace s') = switches (trace s).
Proof.
intros Hh.
destruct (body_trace s h Hh)
  as (s1 & Hbody & Hsame & Hinv & Hout & Hsl & Hsw).
exists s1. unfold _call_llm_with_retry, retry.
rewrite (retrying_once E _ _ _ _ _ _ Hbody).
split; [|auto 10].
unfold reported_outcome.
destruct (backend E (trace s) h messages); [reflexivity|].
rewrite reported_eq. reflexivity.
Qed.

End Attempts.

(** X5: one run of [_call_llm_with_retry] on a service with a current
    model invokes that model exactly once and never sleeps, whatever
    [MAX_LLM_CALL_RETRIES] is.  An answer is returned as it is.  After a
    failure [e], [e] is raised again when at most one attempt is allowed;
    when more are allowed, the [before_sleep] hook raises before the first
    sleep and its exception is what the caller gets.  The registry, the
    current model and the cursor are not touched. *)
Theorem retry_unit_makes_one_attempt
  (E : env) (messages : list BaseMessage) (s : state) (h : handle) :
_llm s = Some h ->
exists r s',
  _call_llm_with_retry E messages s = (r, s')
  /\ same_service s s'
  /\ outcomes (trace s')
     = outcomes (trace s) ++ [backend E (trace s) h messages]
  /\ invoked (trace s') = invoked (trace s) ++ [h]
  /\ sleeps (trace s') = sleeps (trace s)
  /\ (forall a, backend E (trace s) h messages = Ok a -> r = Ok a)
  /\ (forall e, backend E (trace s) h messages = Raise e ->
      ((MAX_LLM_CALL_RETRIES (settings E) <= 1)%nat -> r = Raise e)
      /\ ((2 <= MAX_LLM_CALL_RETRIES (settings E))%nat ->
          r = Raise (before_sleep_error E))).
Proof.
intros Hh.
destruct (call_llm_with_retry_trace E messages s h Hh)
  as (s' & Hrun & Hsame & Hinv & Hout & Hsl & _).
eexists. exists s'. split; [exact Hrun|].
split; [exact Hsame|]. split; [exact Hout|]. split; [exact Hinv|].
split; [exact Hsl|]. split.
- intros a ->. reflexivity.
- intros e ->. cbn [reported_outcome]. unfold reported. split; intros HR.
  + replace (2 <=? MAX_LLM_CALL_RETRIES (settings E))%nat with false
      by (symmetry; apply Nat.leb_gt; lia).
    reflexivity.
  + replace (2 <=? MAX_LLM_CALL_RETRIES (settings E))%nat with true
      by (symmetry; apply Nat.leb_le; lia).
    reflexivity.
Qed.

Lemma retry_unit_makes_one_attempt_witness :
exists s',
  _call_llm_with_retry Examples.all_down Examples.question Examples.started
  = (Raise Examples.level_by_name, s')
  /\ outcomes (trace s') = [Raise Examples.bad_request]
  /\ sleeps (trace s') = [].
Proof.
destruct (retry_unit_makes_one_attempt Examples.all_down
            Examples.question Examples.started (ChatOpenAI "gpt-4o" [])
            eq_refl)
  as (r & s' & Hrun & _ & Hout & _ & Hsl & _ & Hfail).
destruct (Hfail Examples.bad_request eq_refl) as [_ Hhook].
rewrite (Hhook ltac:(cbn; lia)) in Hrun.
exists s'. split; [exact Hrun|]. split; [exact Hout | exact Hsl].
Defined.

(** X6: without a current model, [_call_llm_with_retry] invokes no
    backend, does not sleep and leaves the state as it is.  With at most
    one attempt allowed it raises the [RuntimeError] "llm not
    initialized"; with more, the caller gets the exception of the
    [before_sleep] hook instead. *)
Theorem retry_unit_without_llm
  (E : env) (messages : list BaseMessage) (s : state) :
_llm s = None ->
exists e,
  _call_llm_with_retry E messages s = (Raise e, s)
  /\ ((MAX_LLM_CALL_RETRIES (settings E) <= 1)%nat ->
      e = mk_exc RuntimeError "llm not initialized")
  /\ ((2 <= MAX_LLM_CALL_RETRIES (settings E))%nat ->
      e = before_sleep_error E).
Proof.
intros Hnone. eexists.
split; [apply call_llm_with_retry_without_llm; exact Hnone|].
unfold reported. split; intros HR.
- replace (2 <=? MAX_LLM_CALL_RETRIES (settings E))%nat with false
    by (symmetry; apply Nat.leb_gt; lia).
  reflexivity.
- replace (2 <=? MAX_LLM_CALL_RETRIES (settings E))%nat with true
    by (symmetry; apply Nat.leb_le; lia).
  reflexivity.
Qed.

Lemma retry_unit_without_llm_witness :
_call_llm_with_retry Examples.all_up Examples.question Examples.fresh
= (Raise Examples.level_by_name, Examples.fresh).
Proof.
destruct (retry_unit_without_llm Examples.all_up Examples.question
            Examples.fresh eq_refl) as (e & Hrun & _ & Hhook).
rewrite (Hhook ltac:(cbn; lia)) in Hrun. exact Hrun.
Defined.

(** ** Rotating all the way round *)

Lemma run_ops_cons (E : env) (o : op) (ops : list op) (s : state) :
run_ops E (o :: ops) s = run_ops E ops (run_op E o s).
Proof. reflexivity. Qed.

Lemma rotations_cursor (E : env) :
forall (k : nat) (s : state),
  LLMS s <> [] ->
  LLMS (run_ops E (repeat OpSwitch (S k)) s) = LLMS s
  /\ _current_model_index (run_ops E (repeat OpSwitch (S k)) s)
     = (_current_model_index s + Z.of_nat (S k))
       mod Z.of_nat (List.length (LLMS s))
  /\ exists e, at_cursor (run_ops E (repeat OpSwitch (S k)) s) e.
Proof.
induction k as [|k IH]; intros s Hne;
  destruct (switch_rotates E s Hne)
    as (e & s1 & Hsw & HL & Hi & Hn & Hl & _);
  pose proof (next_index_in_range s Hne) as Hr.
- cbn [repeat]. rewrite run_ops_cons. cbn [run_op]. rewrite Hsw. cbn.
  split; [exact HL|]. split; [exact Hi|].
  exists e. unfold at_cursor. rewrite HL, Hi. rewrite Hi in Hn.
  split; [lia|]. split; [exact Hn|]. exact Hl.
- change (repeat OpSwitch (S (S k))) with (OpSwitch :: repeat OpSwitch (S k)).
  rewrite run_ops_cons. cbn [run_op]. rewrite Hsw. cbn [snd].
  assert (Hne1 : LLMS s1 <> []) by (rewrite HL; exact Hne).
  destruct (IH s1 Hne1) as (HL' & Hi' & Hat').
  split; [congruence|]. split; [|exact Hat'].
  rewrite Hi', HL, Hi.
  rewrite Zplus_mod_idemp_l. f_equal. lia.
Qed.

(** X7: [k >= 1] rotations in a row move the cursor to [(c + k) mod N]
    and make the registry object at that position the current model; after
    exactly [N] rotations a cursor that was in range is back where it
    started. *)
Theorem rotations_wrap_around (E : env) (s : state) (k : nat) :
LLMS s <> [] ->
(1 <= k)%nat ->
let s' := run_ops E (repeat OpSwitch k) s in
LLMS s' = LLMS s
/\ _current_model_index s'
   = (_current_model_index s + Z.of_nat k)
     mod Z.of_nat (List.length (LLMS s))
/\ (exists e, at_cursor s' e)
/\ (k = List.length (LLMS s) ->
    0 <= _current_model_index s < Z.of_nat (List.length (LLMS s)) ->
    _current_model_index s' = _current_model_index s).
Proof.
intros Hne Hk. destruct k as [|k]; [lia|]. cbv zeta.
destruct (rotations_cursor E k s Hne) as (HL & Hi & Hat).
split; [exact HL|]. split; [exact Hi|]. split; [exact Hat|].
intros HkN Hrange. rewrite Hi, HkN.
rewrite <- Zplus_mod_idemp_r, Z.mod_same, Z.add_0_r by lia.
apply Z.mod_small. exact Hrange.
Qed.

Lemma rotations_wrap_around_witness :
_current_model_index
  (run_ops Examples.all_up (repeat OpSwitch 3) Examples.started) = 1
/\ _current_model_index
     (run_ops Examples.all_up (repeat OpSwitch 2) Examples.started) = 0.
Proof.
split.
- apply (rotations_wrap_around Examples.all_up Examples.started 3).
  + cbn. discriminate.
  + lia.
  + reflexivity.
  + cbn. lia.
- destruct (rotations_wrap_around Examples.all_up Examples.started 2)
    as (_ & Hi & _).
  + cbn. discriminate.
  + lia.
  + exact Hi.
Defined.

(** ** The effort of one call *)

Section Effort.

Variable E : env.
Variable messages : list BaseMessage.

(** The loop of [call], from a ready service with [remaining] models left:
    it rotates [m < remaining] times, ends with the cursor [m] positions
    further, invokes backends at most [(m + 1) * max(1, R)] times, and
    fails only after [remaining] models. *)
Lemma call_loop_effort (total : nat) (starting_index : Z) (start : entry) :
forall (remaining models_tried : nat) (last_error : option exc)
       (s : state),
  ready s ->
  total = List.length (LLMS s) ->
  (models_tried + remaining = total)%nat ->
  (1 <= remaining)%nat ->
  getitem (LLMS s) starting_index = Some start ->
  exists r s' m,
    call_loop E messages total starting_index remaining models_tried
              last_error s = (r, s')
    /\ (m < remaining)%nat
    /\ switches (trace s') = (switches (trace s) + m)%nat
    /\ _current_model_index s'
       = (_current_model_index s + Z.of_nat m)
         mod Z.of_nat (List.length (LLMS s))
    /\ (List.length (invoked (trace s'))
        <= List.length (invoked (trace s))
           + S m * Nat.max 1 (MAX_LLM_CALL_RETRIES (settings E)))%nat
    /\ (forall e, r = Raise e -> S m = remaining).
Proof.
induction remaining as [|remaining IH];
  intros tried last s Hready Htotal Hsum Hrem Hstart; [lia|].
destruct Hready as (Hne & Hidx & h & Hh).
destruct (call_llm_with_retry_once E messages s h Hh)
  as (s1 & Hrun & (HL & Hl & Hi) & Hinv & _ & Hsw & _).
assert (Hinvlen : (List.length (invoked (trace s1))
                   <= List.length (invoked (trace s))
                      + Nat.max 1 (MAX_LLM_CALL_RETRIES (settings E)))%nat).
{ rewrite Hinv, length_app. cbn [List.length]. lia. }
cbn [call_loop]. unfold try_except. rewrite Hrun.
destruct (reported_outcome E (backend E (trace s) h messages)) as [a|e].
{ exists (Ok a), s1, 0%nat. split; [reflexivity|]. split; [lia|].
  split; [lia|]. split.
  { rewrite Hi, Z.add_0_r, Z.mod_small by exact Hidx. reflexivity. }
  split; [lia | discriminate]. }
unfold bind at 1. cbn [get_state].
destruct (getitem_defined (LLMS s1) (_current_model_index s1))
  as (current & Hcur & _); [rewrite HL, Hi; exact Hidx|].
unfold bind at 1. unfold list_getitem at 1. rewrite Hcur. cbn [ret].
unfold bind at 1. cbn [log emit].
destruct (total <=? S tried)%nat eqn:Hleb.
- apply Nat.leb_le in Hleb.
  unfold bind at 1. unfold list_getitem. cbn [LLMS].
  rewrite HL, Hstart. cbn -[Nat.max Nat.mul].
  eexists. eexists. exists 0%nat. split; [reflexivity|].
  cbn -[Nat.max Nat.mul].
  split; [lia|]. split; [lia|]. split.
  { rewrite Hi, Z.add_0_r, Z.mod_small by exact Hidx. reflexivity. }
  split; [lia | intros; lia].
- apply Nat.leb_gt in Hleb. unfold bind at 1.
  match goal with
  | |- context [_switch_to_next_model E ?s2] =>
      assert (Hne2 : LLMS s2 <> []) by (cbn; rewrite HL; exact Hne);
      destruct (switch_rotates E s2 Hne2)
        as (e' & s3 & Hswitch & HL3 & Hi3 & Hn3 & Hl3 & Hsw3 & Hinv3 & _);
      pose proof (next_index_in_range s2 Hne2) as Hr3
  end.
  rewrite Hswitch. cbn [negb].
  cbn in HL3, Hi3, Hr3, Hsw3, Hinv3.
  rewrite HL, Hi in Hi3. rewrite HL, Hi in Hr3. rewrite HL in HL3.
  destruct (IH (S tried) (Some e) s3)
    as (r & s' & m & Hrun' & Hm & Hsw' & Hi' & Hinv' & Hall').
  + unfold ready. rewrite HL3, Hi3, Hl3.
    split; [exact Hne|]. split; [exact Hr3 | eauto].
  + rewrite HL3. exact Htotal.
  + lia.
  + lia.
  + rewrite HL3. exact Hstart.
  + exists r, s', (S m). split; [exact Hrun'|]. split; [lia|].
    split; [rewrite Hsw', Hsw3, Hsw; lia|]. split.
    { rewrite Hi', HL3, Hi3, Zplus_mod_idemp_l. f_equal. lia. }
    split.
    { rewrite Hinv3 in Hinv'. cbn [Nat.mul] in *. lia. }
    intros e0 He0. rewrite <- (Hall' e0 He0). reflexivity.
Qed.

End Effort.

(** X8: whatever its arguments and whatever the backends do, one [call]
    on a ready service invokes backends at most [N * max(1, R)] times and
    rotates the cursor at most [N - 1] times, [N] being the size of the
    registry and [R] the configured number of attempts. *)
Theorem call_effort_is_bounded
  (E : env) (messages : list BaseMessage) (model_name : option string)
  (model_kwargs : kwargs) (s : state) :
ready s ->
let s' := snd (call E messages model_name model_kwargs s) in
(List.length (invoked (trace s'))
 <= List.length (invoked (trace s))
    + List.length (LLMS s)
      * Nat.max 1 (MAX_LLM_CALL_RETRIES (settings E)))%nat
/\ (switches (trace s') <= switches (trace s) + (List.length (LLMS s) - 1))%nat.
Proof.
intros Hready. cbv zeta.
destruct (use_requested_model_frame E model_name model_kwargs s Hready)
  as (r0 & s0 & Hpre & HL0 & Hready0 & (Q1 & Q2 & _) & _).
destruct r0 as [[]|e].
- rewrite (call_unfold E messages _ _ s s0 Hpre).
  pose proof Hready0 as (Hne0 & Hidx0 & _).
  destruct (getitem_defined (LLMS s0) (_current_model_index s0) Hidx0)
    as (start & Hstart & _).
  assert (Hlen : (1 <= List.length (LLMS s0))%nat).
  { destruct (LLMS s0); [congruence | cbn; lia]. }
  destruct (call_loop_effort E messages (List.length (LLMS s0))
              (_current_model_index s0) start (List.length (LLMS s0))
              0%nat None s0 Hready0 eq_refl eq_refl Hlen Hstart)
    as (r & s' & m & Hrun & Hm & Hsw & _ & Hinv & _).
  rewrite Hrun. cbn [snd]. rewrite <- HL0, <- Q1, <- Q2.
  split; [|lia].
  eapply Nat.le_trans; [exact Hinv|].
  apply Nat.add_le_mono_l, Nat.mul_le_mono_r. lia.
- unfold call, bind. rewrite Hpre. cbn [snd]. rewrite Q1, Q2. lia.
Qed.

Lemma call_effort_is_bounded_witness :
(List.length
   (invoked (trace (snd (call Examples.all_down Examples.question None []
                              Examples.started)))) <= 9)%nat.
Proof.
destruct (call_effort_is_bounded Examples.all_down Examples.question None []
            Examples.started) as [H _].
- unfold ready. cbn. repeat split; try lia; [discriminate | eauto].
- exact H.
Defined.

(** X9: when a [call] without model name gives up, the cursor has been
    rotated [N - 1] times and rests on [(c + N - 1) mod N], the model tried
    last, not on the model [c] the call started from; with a single model
    the cursor has not moved. *)
Theorem failed_call_leaves_cursor_on_last_model
  (E : env) (messages : list BaseMessage) (s s' : state) (e : exc) :
ready s ->
call E messages None [] s = (Raise e, s') ->
switches (trace s') = (switches (trace s) + (List.length (LLMS s) - 1))%nat
/\ _current_model_index s'
   = (_current_model_index s + Z.of_nat (List.length (LLMS s) - 1))
     mod Z.of_nat (List.length (LLMS s))
/\ (List.length (LLMS s) = 1%nat ->
    _current_model_index s' = _current_model_index s).
Proof.
intros Hready Hcall.
pose proof Hready as (Hne & Hidx & _).
destruct (getitem_defined (LLMS s) (_current_model_index s) Hidx)
  as (start & Hstart & _).
assert (Hlen : (1 <= List.length (LLMS s))%nat).
{ destruct (LLMS s); [congruence | cbn; lia]. }
destruct (call_loop_effort E messages (List.length (LLMS s))
            (_current_model_index s) start (List.length (LLMS s))
            0%nat None s Hready eq_refl eq_refl Hlen Hstart)
  as (r & s1 & m & Hrun & Hm & Hsw & Hi & _ & Hall).
rewrite (call_unfold E messages None [] s s eq_refl), Hrun in Hcall.
injection Hcall as -> ->.
specialize (Hall e eq_refl).
assert (Hm' : m = (List.length (LLMS s) - 1)%nat) by lia. subst m.
split; [exact Hsw|]. split; [exact Hi|].
intros H1. rewrite Hi, H1. cbn. rewrite Z.add_0_r.
apply Z.mod_small. rewrite H1 in Hidx. exact Hidx.
Qed.

Lemma failed_call_leaves_cursor_on_last_model_witness :
exists s',
  call Examples.all_down Examples.question None [] Examples.started
  = (Raise Examples.gave_up, s')
  /\ _current_model_index s' = 0.
Proof.
destruct (call Examples.all_down Examples.question None []
               Examples.started) as [r s'] eqn:Hcall.
assert (Hr : r = Raise Examples.gave_up).
{ apply (f_equal fst) in Hcall. cbn [fst] in Hcall. rewrite <- Hcall.
  vm_compute. reflexivity. }
subst r. exists s'. split; [reflexivity|].
destruct (failed_call_leaves_cursor_on_last_model Examples.all_down
            Examples.question Examples.started s' Examples.gave_up)
  as (_ & Hi & _).
- unfold ready. cbn. repeat split; try lia; [discriminate | eauto].
- exact Hcall.
- rewrite Hi. reflexivity.
Defined.

(** ** A call that is answered at once *)

Lemma call_loop_answers_at_once
  (E : env) (messages : list BaseMessage) (total : nat)
  (starting_index : Z) (remaining models_tried : nat)
  (last_error : option exc) (s : state) (h : handle) (a : BaseMessage) :
_llm s = Some h ->
backend E (trace s) h messages = Ok a ->
exists s',
  call_loop E messages total starting_index (S remaining) models_tried
            last_error s = (Ok a, s')
  /\ same_service s s'
  /\ invoked (trace s') = invoked (trace s) ++ [h]
  /\ switches (trace s') = switches (trace s)
  /\ sleeps (trace s') = sleeps (trace s)
  /\ last_outcome (trace s') = Some (Ok a).
Proof.
intros Hh Ha.
destruct (call_llm_with_retry_once E messages s h Hh)
  as (s' & Hrun & Hsame & Hinv & Hsl & Hsw & _ & Hlast).
rewrite Ha in Hrun, Hlast. cbn [reported_outcome] in Hrun.
exists s'. cbn [call_loop]. unfold try_except. rewrite Hrun.
repeat split; try apply Hsame; assumption.
Qed.

(** X10: when the first invocation of the current model answers, a
    [call] without model name returns that answer after this one
    invocation, without sleeping and without rotating; the registry, the
    current model and the cursor are what they were. *)
Theorem call_answered_at_once
  (E : env) (messages : list BaseMessage) (s : state) (h : handle)
  (a : BaseMessage) :
LLMS s <> [] ->
_llm s = Some h ->
backend E (trace s) h messages = Ok a ->
exists s',
  call E messages None [] s = (Ok a, s')
  /\ same_service s s'
  /\ invoked (trace s') = invoked (trace s) ++ [h]
  /\ switches (trace s') = switches (trace s)
  /\ sleeps (trace s') = sleeps (trace s).
Proof.
intros Hne Hh Ha.
rewrite (call_unfold E messages None [] s s eq_refl).
destruct (LLMS s) as [|first others] eqn:HL; [congruence|].
cbn [List.length].
destruct (call_loop_answers_at_once E messages (S (List.length others))
            (_current_model_index s) (List.length others) 0%nat None s h a
            Hh Ha)
  as (s' & Hrun & Hsame & Hinv & Hsw & Hsl & _).
exists s'. split; [exact Hrun|]. split; [exact Hsame|].
split; [exact Hinv|]. split; [exact Hsw | exact Hsl].
Qed.

Lemma call_answered_at_once_witness :
exists s',
  call Examples.all_up Examples.question None [] Examples.started
  = (Ok Examples.hello, s')
  /\ _current_model_index s' = 1
  /\ invoked (trace s') = [ChatOpenAI "gpt-4o" []].
Proof.
destruct (call_answered_at_once Examples.all_up Examples.question
            Examples.started (ChatOpenAI "gpt-4o" []) Examples.hello)
  as (s' & Hrun & (_ & _ & Hi) & Hinv & _).
- cbn. discriminate.
- reflexivity.
- reflexivity.
- exists s'. split; [exact Hrun|]. split; [exact Hi | exact Hinv].
Defined.

(** ** Naming the model *)

Lemma model_name_given_nonempty (n : string) :
n <> ""%string -> model_name_given (Some n) = Some n.
Proof.
intros Hn. unfold model_name_given.
destruct (String.eqb n "") eqn:He; [|reflexivity].
apply String.eqb_eq in He. congruence.
Qed.

(** The head of [call] for a registered name without keyword arguments. *)
Lemma use_requested_model_registered
  (E : env) (s : state) (n : string) (i : Z) :
LLMS s <> [] ->
n <> ""%string ->
index n (map name (LLMS s)) = Some i ->
exists e,
  nth_error (LLMS s) (Z.to_nat i) = Some e
  /\ use_requested_model E (Some n) [] s
     = (Ok tt,
        {| LLMS := LLMS s; _llm := Some (llm e);
           _current_model_index := i;
           trace := Log "info" "using_requested_model" [("model_name", n)]
                    :: Log "debug" "using_default_llm_instance"
                           [("model_name", n)]
                    :: trace s |}).
Proof.
intros Hne Hn Hi.
destruct (get_first_match E s n i Hne Hi) as (e & Hnth & _ & Hget).
exists e. split; [exact Hnth|].
unfold use_requested_model. rewrite (model_name_given_nonempty n Hn).
unfold try_except_class, try_except. unfold bind at 1. rewrite Hget.
unfold bind at 1. cbn [set__llm logged LLMS _llm _current_model_index trace].
unfold bind at 1. rewrite get_all_names_eq by (cbn; exact Hne).
cbn [LLMS]. rewrite Hi. reflexivity.
Qed.

(** [get] with keyword arguments, on a registered name. *)
Lemma get_custom
  (E : env) (s : state) (n : string) (kv : string * string)
  (rest : kwargs) (e0 : entry) :
LLMS s <> [] ->
find (fun e => String.eqb (name e) n) (LLMS s) = Some e0 ->
get E n (kv :: rest) s
= (match ctor_error E (custom_handle E n (kv :: rest)) with
   | Some e => Raise e
   | None => Ok (custom_handle E n (kv :: rest))
   end,
   logged (Log "debug" "creating_llm_with_custom_args"
               [("model_name", n)]) s).
Proof.
intros Hne Hfind. unfold get, bind.
rewrite (ensure_initialized_noop E s Hne). cbn [get_state].
rewrite Hfind. cbn [log emit]. unfold custom_handle, construct.
destruct (provider_is_bedrock E);
  match goal with
  | |- context [ctor_error E ?h] => destruct (ctor_error E h)
  end; reflexivity.
Qed.

(** The head of [call] for a registered name with keyword arguments. *)
Lemma use_requested_model_custom
  (E : env) (s : state) (n : string) (i : Z)
  (kv : string * string) (rest : kwargs) :
LLMS s <> [] ->
n <> ""%string ->
index n (map name (LLMS s)) = Some i ->
(ctor_error E (custom_handle E n (kv :: rest)) = None ->
 use_requested_model E (Some n) (kv :: rest) s
 = (Ok tt,
    {| LLMS := LLMS s; _llm := Some (custom_handle E n (kv :: rest));
       _current_model_index := i;
       trace := Log "info" "using_requested_model" [("model_name", n)]
                :: Log "debug" "creating_llm_with_custom_args"
                       [("model_name", n)]
                :: trace s |}))
/\ (forall e, ctor_error E (custom_handle E n (kv :: rest)) = Some e ->
    exists s0,
      use_requested_model E (Some n) (kv :: rest) s = (Raise e, s0)
      /\ same_service s s0
      /\ invoked (trace s0) = invoked (trace s)).
Proof.
intros Hne Hn Hi.
destruct (index_find n (LLMS s) i Hi) as (e0 & Hfind & _ & _).
pose proof (get_custom E s n kv rest e0 Hne Hfind) as Hget.
split; [intros Hc | intros e He]; rewrite ?Hc, ?He in Hget;
  unfold use_requested_model; rewrite (model_name_given_nonempty n Hn);
  unfold try_except_class, try_except; unfold bind at 1; rewrite Hget.
- unfold bind at 1. cbn [set__llm logged LLMS _llm _current_model_index trace].
  unfold bind at 1. rewrite get_all_names_eq by (cbn; exact Hne).
  cbn [LLMS]. rewrite Hi. reflexivity.
- destruct (isinstance e [ValueError]); cbn;
    (eexists; split; [reflexivity|]; repeat split).
Qed.

(** X11: a [call] that names a registered model, without keyword
    arguments, moves the cursor to the first registry entry of that name
    and makes its object the current model, whatever the cursor and the
    current model were; when that model answers, the call returns the
    answer after one invocation and leaves the service on that entry. *)
Theorem call_named_model
  (E : env) (messages : list BaseMessage) (s : state)
  (n : string) (i : Z) (e : entry) :
n <> ""%string ->
index n (map name (LLMS s)) = Some i ->
nth_error (LLMS s) (Z.to_nat i) = Some e ->
always_succeeds E (llm e) ->
exists a s',
  call E messages (Some n) [] s = (Ok a, s')
  /\ LLMS s' = LLMS s
  /\ at_cursor s' e
  /\ _current_model_index s' = i
  /\ invoked (trace s') = invoked (trace s) ++ [llm e]
  /\ switches (trace s') = switches (trace s).
Proof.
intros Hn Hi Hnth Hup.
assert (Hne : LLMS s <> [])
  by (intros H; rewrite H in Hi; discriminate).
destruct (use_requested_model_registered E s n i Hne Hn Hi)
  as (e' & Hnth' & Hpre).
assert (e' = e) by congruence. subst e'.
rewrite (call_unfold E messages _ _ s _ Hpre).
cbn [LLMS _current_model_index].
destruct (LLMS s) as [|first others] eqn:HL; [congruence|].
cbn [List.length].
match goal with
| |- context [call_loop E messages _ _ _ _ _ ?s0] =>
    destruct (Hup (trace s0) messages) as [a Ha];
    destruct (call_loop_answers_at_once E messages
                (S (List.length others)) i (List.length others) 0%nat
                None s0 (llm e) a eq_refl Ha)
      as (s' & Hrun & (A1 & A2 & A3) & Hinv & Hsw & _)
end.
cbn in A1, A2, A3, Hinv, Hsw.
exists a, s'. split; [exact Hrun|]. split; [exact A1|].
pose proof (index_in_range n _ i Hi) as Hr.
split; [|split; [exact A3 | split; [exact Hinv | exact Hsw]]].
unfold at_cursor. rewrite A1, A2, A3. split; [lia|]. split; [exact Hnth|].
reflexivity.
Qed.

Lemma call_named_model_witness :
exists a s',
  call Examples.all_up Examples.question (Some "gpt-5"%string) []
       Examples.started = (Ok a, s')
  /\ _current_model_index s' = 2
  /\ invoked (trace s') = [ChatOpenAI "gpt-5" []].
Proof.
destruct (call_named_model Examples.all_up Examples.question
            Examples.started "gpt-5"%string 2
            {| name := "gpt-5"; llm := ChatOpenAI "gpt-5" [] |})
  as (a & s' & Hrun & _ & _ & Hi & Hinv & _).
- discriminate.
- reflexivity.
- reflexivity.
- intros tr messages. exists Examples.hello. reflexivity.
- exists a, s'. split; [exact Hrun|]. split; [exact Hi | exact Hinv].
Defined.

(** X12: a [call] that names a registered model and passes keyword
    arguments builds a new object from the name and the arguments.  When
    building it fails, the call raises what the constructor raised, no
    backend is invoked and the service is what it was.  When it is built
    and answers, the call is served by the new object, which stays the
    current model, while the cursor moves to the registry entry of that
    name, whose own object is not used. *)
Theorem call_with_keyword_arguments
  (E : env) (messages : list BaseMessage) (s : state)
  (n : string) (i : Z) (kv : string * string) (rest : kwargs) :
n <> ""%string ->
index n (map name (LLMS s)) = Some i ->
(forall e, ctor_error E (custom_handle E n (kv :: rest)) = Some e ->
 exists s',
   call E messages (Some n) (kv :: rest) s = (Raise e, s')
   /\ same_service s s'
   /\ invoked (trace s') = invoked (trace s))
/\ (ctor_error E (custom_handle E n (kv :: rest)) = None ->
    always_succeeds E (custom_handle E n (kv :: rest)) ->
    exists a s',
      call E messages (Some n) (kv :: rest) s = (Ok a, s')
      /\ LLMS s' = LLMS s
      /\ _llm s' = Some (custom_handle E n (kv :: rest))
      /\ _current_model_index s' = i
      /\ invoked (trace s')
         = invoked (trace s) ++ [custom_handle E n (kv :: rest)]).
Proof.
intros Hn Hi.
assert (Hne : LLMS s <> [])
  by (intros H; rewrite H in Hi; discriminate).
destruct (use_requested_model_custom E s n i kv rest Hne Hn Hi)
  as [Hbuilt Hfailed].
split.
- intros e He. destruct (Hfailed e He) as (s0 & Hpre & Hsame & Hinv).
  exists s0. unfold call, bind. rewrite Hpre. auto.
- intros Hc Hup. specialize (Hbuilt Hc).
  rewrite (call_unfold E messages _ _ s _ Hbuilt).
  cbn [LLMS _current_model_index].
  destruct (LLMS s) as [|first others] eqn:HL; [congruence|].
  cbn [List.length].
  match goal with
  | |- context [call_loop E messages _ _ _ _ _ ?s0] =>
      destruct (Hup (trace s0) messages) as [a Ha];
      destruct (call_loop_answers_at_once E messages
                  (S (List.length others)) i (List.length others) 0%nat
                  None s0 (custom_handle E n (kv :: rest)) a eq_refl Ha)
        as (s' & Hrun & (A1 & A2 & A3) & Hinv & _)
  end.
  cbn in A1, A2, A3, Hinv.
  exists a, s'. repeat split; assumption.
Qed.

Lemma call_with_keyword_arguments_witness :
exists a s',
  call Examples.all_up Examples.question (Some "gpt-5"%string)
       [("temperature", "0")%string] Examples.started = (Ok a, s')
  /\ _current_model_index s' = 2
  /\ _llm s' = Some (ChatOpenAI "gpt-5" [("temperature", "0")%string]).
Proof.
destruct (call_with_keyword_arguments Examples.all_up Examples.question
            Examples.started "gpt-5"%string 2
            ("temperature", "0")%string [])
  as [_ Hbuilt].
- discriminate.
- reflexivity.
- destruct Hbuilt as (a & s' & Hrun & _ & Hl & Hi & _).
  + reflexivity.
  + intros tr messages. exists Examples.hello. reflexivity.
  + exists a, s'. split; [exact Hrun|]. split; [exact Hi | exact Hl].
Defined.

(** X13: an answer returned by [call] is the answer of the last backend
    invocation it made: nothing is returned that no backend produced. *)
Theorem call_answer_is_last_outcome
  (E : env) (messages : list BaseMessage) (model_name : option string)
  (model_kwargs : kwargs) (s s' : state) (a : BaseMessage) :
ready s ->
call E messages model_name model_kwargs s = (Ok a, s') ->
last_outcome (trace s') = Some (Ok a).
Proof.
intros Hready Hcall.
destruct (use_requested_model_frame E model_name model_kwargs s Hready)
  as (r0 & s0 & Hpre & _).
destruct r0 as [[]|e].
- destruct (call_outcome E messages model_name model_kwargs s s0 Hready Hpre)
    as (start & r & s1 & _ & Hrun & _ & _ & Hres).
  rewrite Hcall in Hrun. injection Hrun as <- <-. exact Hres.
- unfold call, bind in Hcall. rewrite Hpre in Hcall. discriminate.
Qed.

Lemma call_answer_is_last_outcome_witness :
last_outcome
  (trace (snd (call Examples.one_down Examples.question None []
                    Examples.started)))
= Some (Ok Examples.hello).
Proof.
apply (call_answer_is_last_outcome Examples.one_down Examples.question
         None [] Examples.started).
- unfold ready. cbn. repeat split; try lia; [discriminate | eauto].
- vm_compute. reflexivity.
Defined.

End ServiceFacts.

(* ================================================================== *)
(** * Binding tools *)
(* ================================================================== *)

Module BindingFacts.

Import Llm LlmFacts RegistryFacts ServiceFacts.
Local Open Scope Z_scope.

(** A [call] without model name whose current model fails, on a registry
    of at least two models whose next model answers: one rotation, and the
    next registry object is the current model afterwards. *)
Lemma call_falls_back
  (E : env) (messages : list BaseMessage) (s : state) (h : handle)
  (e0 : exc) (next : entry) :
_llm s = Some h ->
(2 <= List.length (LLMS s))%nat ->
0 <= _current_model_index s < Z.of_nat (List.length (LLMS s)) ->
backend E (trace s) h messages = Raise e0 ->
nth_error (LLMS s)
  (Z.to_nat ((_current_model_index s + 1)
             mod Z.of_nat (List.length (LLMS s)))) = Some next ->
always_succeeds E (llm next) ->
exists a s',
  call E messages None [] s = (Ok a, s')
  /\ LLMS s' = LLMS s
  /\ _llm s' = Some (llm next)
  /\ _current_model_index s'
     = (_current_model_index s + 1) mod Z.of_nat (List.length (LLMS s))
  /\ invoked (trace s') = invoked (trace s) ++ [h; llm next]
  /\ switches (trace s') = S (switches (trace s)).
Proof.
intros Hh HN Hidx Hb Hnext Hup.
assert (Hne : LLMS s <> []).
{ intros Hnil. rewrite Hnil in HN. cbn in HN. lia. }
rewrite (call_unfold E messages None [] s s eq_refl).
destruct (List.length (LLMS s)) as [|[|n]] eqn:Hlen; try lia.
cbn [call_loop]. unfold try_except.
destruct (call_llm_with_retry_once E messages s h Hh)
  as (s1 & Hrun & (HL1 & Hl1 & Hi1) & Hinv1 & _ & Hsw1 & _).
rewrite Hb in Hrun. cbn [reported_outcome] in Hrun. rewrite Hrun.
unfold bind at 1. cbn [get_state].
destruct (getitem_defined (LLMS s1) (_current_model_index s1))
  as (current & Hcur & _); [rewrite HL1, Hi1, Hlen; exact Hidx|].
unfold bind at 1. unfold list_getitem at 1. rewrite Hcur. cbn [ret].
unfold bind at 1. cbn [log emit Nat.leb]. unfold bind at 1.
match goal with
| |- context [_switch_to_next_model E ?s2] =>
    assert (Hne2 : LLMS s2 <> []) by (cbn; rewrite HL1; exact Hne);
    destruct (switch_rotates E s2 Hne2)
      as (e' & s3 & Hsw & HL3 & Hi3 & Hn3 & Hl3 & Hsw3 & Hinv3 & _)
end.
rewrite Hsw. cbn [negb].
cbn [LLMS _current_model_index trace switches invoked String.eqb Ascii.eqb
     Bool.eqb] in HL3, Hi3, Hn3, Hsw3, Hinv3.
rewrite HL1, Hi1 in Hi3. rewrite HL1 in Hn3. rewrite Hlen in Hi3.
rewrite Hi3, Hnext in Hn3. injection Hn3 as <-.
destruct (call_loop_first_succeeds E messages (S (S n))
            (_current_model_index s) n 1%nat
            (Some (reported E e0)) s3 (llm next) Hl3 Hup)
  as (a & s4 & Hrun4 & (HL4 & Hl4 & Hi4) & Hsw4 & Hinv4).
exists a, s4. split; [exact Hrun4|].
split; [congruence|]. split; [congruence|]. split; [congruence|].
split; [|congruence].
rewrite Hinv4, Hinv3, Hinv1, <- app_assoc. reflexivity.
Qed.

(** C10, as the code has it: [bind_tools] returns the reference it was
    called on unless binding the tools raises, in which case that exception
    reaches the caller and nothing is changed.  Without a current model it
    changes nothing at all and raises nothing.  With a current model and a
    binding that succeeds, the current model is replaced by the tool-bound
    model and neither the registry nor the cursor is touched.  The bound
    model serves the next call that names no model, and stays the current
    model when its first invocation answers.  It does not serve every later
    call: a call that names a registered model, without keyword arguments,
    makes the first registry entry of that name the current model, and a
    call in which the bound model fails falls back to the next registry
    entry, whose object is the current model once it has answered. *)
Theorem bind_tools_effect
  {ref : Type} (E : env) (self : ref) (tools : list string) (s : state) :
(_llm s = None -> bind_tools E self tools s = (Ok self, s))
/\ (forall h e,
      _llm s = Some h ->
      bind_error E (unbound h) tools = Some e ->
      bind_tools E self tools s = (Raise e, s))
/\ (forall h,
      _llm s = Some h ->
      bind_error E (unbound h) tools = None ->
      exists s',
        bind_tools E self tools s = (Ok self, s')
        /\ _llm s' = Some (Bound (unbound h) tools)
        /\ LLMS s' = LLMS s
        /\ _current_model_index s' = _current_model_index s
        /\ invoked (trace s') = invoked (trace s)
        /\ (forall messages a,
              LLMS s <> [] ->
              backend E (trace s') (Bound (unbound h) tools) messages
              = Ok a ->
              exists s'',
                call E messages None [] s' = (Ok a, s'')
                /\ invoked (trace s'')
                   = invoked (trace s') ++ [Bound (unbound h) tools]
                /\ _llm s'' = Some (Bound (unbound h) tools))
        /\ (forall messages n i e,
              n <> ""%string ->
              index n (map name (LLMS s)) = Some i ->
              nth_error (LLMS s) (Z.to_nat i) = Some e ->
              always_succeeds E (llm e) ->
              exists a s'',
                call E messages (Some n) [] s' = (Ok a, s'')
                /\ invoked (trace s'') = invoked (trace s') ++ [llm e]
                /\ _llm s'' = Some (llm e))
        /\ (forall messages e0 next,
              (2 <= List.length (LLMS s))%nat ->
              0 <= _current_model_index s
                < Z.of_nat (List.length (LLMS s)) ->
              backend E (trace s') (Bound (unbound h) tools) messages
              = Raise e0 ->
              nth_error (LLMS s)
                (Z.to_nat ((_current_model_index s + 1)
                           mod Z.of_nat (List.length (LLMS s))))
              = Some next ->
              always_succeeds E (llm next) ->
              exists a s'',
                call E messages None [] s' = (Ok a, s'')
                /\ invoked (trace s'')
                   = invoked (trace s')
                     ++ [Bound (unbound h) tools; llm next]
                /\ _llm s'' = Some (llm next))).
Proof.
unfold bind_tools, llm_bind_tools, bind. cbn [get_state].
split; [intros ->; reflexivity|].
split; [intros h e -> ->; reflexivity|].
intros h Hl Hb. rewrite Hl, Hb.
set (s1 := {| LLMS := LLMS s;
              _llm := Some (Bound (unbound h) tools);
              _current_model_index := _current_model_index s;
              trace := Log "debug" "tools_bound_to_llm"
                           [("tool_count",
                             str_of_nat (List.length tools))]
                       :: trace s |}).
exists s1. split; [reflexivity|].
split; [reflexivity|]. split; [reflexivity|]. split; [reflexivity|].
split; [reflexivity|].
split; [|split].
- intros messages a Hne Ha.
  rewrite (call_unfold E messages None [] s1 s1 eq_refl).
  change (LLMS s1) with (LLMS s).
  destruct (LLMS s) as [|first others] eqn:HL; [congruence|].
  cbn [List.length].
  destruct (call_loop_answers_at_once E messages (S (List.length others))
              (_current_model_index s1) (List.length others) 0%nat
              None s1 (Bound (unbound h) tools) a eq_refl Ha)
    as (s2 & Hrun & (_ & Hl2 & _) & Hinv2 & _).
  exists s2. split; [exact Hrun|]. split; [exact Hinv2 | exact Hl2].
- intros messages n i e Hn Hi Hnth Hup.
  assert (Hne : LLMS s1 <> [])
    by (cbn; intros H; rewrite H in Hi; discriminate).
  destruct (use_requested_model_registered E s1 n i Hne Hn Hi)
    as (e' & Hnth' & Hpre).
  change (LLMS s1) with (LLMS s) in Hnth'.
  assert (e' = e) by congruence. subst e'.
  rewrite (call_unfold E messages _ _ s1 _ Hpre).
  cbn [LLMS _current_model_index]. change (LLMS s1) with (LLMS s) in Hne.
  destruct (LLMS s) as [|first others] eqn:HL; [congruence|].
  cbn [List.length].
  match goal with
  | |- context [call_loop E messages _ _ _ _ _ ?s0] =>
      destruct (Hup (trace s0) messages) as [a Ha];
      destruct (call_loop_answers_at_once E messages
                  (S (List.length others)) i (List.length others) 0%nat
                  None s0 (llm e) a eq_refl Ha)
        as (s2 & Hrun & (_ & Hl2 & _) & Hinv2 & _)
  end.
  cbn in Hl2, Hinv2.
  exists a, s2. split; [exact Hrun|]. split; [exact Hinv2 | exact Hl2].
- intros messages e0 next HN Hidx He0 Hnext Hup.
  destruct (call_falls_back E messages s1 (Bound (unbound h) tools) e0 next
              eq_refl HN Hidx He0 Hnext Hup)
    as (a & s2 & Hrun & _ & Hl2 & _ & Hinv2 & _).
  exists a, s2. split; [exact Hrun|]. split; [exact Hinv2 | exact Hl2].
Qed.

Lemma bind_tools_effect_witness :
exists s' s'',
  bind_tools Examples.all_up tt ["search"%string] Examples.started
  = (Ok tt, s')
  /\ call Examples.all_up Examples.question None [] s'
     = (Ok Examples.hello, s'')
  /\ _llm s''
     = Some (Bound (ChatOpenAI "gpt-4o" []) ["search"%string]).
Proof.
destruct (bind_tools_effect Examples.all_up tt ["search"%string]
            Examples.started) as (_ & _ & Hbound).
destruct (Hbound (ChatOpenAI "gpt-4o" []) eq_refl eq_refl)
  as (s' & Hbind & _ & _ & _ & _ & Hnext & _).
destruct (Hnext Examples.question Examples.hello)
  as (s'' & Hcall & _ & Hl).
- cbn. discriminate.
- reflexivity.
- exists s', s''. split; [exact Hbind|]. split; [exact Hcall | exact Hl].
Defined.

(** C10, as the claim states it, fails.  [bind_tools] does not always
    return: when the model refuses the tools, the exception of the binding
    reaches the caller.  And the tool-bound model does not serve all later
    calls: after [bind_tools], a call that names the (registered) current
    model is served by the registry's object, which has no tools bound, and
    that object stays the current model; and when the bound model fails,
    the fallback moves on to the next registry object, again without
    tools. *)
Lemma bound_model_is_replaced :
let s1 :=
  snd (bind_tools Examples.all_up tt ["search"%string] Examples.started) in
bind_tools Examples.no_tools tt ["search"%string] Examples.started
= (Raise (mk_exc ValueError "Unsupported function"), Examples.started)
/\ _llm s1 = Some (Bound (ChatOpenAI "gpt-4o" []) ["search"%string])
/\ (exists s2,
      call Examples.all_up Examples.question (Some "gpt-4o"%string) [] s1
      = (Ok Examples.hello, s2)
      /\ invoked (trace s2) = [ChatOpenAI "gpt-4o" []]
      /\ _llm s2 = Some (ChatOpenAI "gpt-4o" []))
/\ (exists s2,
      call Examples.one_down Examples.question None [] s1
      = (Ok Examples.hello, s2)
      /\ last_outcome (trace s2) = Some (Ok Examples.hello)
      /\ _llm s2 = Some (ChatOpenAI "gpt-5" [])).
Proof.
cbv zeta. split; [reflexivity|]. split; [reflexivity|]. split.
- eexists. split; [vm_compute; reflexivity|]. split; reflexivity.
- eexists. split; [vm_compute; reflexivity|]. split; reflexivity.
Qed.

End BindingFacts.

(* ================================================================== *)
(** * More facts about the streaming generators *)
(* ================================================================== *)

Module StreamFacts.

Import Llm Chatbot ChatbotFacts.

Lemma increments_after {A : Type} (l : list A) (f : feed A) :
increments (after l f) = l ++ increments f.
Proof. induction l as [|a l IH]; cbn; [reflexivity | rewrite IH; reflexivity]. Qed.

Lemma ending_after {A : Type} (l : list A) (f : feed A) :
ending (after l f) = ending f.
Proof. induction l as [|a l IH]; cbn; [reflexivity | exact IH]. Qed.

Lemma event_generator_eq (h : handle) (chunks : feed string) :
event_generator (Some h) chunks
= map token_response (increments chunks)
  ++ [closing_response (ending chunks)].
Proof.
unfold event_generator. cbn [stream_label].
rewrite event_generator_loop_spec.
destruct (ending chunks); reflexivity.
Qed.

(** Events that can be written are forwarded, and the stream goes on. *)
Lemma forwarded_after (l : list CopilotEvent) (f : feed CopilotEvent) :
writable l = true ->
forwarded (after l f) = l ++ forwarded f
/\ copilot_ending (after l f) = copilot_ending f.
Proof.
unfold writable. induction l as [|ev l IH]; cbn; [split; reflexivity|].
destruct (json_dumps_error ev); [discriminate|].
intros H. destruct (IH H) as [-> ->]. split; reflexivity.
Qed.

(** An event that cannot be written ends the stream. *)
Lemma forwarded_refused (l : list CopilotEvent) (ev : CopilotEvent)
  (e : exc) (f : feed CopilotEvent) :
writable l = true ->
json_dumps_error ev = Some e ->
forwarded (after l (Yields ev f)) = l
/\ copilot_ending (after l (Yields ev f)) = Some e.
Proof.
intros Hl Hev. destruct (forwarded_after l (Yields ev f) Hl) as [-> ->].
cbn. rewrite Hev, app_nil_r. split; reflexivity.
Qed.

(** X14: what the generators emit for the increments received so far
    does not depend on what the feed does next: the events for a feed that
    starts with the increments [l] are the events for [l], in order,
    followed by the events for the rest of the feed.  For the structured
    stream this holds when the events of [l] can be written as JSON; an
    event that cannot be written ends the stream with the error event of
    that failure, whatever the feed would have delivered after it. *)
Theorem streams_forward_as_they_arrive
  (h : handle) (session_id : string)
  (chunks : list string) (rest : feed string)
  (events : list CopilotEvent) (rest' : feed CopilotEvent) :
event_generator (Some h) (after chunks rest)
= map token_response chunks ++ event_generator (Some h) rest
/\ (writable events = true ->
    copilot_event_generator session_id (Some h) (after events rest')
    = events ++ copilot_event_generator session_id (Some h) rest')
/\ (forall ev e,
      writable events = true ->
      json_dumps_error ev = Some e ->
      copilot_event_generator session_id (Some h)
        (after events (Yields ev rest'))
      = events ++ [closing_event session_id (Some e)]).
Proof.
split; [|split].
- rewrite !event_generator_eq.
  rewrite !increments_after, !ending_after, map_app, <- !app_assoc.
  reflexivity.
- intros Hw. rewrite !copilot_event_generator_eq.
  destruct (forwarded_after events rest' Hw) as [-> ->].
  rewrite <- app_assoc. reflexivity.
- intros ev e Hw Hev. rewrite copilot_event_generator_eq.
  destruct (forwarded_refused events ev e rest' Hw Hev) as [-> ->].
  reflexivity.
Qed.

Lemma assembled_tokens (l : list string) (closing : StreamResponse) :
done closing = true ->
assembled (map token_response l ++ [closing]) = fold_right String.append "" l.
Proof.
intros Hdone. unfold assembled.
induction l as [|c l IH]; cbn.
- rewrite Hdone. reflexivity.
- f_equal. exact IH.
Qed.

Lemma forwarded_length (events : feed CopilotEvent) :
(List.length (forwarded events) <= List.length (increments events))%nat.
Proof.
destruct (forwarded_prefix events) as [dropped ->].
rewrite length_app. lia.
Qed.

(** X16: a client of the plain stream that concatenates the contents of
    the events before the closing one obtains the concatenation of the
    chunks of the feed, whether the feed completed or failed, and the plain
    stream has one event more than the feed had chunks.  The structured
    stream has at most one event more than the feed had increments, and
    exactly one more when every event of the feed can be written as
    JSON. *)
Theorem plain_stream_assembles_the_text
  (h : handle) (session_id : string)
  (chunks : feed string) (events : feed CopilotEvent) :
assembled (event_generator (Some h) chunks)
= fold_right String.append "" (increments chunks)
/\ List.length (event_generator (Some h) chunks)
   = S (List.length (increments chunks))
/\ (List.length (copilot_event_generator session_id (Some h) events)
    <= S (List.length (increments events)))%nat
/\ (writable (increments events) = true ->
    List.length (copilot_event_generator session_id (Some h) events)
    = S (List.length (increments events))).
Proof.
rewrite event_generator_eq, copilot_event_generator_eq.
split; [apply assembled_tokens; reflexivity|].
rewrite !length_app, length_map. cbn [List.length].
pose proof (forwarded_length events) as Hle.
split; [lia|]. split; [lia|].
intros Hw. destruct (forwarded_writable events Hw) as [-> _]. lia.
Qed.

(** X17: in the plain stream a failure whose message is empty cannot be
    told from normal completion, the events are the same.  The structured
    stream tells the two apart by the type of its last event, as long as
    the events before can be written as JSON. *)
Theorem empty_error_looks_like_completion
  (h : handle) (session_id : string) (e : exc)
  (chunks : list string) (events : list CopilotEvent) :
exc_str e = "" ->
writable events = true ->
event_generator (Some h) (after chunks (Raises e))
= event_generator (Some h) (after chunks Exhausted)
/\ copilot_event_generator session_id (Some h) (after events (Raises e))
   <> copilot_event_generator session_id (Some h) (after events Exhausted).
Proof.
intros He Hw.
rewrite !event_generator_eq, !copilot_event_generator_eq.
rewrite !increments_after, !ending_after. cbn [increments ending].
destruct (forwarded_after events (Raises e) Hw) as [-> ->].
destruct (forwarded_after events Exhausted Hw) as [-> ->].
cbn [forwarded copilot_ending].
split.
- unfold closing_response. rewrite He. reflexivity.
- intros H. apply app_inv_head in H. discriminate.
Qed.

Lemma empty_error_looks_like_completion_witness :
event_generator (Some (ChatOpenAI "gpt-4o" []))
  (Yields "Hel" (Raises (mk_exc Exception "")))
= event_generator (Some (ChatOpenAI "gpt-4o" []))
    (Yields "Hel" Exhausted).
Proof.
exact (proj1 (empty_error_looks_like_completion
                (ChatOpenAI "gpt-4o" []) "s1" (mk_exc Exception "")
                ["Hel"] [] eq_refl eq_refl)).
Defined.

End StreamFacts.

(* ================================================================== *)
(** * More facts about Message and ChatRequest *)
(* ================================================================== *)

Module MessageFacts.

Import Chat ChatFacts.

(** [new_Message] refuses exactly the rejected contents. *)
Lemma new_Message_cases (r : Role) (v : text) :
(rejected v /\ exists err, new_Message r v = inl err)
\/ (~ rejected v /\ new_Message r v = inr {| role := r; content := v |}).
Proof.
destruct (validate_content_cases v) as (Hbad & Hgood & Honly).
unfold new_Message, rejected.
destruct (List.length v <? 1)%nat eqn:Hshort.
{ apply Nat.ltb_lt in Hshort. left.
  assert (Hv : v = []) by (destruct v; [reflexivity | cbn in Hshort; lia]).
  split; eauto. }
apply Nat.ltb_ge in Hshort.
assert (Hne : v <> []) by (intros ->; cbn in Hshort; lia).
destruct (3000 <? List.length v)%nat eqn:Hlong.
{ apply Nat.ltb_lt in Hlong. left. split; eauto. }
apply Nat.ltb_ge in Hlong.
destruct (validate_content v) as [v'|e] eqn:Hval.
- right.
  assert (Hclean : ~ (contains_script_tag v \/ contains_null_byte v)).
  { intros H. destruct (Hbad H) as [e He]. discriminate. }
  specialize (Hgood Hclean). injection Hgood as ->.
  split; [|reflexivity].
  intros [H|[H|H]]; [congruence | lia | tauto].
- left. split; [|eauto].
  destruct (Honly e eq_refl) as [H|H]; auto.
Qed.




(** X19: text around a refused content does not help: when a content
    contains a script tag or a null character, every content that contains
    it is refused as well. *)
Theorem refusal_survives_embedding (r : Role) (v before after : text) :
contains_script_tag v \/ contains_null_byte v ->
exists err, new_Message r (before ++ v ++ after) = inl err.
Proof.
intros Hbad.
destruct (new_Message_cases r (before ++ v ++ after))
  as [[_ Herr] | [Hok _]]; [exact Herr|].
exfalso. apply Hok. right. right. destruct Hbad as [H|H].
- left. destruct H as (b & o & a & bd & c & rs & -> & Ho & Hc).
  exists (before ++ b), o, a, bd, c, (rs ++ after).
  split; [|split; assumption].
  rewrite <- !app_assoc. reflexivity.
- right. destruct H as (b & rs & ->).
  exists (before ++ b), (rs ++ after).
  rewrite <- !app_assoc. reflexivity.
Qed.

Lemma refusal_survives_embedding_witness :
exists err,
  new_Message user
    (of_string "see: " ++ of_string "<script>x</script>"
     ++ of_string " thanks") = inl err.
Proof.
apply refusal_survives_embedding. left.
exists [], (of_string "<script"), [], (of_string "x"),
       (of_string "</script>"), [].
split; [reflexivity | split; unfold spells; repeat constructor].
Defined.

(** ** Letter case *)

(** Whether a code point matches a literal does not depend on the case
    of an ASCII letter. *)
Lemma chr_matches_tolower (p c : code_point) :
chr_matches validator_flags p (ascii_tolower c)
= chr_matches validator_flags p c.
Proof.
apply eq_true_iff_eq.
destruct (ascii_tolower_cases c) as [[Hc Hlc] | [Hc Hlc]];
  [|rewrite Hlc; reflexivity].
rewrite Hlc.
destruct (is_ascii_letter_cases p) as [[Hl Hr] | [Hl [Hn1 Hn2]]].
- rewrite !(chr_matches_letter p _ Hl).
  destruct (ascii_tolower_cases p) as [[Hp Hlp] | [Hp Hlp]]; rewrite Hlp.
  + split; intros [H|[H|H]];
      solve [left; lia | right; left; lia
            | apply beyond_ascii_large in H; lia].
  + split; intros [H|[H|H]];
      solve [left; lia | right; left; lia
            | apply beyond_ascii_large in H; lia].
- unfold chr_matches. rewrite Hl. cbn. rewrite !N.eqb_eq. lia.
Qed.

Lemma deriv_tolower (c : code_point) (r : regex) :
deriv validator_flags (ascii_tolower c) r = deriv validator_flags c r.
Proof.
induction r; cbn; try reflexivity.
- rewrite chr_matches_tolower. reflexivity.
- rewrite IHr1, IHr2. reflexivity.
- rewrite IHr1, IHr2. reflexivity.
- rewrite IHr. reflexivity.
Qed.

Lemma re_match_tolower (s : text) :
forall r,
  re_match validator_flags r (map ascii_tolower s)
  = re_match validator_flags r s.
Proof.
induction s as [|c s IH]; intros r; cbn; [reflexivity|].
rewrite deriv_tolower, IH. reflexivity.
Qed.

Lemma re_search_tolower (r : regex) (s : text) :
re_search validator_flags r (map ascii_tolower s)
= re_search validator_flags r s.
Proof.
induction s as [|c s IH]; [reflexivity|].
cbn [map re_search]. rewrite IH.
change (ascii_tolower c :: map ascii_tolower s)
  with (map ascii_tolower (c :: s)).
rewrite re_match_tolower. reflexivity.
Qed.

Lemma code_in_zero_tolower (s : text) :
code_in 0%N (map ascii_tolower s) = code_in 0%N s.
Proof.
induction s as [|c s IH]; cbn [code_in map]; [reflexivity|].
rewrite IH. f_equal.
destruct (ascii_tolower_cases c) as [[Hc ->] | [Hc ->]]; [|reflexivity].
apply eq_true_iff_eq. rewrite !N.eqb_eq. lia.
Qed.

(** X20: the case of the letters [A]-[Z] of a content plays no part in
    whether it is refused: the content and the content with these letters
    turned into [a]-[z] (which is [v.lower()] when the content is ASCII)
    are refused with the same error, or both accepted. *)
Theorem letter_case_is_irrelevant (r : Role) (v : text) :
(forall err, new_Message r (map ascii_tolower v) = inl err
             <-> new_Message r v = inl err)
/\ (new_Message r v = inr {| role := r; content := v |}
    <-> new_Message r (map ascii_tolower v)
        = inr {| role := r; content := map ascii_tolower v |}).
Proof.
unfold new_Message, validate_content.
rewrite length_map, re_search_tolower, code_in_zero_tolower.
destruct (List.length v <? 1)%nat; [split; [tauto|split; discriminate]|].
destruct (3000 <? List.length v)%nat; [split; [tauto|split; discriminate]|].
destruct (re_search validator_flags script_pattern v);
  [split; [tauto|split; discriminate]|].
destruct (code_in 0%N v); [split; [tauto|split; discriminate]|].
split; [split; discriminate | split; reflexivity].
Qed.

(** ** ChatRequest *)



Example request_with_script_is_refused :
new_ChatRequest [(user, of_string "hello");
                 (assistant, of_string "<script>x</script>")]
= inl [item_error 1
         (value_error "Content contains potentially harmful script tags")].
Proof. vm_compute. reflexivity. Qed.

End MessageFacts.

(* ================================================================== *)
(** * Further facts: how the model objects are configured *)
(* ================================================================== *)

Module FactoryFacts.

Import Factory.

(** ** Text *)

Lemma char_in_app (x : ascii) (a b : string) :
char_in x (a ++ b)%string = char_in x a || char_in x b.
Proof.
induction a as [|c a IH]; cbn [String.append char_in]; [reflexivity|].
rewrite IH. apply orb_assoc.
Qed.

Lemma split_first_colon_app (a b : string) :
char_in ":" a = false ->
split_first_colon (a ++ String ":" b)%string = (a, b).
Proof.
induction a as [|c a IH]; intros H.
- reflexivity.
- cbn [char_in] in H. apply orb_false_elim in H. destruct H as [Hc Ha].
  cbn [String.append split_first_colon].
  rewrite Ascii.eqb_sym, Hc, (IH Ha). reflexivity.
Qed.

Lemma remove_all_absent (old s : string) :
str_in old s = false -> remove_all old 0 s = s.
Proof.
induction s as [|c s IH]; intros H; [reflexivity|].
cbn [str_in] in H. apply orb_false_elim in H. destruct H as [Hp Hs].
cbn [remove_all]. rewrite Hp, andb_false_r, (IH Hs). reflexivity.
Qed.

Lemma remove_all_prefix (s : string) :
remove_all "BedrockAPIKey-" 0 ("BedrockAPIKey-" ++ s)%string
= remove_all "BedrockAPIKey-" 0 s.
Proof. reflexivity. Qed.

Lemma str_in_prefix (s : string) :
str_in "BedrockAPIKey-" ("BedrockAPIKey-" ++ s)%string = true.
Proof. reflexivity. Qed.

Lemma lstrip_no_space (s : string) :
forallb (fun c => negb (isspace c)) (list_ascii_of_string s) = true ->
lstrip s = s.
Proof.
destruct s as [|c s]; [reflexivity|].
cbn [list_ascii_of_string forallb lstrip]. intros H.
apply andb_prop in H. destruct H as [Hc _].
destruct (isspace c); [discriminate | reflexivity].
Qed.

Lemma rstrip_no_space (s : string) :
forallb (fun c => negb (isspace c)) (list_ascii_of_string s) = true ->
rstrip s = s.
Proof.
induction s as [|c s IH]; [reflexivity|].
cbn [list_ascii_of_string forallb rstrip]. intros H.
apply andb_prop in H. destruct H as [Hc Hs].
rewrite (IH Hs). destruct s; [|reflexivity].
destruct (isspace c); [discriminate | reflexivity].
Qed.

Lemma strip_no_space (s : string) :
forallb (fun c => negb (isspace c)) (list_ascii_of_string s) = true ->
strip s = s.
Proof.
intros H. unfold strip. rewrite (lstrip_no_space s H).
apply rstrip_no_space, H.
Qed.

(** ** The environment *)

Lemma environ_set_ok (k v : string) (env : environ) :
char_in Ascii.zero v = false ->
environ_set k v env
= Ok (fun k' => if String.eqb k' k then Some v else env k').
Proof. intros H. unfold environ_set. rewrite H. reflexivity. Qed.

Lemma environ_set_cases (k v : string) (env : environ) :
(exists e, environ_set k v env = Raise e)
\/ environ_set k v env
   = Ok (fun k' => if String.eqb k' k then Some v else env k').
Proof.
unfold environ_set. destruct (char_in Ascii.zero v); eauto.
Qed.

Lemma unwritten (k : string) :
~ written k ->
String.eqb k "AWS_EC2_METADATA_DISABLED" = false
/\ String.eqb k "AWS_REGION" = false
/\ String.eqb k "AWS_ACCESS_KEY_ID" = false
/\ String.eqb k "AWS_SECRET_ACCESS_KEY" = false.
Proof.
unfold written. intros H.
repeat split; apply String.eqb_neq; intros ->; apply H; auto.
Qed.

Ltac set_env H :=
  match goal with
  | |- context [environ_set ?k ?v ?env] =>
      destruct (environ_set_cases k v env) as [[? H] | H]; rewrite H
  end.

Ltac agreed :=
  cbn;
  repeat split; try congruence; try discriminate;
  try (intros k Hk; destruct (unwritten k Hk) as (U1 & U2 & U3 & U4);
       rewrite ?U1, ?U2, ?U3, ?U4; reflexivity).

(** ** _create_openai_model *)

(** X22: the keyword arguments that [_create_openai_model] hands to
    [ChatOpenAI] name no key twice and always carry the model name, the
    configured temperature, API key and token limit, and a [top_p]; the two
    penalties come together or not at all; outside production [top_p] is
    0.8 for every model.  The model "gpt-4o-mini" gets no penalties, but
    every longer name that starts with it (a dated variant) gets them. *)
Theorem openai_model_kwargs_shape (c : config) (model_name : string) :
NoDup (map fst (openai_model_kwargs c model_name))
/\ lookup "model" (openai_model_kwargs c model_name) = Some (VStr model_name)
/\ lookup "temperature" (openai_model_kwargs c model_name)
   = Some (VFloat (DEFAULT_LLM_TEMPERATURE c))
/\ lookup "api_key" (openai_model_kwargs c model_name)
   = Some (VStr (OPENAI_API_KEY c))
/\ lookup "max_tokens" (openai_model_kwargs c model_name)
   = Some (VInt (MAX_TOKENS c))
/\ lookup "top_p" (openai_model_kwargs c model_name) <> None
/\ (lookup "presence_penalty" (openai_model_kwargs c model_name) = None
    <-> lookup "frequency_penalty" (openai_model_kwargs c model_name) = None)
/\ (production c = false ->
    lookup "top_p" (openai_model_kwargs c model_name)
    = Some (VFloat (QArith_base.Qmake 8 10)))
/\ lookup "presence_penalty" (openai_model_kwargs c "gpt-4o-mini") = None
/\ (forall suffix, suffix <> ""%string ->
    lookup "presence_penalty"
      (openai_model_kwargs c ("gpt-4o-mini" ++ suffix)%string) <> None).
Proof.
assert (Hshape :
  openai_model_kwargs c model_name
  = [("model"%string, VStr model_name);
     ("temperature"%string, VFloat (DEFAULT_LLM_TEMPERATURE c));
     ("api_key"%string, VStr (OPENAI_API_KEY c));
     ("max_tokens"%string, VInt (MAX_TOKENS c));
     ("top_p"%string,
      VFloat (if production c then QArith_base.Qmake 95 100
              else QArith_base.Qmake 8 10));
     ("presence_penalty"%string,
      VFloat (if production c then QArith_base.Qmake 1 10
              else QArith_base.Qmake 0 10));
     ("frequency_penalty"%string,
      VFloat (if production c then QArith_base.Qmake 1 10
              else QArith_base.Qmake 0 10))]
  \/ openai_model_kwargs c model_name
  = [("model"%string, VStr model_name);
     ("temperature"%string, VFloat (DEFAULT_LLM_TEMPERATURE c));
     ("api_key"%string, VStr (OPENAI_API_KEY c));
     ("max_tokens"%string, VInt (MAX_TOKENS c));
     ("top_p"%string,
      VFloat (if production c then QArith_base.Qmake 9 10
              else QArith_base.Qmake 8 10))]).
{ unfold openai_model_kwargs.
  destruct (str_in "gpt-4o" model_name
            && negb (String.eqb model_name "gpt-4o-mini"));
    [left | right]; reflexivity. }
split; [|split; [|split; [|split; [|split; [|split; [|split; [|split;
  [|split]]]]]]]].
- destruct Hshape as [-> | ->]; cbn [map fst];
    repeat constructor; cbn [In]; intuition discriminate.
- destruct Hshape as [-> | ->]; reflexivity.
- destruct Hshape as [-> | ->]; reflexivity.
- destruct Hshape as [-> | ->]; reflexivity.
- destruct Hshape as [-> | ->]; reflexivity.
- destruct Hshape as [-> | ->]; discriminate.
- destruct Hshape as [-> | ->]; cbn; split; intros H;
    solve [discriminate | reflexivity].
- intros Hdev. destruct Hshape as [-> | ->]; cbn; rewrite Hdev; reflexivity.
- reflexivity.
- intros suffix Hs. destruct suffix as [|ch suffix]; [congruence|].
  unfold openai_model_kwargs.
  replace (str_in "gpt-4o" ("gpt-4o-mini" ++ String ch suffix)%string)
    with true by reflexivity.
  replace (String.eqb ("gpt-4o-mini" ++ String ch suffix)%string
             "gpt-4o-mini") with false by reflexivity.
  discriminate.
Qed.

(** ** _get_bedrock_credentials *)

(** X23: whichever way [_get_bedrock_credentials] obtains a session, the
    session and the process environment agree when it returns one: the
    session has the configured region, [AWS_REGION] holds that region and
    [AWS_EC2_METADATA_DISABLED] holds "true", the key variables hold the
    keys of the session, a session has both keys or neither, a session
    without keys leaves the key variables as they were, and no other
    variable is changed. *)
Theorem session_agrees_with_environment
  (cfg : aws_settings) (W : world) (env env' : environ) (sess : Session) :
_get_bedrock_credentials cfg W env = (Ok (Some sess), env') ->
region_name sess = AWS_REGION cfg
/\ env' "AWS_REGION"%string = Some (AWS_REGION cfg)
/\ env' "AWS_EC2_METADATA_DISABLED"%string = Some "true"%string
/\ (forall k, aws_access_key_id sess = Some k ->
      env' "AWS_ACCESS_KEY_ID"%string = Some k)
/\ (forall k, aws_secret_access_key sess = Some k ->
      env' "AWS_SECRET_ACCESS_KEY"%string = Some k)
/\ (aws_access_key_id sess = None <-> aws_secret_access_key sess = None)
/\ (aws_access_key_id sess = None ->
      env' "AWS_ACCESS_KEY_ID"%string = env "AWS_ACCESS_KEY_ID"%string
      /\ env' "AWS_SECRET_ACCESS_KEY"%string
         = env "AWS_SECRET_ACCESS_KEY"%string)
/\ (forall k, ~ written k -> env' k = env k).
Proof.
unfold _get_bedrock_credentials, guarded_session, new_session.
destruct (BEDROCK_AVAILABLE cfg); cbn [negb]; [|discriminate].
set_env H1; [discriminate|].
set_env H2; [discriminate|].
destruct (truthy (AWS_BEARER_TOKEN_BEDROCK cfg)).
- destruct (b64decode W _) as [decoded|e]; [|discriminate].
  destruct (char_in ":" decoded); [|discriminate].
  set_env H3; [discriminate|].
  set_env H4; [discriminate|].
  destruct (session_error W _); [discriminate|].
  intros H. injection H as <- <-. agreed.
- destruct (truthy (AWS_ACCESS_KEY_ID cfg) && truthy (AWS_SECRET_ACCESS_KEY cfg)).
  + set_env H3; [discriminate|].
    set_env H4; [discriminate|].
    set_env H5; [discriminate|].
    set_env H6; [discriminate|].
    destruct (session_error W _); [discriminate|].
    intros H. injection H as <- <-. agreed.
  + destruct (session_error W _); [discriminate|].
    intros H. injection H as <- <-. agreed.
Qed.

Lemma session_agrees_with_environment_witness :
(snd (_get_bedrock_credentials Examples.key_settings Examples.decoding
        Examples.no_environ)) "AWS_ACCESS_KEY_ID"%string
= Some "AKIAEXAMPLE"%string.
Proof.
destruct (session_agrees_with_environment Examples.key_settings
            Examples.decoding Examples.no_environ
            (snd (_get_bedrock_credentials Examples.key_settings
                    Examples.decoding Examples.no_environ))
            {| aws_access_key_id := Some "AKIAEXAMPLE"%string;
               aws_secret_access_key := Some "static-secret"%string;
               region_name := "us-east-1" |})
  as (_ & _ & _ & Hkey & _).
- reflexivity.
- apply Hkey. reflexivity.
Defined.

(** X24: when the Bedrock SDK is importable, the configured region has
    no null character (so that it can be written to the environment) and a
    bearer token is configured, the configured access keys play no part:
    the function returns the same whatever they are.  Under these
    conditions it does not raise: a token that cannot be decoded, or whose
    text has no colon, gives [None], without a fall-back to the access keys
    and with the key variables of the environment as they were. *)
Theorem bearer_token_has_precedence
  (cfg : aws_settings) (W : world) (env : environ) (key secret : string) :
BEDROCK_AVAILABLE cfg = true ->
char_in Ascii.zero (AWS_REGION cfg) = false ->
truthy (AWS_BEARER_TOKEN_BEDROCK cfg) = true ->
_get_bedrock_credentials
  {| BEDROCK_AVAILABLE := true;
     AWS_REGION := AWS_REGION cfg;
     AWS_BEARER_TOKEN_BEDROCK := AWS_BEARER_TOKEN_BEDROCK cfg;
     AWS_ACCESS_KEY_ID := key;
     AWS_SECRET_ACCESS_KEY := secret |} W env
= _get_bedrock_credentials cfg W env
/\ (exists r env', _get_bedrock_credentials cfg W env = (Ok r, env'))
/\ ((forall text,
       b64decode W (AWS_BEARER_TOKEN_BEDROCK cfg ++ "==")%string = Ok text ->
       char_in ":" text = false) ->
    exists env',
      _get_bedrock_credentials cfg W env = (Ok None, env')
      /\ env' "AWS_ACCESS_KEY_ID"%string = env "AWS_ACCESS_KEY_ID"%string
      /\ env' "AWS_SECRET_ACCESS_KEY"%string
         = env "AWS_SECRET_ACCESS_KEY"%string).
Proof.
intros Hav Hregion Htoken.
unfold _get_bedrock_credentials, guarded_session.
cbn [BEDROCK_AVAILABLE AWS_REGION AWS_BEARER_TOKEN_BEDROCK
     AWS_ACCESS_KEY_ID AWS_SECRET_ACCESS_KEY].
rewrite Hav, Htoken. cbn [negb].
rewrite (environ_set_ok _ "true" env eq_refl).
rewrite (environ_set_ok _ (AWS_REGION cfg) _ Hregion).
split; [reflexivity|]. split.
- destruct (b64decode W _) as [decoded|e]; [|eauto].
  destruct (char_in ":" decoded); [|eauto].
  set_env H3; [eauto|].
  set_env H4; [eauto|].
  destruct (session_error W _); eauto.
- intros Hbad.
  destruct (b64decode W _) as [decoded|e].
  + rewrite (Hbad decoded eq_refl). eexists. split; [reflexivity|].
    split; reflexivity.
  + eexists. split; [reflexivity|]. split; reflexivity.
Qed.

Lemma bearer_token_has_precedence_witness :
exists env',
  _get_bedrock_credentials
    {| BEDROCK_AVAILABLE := true;
       AWS_REGION := "us-east-1";
       AWS_BEARER_TOKEN_BEDROCK := "QmVkcm9ja0FQSUtleS1hYjEyOnMzOmNyM3Q";
       AWS_ACCESS_KEY_ID := "AKIAEXAMPLE";
       AWS_SECRET_ACCESS_KEY := "static-secret" |}
    Examples.undecodable Examples.no_environ
  = (Ok None, env')
  /\ env' "AWS_ACCESS_KEY_ID"%string = None.
Proof.
destruct (bearer_token_has_precedence Examples.bearer_settings
            Examples.undecodable Examples.no_environ
            "AKIAEXAMPLE" "static-secret" eq_refl eq_refl eq_refl)
  as (_ & _ & Hbad).
destruct Hbad as (env' & Hrun & Hkey & _).
- intros text H. discriminate H.
- exists env'. split; [exact Hrun | exact Hkey].
Defined.

(** X25: let the Bedrock SDK be importable, the region free of null
    characters, and [boto3.Session] accept the keys.  Let [id] be a text
    without colon, without null character and without an occurrence of
    "BedrockAPIKey-", and [secret] a text without null character.  Then a
    bearer token that decodes to "id:secret", or to
    "BedrockAPIKey-id:secret" with [id] free of white space, gives a
    session with that id, that secret and the configured region, and puts
    the same values into the environment.  The text is cut at its first
    colon, so the secret may contain colons. *)
Theorem bearer_token_round_trip
  (cfg : aws_settings) (W : world) (env : environ)
  (id secret decoded : string) :
BEDROCK_AVAILABLE cfg = true ->
char_in Ascii.zero (AWS_REGION cfg) = false ->
truthy (AWS_BEARER_TOKEN_BEDROCK cfg) = true ->
char_in ":" id = false ->
char_in Ascii.zero id = false ->
char_in Ascii.zero secret = false ->
str_in "BedrockAPIKey-" id = false ->
decoded = (id ++ ":" ++ secret)%string
\/ (decoded = ("BedrockAPIKey-" ++ id ++ ":" ++ secret)%string
    /\ forallb (fun c => negb (isspace c)) (list_ascii_of_string id) = true) ->
b64decode W (AWS_BEARER_TOKEN_BEDROCK cfg ++ "==")%string = Ok decoded ->
session_error W {| aws_access_key_id := Some id;
                   aws_secret_access_key := Some secret;
                   region_name := AWS_REGION cfg |} = None ->
exists env',
  _get_bedrock_credentials cfg W env
  = (Ok (Some {| aws_access_key_id := Some id;
                 aws_secret_access_key := Some secret;
                 region_name := AWS_REGION cfg |}), env')
  /\ env' "AWS_ACCESS_KEY_ID"%string = Some id
  /\ env' "AWS_SECRET_ACCESS_KEY"%string = Some secret
  /\ env' "AWS_REGION"%string = Some (AWS_REGION cfg)
  /\ env' "AWS_EC2_METADATA_DISABLED"%string = Some "true"%string.
Proof.
intros Hav Hregion Htoken Hcolon Hid Hsecret Hprefix Hshape Hdecode Hsess.
assert (Hsplit : char_in ":" decoded = true
                 /\ without_prefix (fst (split_first_colon decoded)) = id
                 /\ snd (split_first_colon decoded) = secret).
{ destruct Hshape as [-> | [-> Hspace]].
  - change (id ++ ":" ++ secret)%string with (id ++ String ":" secret)%string.
    rewrite char_in_app, (split_first_colon_app _ _ Hcolon).
    cbn [char_in fst snd]. rewrite Ascii.eqb_refl, orb_true_r.
    unfold without_prefix. rewrite Hprefix. auto.
  - change ("BedrockAPIKey-" ++ id ++ ":" ++ secret)%string
      with (("BedrockAPIKey-" ++ id) ++ String ":" secret)%string.
    rewrite char_in_app, split_first_colon_app.
    + cbn [char_in fst snd]. rewrite Ascii.eqb_refl, orb_true_r.
      unfold without_prefix.
      rewrite str_in_prefix, remove_all_prefix,
        (remove_all_absent _ _ Hprefix), (strip_no_space _ Hspace). auto.
    + rewrite char_in_app, Hcolon. reflexivity. }
destruct Hsplit as (Hin & Hfst & Hsnd).
unfold _get_bedrock_credentials, guarded_session.
rewrite Hav, Htoken, Hdecode, Hin, Hfst, Hsnd. cbn [negb].
rewrite (environ_set_ok _ "true" env eq_refl).
rewrite (environ_set_ok _ (AWS_REGION cfg) _ Hregion).
rewrite (environ_set_ok _ id _ Hid).
rewrite (environ_set_ok _ secret _ Hsecret).
rewrite Hsess.
eexists. split; [reflexivity|]. repeat split.
Qed.

Lemma bearer_token_round_trip_witness :
exists env',
  _get_bedrock_credentials Examples.bearer_settings Examples.decoding
    Examples.no_environ
  = (Ok (Some {| aws_access_key_id := Some "ab12"%string;
                 aws_secret_access_key := Some "s3:cr3t"%string;
                 region_name := "us-east-1" |}), env')
  /\ env' "AWS_SECRET_ACCESS_KEY"%string = Some "s3:cr3t"%string.
Proof.
destruct (bearer_token_round_trip Examples.bearer_settings Examples.decoding
            Examples.no_environ "ab12" "s3:cr3t"
            "BedrockAPIKey-ab12:s3:cr3t"
            eq_refl eq_refl eq_refl eq_refl eq_refl eq_refl eq_refl
            (or_intror (conj eq_refl eq_refl)) eq_refl eq_refl)
  as (env' & Hrun & _ & Hsecret & _).
exists env'. split; [exact Hrun | exact Hsecret].
Defined.

(** X26: without a bearer token the configured access keys are used only
    when both are set: with one of them missing the function builds the
    default session, without keys, and leaves the key variables of the
    environment alone; with both it builds the session from them and
    exports them.  In either case a failure of [boto3.Session] is raised
    to the caller. *)
Theorem access_keys_need_both
  (cfg : aws_settings) (W : world) (env : environ) :
BEDROCK_AVAILABLE cfg = true ->
char_in Ascii.zero (AWS_REGION cfg) = false ->
AWS_BEARER_TOKEN_BEDROCK cfg = ""%string ->
(AWS_ACCESS_KEY_ID cfg = ""%string \/ AWS_SECRET_ACCESS_KEY cfg = ""%string ->
 exists env',
   env' "AWS_ACCESS_KEY_ID"%string = env "AWS_ACCESS_KEY_ID"%string
   /\ env' "AWS_SECRET_ACCESS_KEY"%string
      = env "AWS_SECRET_ACCESS_KEY"%string
   /\ _get_bedrock_credentials cfg W env
      = (match session_error W {| aws_access_key_id := None;
                                  aws_secret_access_key := None;
                                  region_name := AWS_REGION cfg |} with
         | Some e => Raise e
         | None => Ok (Some {| aws_access_key_id := None;
                               aws_secret_access_key := None;
                               region_name := AWS_REGION cfg |})
         end, env'))
/\ (AWS_ACCESS_KEY_ID cfg <> ""%string ->
    AWS_SECRET_ACCESS_KEY cfg <> ""%string ->
    char_in Ascii.zero (AWS_ACCESS_KEY_ID cfg) = false ->
    char_in Ascii.zero (AWS_SECRET_ACCESS_KEY cfg) = false ->
    exists env',
      env' "AWS_ACCESS_KEY_ID"%string = Some (AWS_ACCESS_KEY_ID cfg)
      /\ env' "AWS_SECRET_ACCESS_KEY"%string
         = Some (AWS_SECRET_ACCESS_KEY cfg)
      /\ _get_bedrock_credentials cfg W env
         = (match session_error W
                    {| aws_access_key_id := Some (AWS_ACCESS_KEY_ID cfg);
                       aws_secret_access_key :=
                         Some (AWS_SECRET_ACCESS_KEY cfg);
                       region_name := AWS_REGION cfg |} with
            | Some e => Raise e
            | None =>
                Ok (Some {| aws_access_key_id := Some (AWS_ACCESS_KEY_ID cfg);
                            aws_secret_access_key :=
                              Some (AWS_SECRET_ACCESS_KEY cfg);
                            region_name := AWS_REGION cfg |})
            end, env')).
Proof.
intros Hav Hregion Htoken.
unfold _get_bedrock_credentials, new_session.
rewrite Hav, Htoken. cbn [negb truthy String.eqb].
rewrite (environ_set_ok _ "true" env eq_refl).
rewrite (environ_set_ok _ (AWS_REGION cfg) _ Hregion).
split.
- intros Hmissing.
  assert (Hboth : truthy (AWS_ACCESS_KEY_ID cfg)
                  && truthy (AWS_SECRET_ACCESS_KEY cfg) = false).
  { destruct Hmissing as [-> | ->]; [reflexivity | apply andb_false_r]. }
  rewrite Hboth.
  eexists. split; [|split].
  3: destruct (session_error W _); reflexivity.
  all: reflexivity.
- intros Hkey Hsecret Hk0 Hs0.
  assert (Hboth : truthy (AWS_ACCESS_KEY_ID cfg)
                  && truthy (AWS_SECRET_ACCESS_KEY cfg) = true).
  { unfold truthy. apply String.eqb_neq in Hkey, Hsecret.
    rewrite Hkey, Hsecret. reflexivity. }
  rewrite Hboth.
  rewrite (environ_set_ok _ (AWS_ACCESS_KEY_ID cfg) _ Hk0).
  rewrite (environ_set_ok _ (AWS_SECRET_ACCESS_KEY cfg) _ Hs0).
  rewrite (environ_set_ok _ (AWS_REGION cfg) _ Hregion).
  rewrite (environ_set_ok "AWS_EC2_METADATA_DISABLED" "true" _ eq_refl).
  eexists. split; [|split].
  3: destruct (session_error W _); reflexivity.
  all: reflexivity.
Qed.

Lemma access_keys_need_both_witness :
exists env',
  _get_bedrock_credentials Examples.half_settings Examples.decoding
    Examples.no_environ
  = (Ok (Some {| aws_access_key_id := None;
                 aws_secret_access_key := None;
                 region_name := "us-east-1" |}), env')
  /\ env' "AWS_ACCESS_KEY_ID"%string = None.
Proof.
destruct (access_keys_need_both Examples.half_settings Examples.decoding
            Examples.no_environ eq_refl eq_refl eq_refl)
  as [Hmissing _].
destruct (Hmissing (or_intror eq_refl)) as (env' & Hkey & _ & Hrun).
exists env'. split; [exact Hrun | exact Hkey].
Defined.

End FactoryFacts.
